(** * Background-removal selection pipeline ([removal.py])

    A shallow embedding of the decision core of [removal.py]: the
    comparator [decide_best_method], the saliency gate
    [needs_background_removal], the compositor
    [replace_with_white_background] and the directory driver
    [process_directory], together with the properties stated for them.

    Conventions of the embedding.
    - A Python call either returns a value or raises: [result A].
    - Python's arithmetic operators are duck typed.  The functions below are
      written once over an interface [Number]; the instance [float_Number]
      (IEEE binary64, the kernel's primitive floats) is the arithmetic the
      metric functions of the script produce.  Statements that hold by the
      control flow alone are proved for every instance; statements that
      rest on arithmetic are proved for binary64, through the
      specification of the primitive floats.  The instance [Q_Number] is
      exact rational arithmetic; it is there to show, on one scene, what
      the comparator would return were its numbers not rounded.
    - A numpy array of shape (H, W, C) is a list of rows of pixels together
      with its channel count C; a pixel is the list of its channel values.
    - OpenCV, scikit-image, rembg, the ONNX session, numpy's [mean] and the
      reading side of the file system are collaborators of the script, not
      code of it: they are the fields of the record [externals].
    - The comparator takes the two removers as collaborators.  The script's
      own remover, [remove_background_u2net] with [preprocess] and
      [postprocess], is embedded in the module [Segmentation] over the
      libraries it calls, and [with_segmentation] puts it in its place.
    - The directories and files the driver works on are kept in a [world],
      threaded through the driver together with the raised exception, if
      any; [os.makedirs] and the saving of a PNG are collaborators too, the
      fields of the record [filesystem], and may raise. *)

From Stdlib Require Import ZArith QArith Qabs Qfield Lqa Lia.
From Stdlib Require Import List String Ascii Bool Floats.
Import ListNotations.

Set Warnings "-inexact-float".
Open Scope Z_scope.
Open Scope string_scope.

(* ================================================================== *)
(** ** Results of Python calls *)

Inductive exn : Type :=
| IndexError
| ZeroDivisionError
| LibraryError (msg : string).

Inductive result (A : Type) : Type :=
| Ok (a : A)
| Raise (e : exn).

Arguments Ok {A} a.
Arguments Raise {A} e.

Definition bind {A B : Type} (r : result A) (k : A -> result B) : result B :=
  match r with
  | Ok a => k a
  | Raise e => Raise e
  end.

Notation "x <- r ;; k" := (bind r (fun x => k))
  (at level 61, r at next level, right associativity).

(* ================================================================== *)
(** ** Numbers *)

(** The operations [removal.py] applies to its scores: conversion of an
    integer ([1], [4], a pixel count), the value of a decimal literal
    ([0.2], [0.4]), [+], [-], [/], [<] and [==]. *)
Class Number (T : Type) : Type := {
  of_int : Z -> T;
  of_decimal : Q -> T;
  nadd : T -> T -> T;
  nsub : T -> T -> T;
  ndiv : T -> T -> T;
  nltb : T -> T -> bool;
  neqb : T -> T -> bool
}.

(** [a > b] is [b < a], for Python floats as for fractions. *)
Definition ngtb {T : Type} `{Number T} (a b : T) : bool := nltb b a.

Declare Scope num_scope.
Delimit Scope num_scope with num.
Notation "a + b" := (nadd a b) : num_scope.
Notation "a - b" := (nsub a b) : num_scope.
Notation "a / b" := (ndiv a b) : num_scope.
Notation "a <? b" := (nltb a b) : num_scope.
Notation "a >? b" := (ngtb a b) : num_scope.
Notation "a =? b" := (neqb a b) : num_scope.

(** *** binary64 *)

(** Python's [float(n)]: the integer rounded to the nearest binary64 value,
    ties to even. *)
Definition float_of_Z (z : Z) : float :=
  SF2Prim (binary_normalize prec emax z 0 false).

(** A decimal literal denotes the binary64 value nearest to it; for the
    literals of the script ([0.2], [0.4]) that is the correctly rounded
    quotient of numerator and denominator. *)
Definition float_of_decimal (q : Q) : float :=
  PrimFloat.div (float_of_Z (Qnum q)) (float_of_Z (Zpos (Qden q))).

#[export] Instance float_Number : Number float := {
  of_int := float_of_Z;
  of_decimal := float_of_decimal;
  nadd := PrimFloat.add;
  nsub := PrimFloat.sub;
  ndiv := PrimFloat.div;
  nltb := PrimFloat.ltb;
  neqb := PrimFloat.eqb
}.

(** *** Exact rationals *)

Definition Qltb (a b : Q) : bool :=
  match Qcompare a b with
  | Lt => true
  | _ => false
  end.

#[export] Instance Q_Number : Number Q := {
  of_int := inject_Z;
  of_decimal := fun q => q;
  nadd := Qplus;
  nsub := Qminus;
  ndiv := Qdiv;
  nltb := Qltb;
  neqb := Qeq_bool
}.

(* ================================================================== *)
(** ** Images *)

(** One pixel: its channel values, [R; G; B] or [R; G; B; A]. *)
Definition pixel : Type := list Z.

(** A numpy array of shape (H, W, C): [img_channels] is [shape[2]],
    [img_rows] the H rows of W pixels each. *)
Record ndarray : Type := mkImage {
  img_channels : nat;
  img_rows : list (list pixel)
}.

(** [p[3]], the alpha value of an RGBA pixel. *)
Definition alpha (p : pixel) : Z := nth 3 p 0.

Definition pixel_at (img : ndarray) (i j : nat) : option pixel :=
  match nth_error (img_rows img) i with
  | Some row => nth_error row j
  | None => None
  end.

(** Every pixel carries exactly [img_channels] values, as in a numpy array. *)
Definition wf_image (img : ndarray) : bool :=
  forallb (forallb (fun p => Nat.eqb (List.length p) (img_channels img)))
          (img_rows img).

(** *** The compositor *)

Definition white : pixel := [255; 255; 255; 255].

(** [image[transparent_mask] = [255, 255, 255, 255]] on one pixel. *)
Definition whiten (p : pixel) : pixel :=
  if (alpha p =? 0)%Z then white else p.

(** [replace_with_white_background]: the array is updated in place and
    returned; the value below is the content of that one array after the
    call. *)
Definition replace_with_white_background (image : ndarray) : ndarray :=
  if Nat.eqb (img_channels image) 4 then
    mkImage (img_channels image) (map (map whiten) (img_rows image))
  else
    image.

(** Number of pixels whose alpha is exactly 0. *)
Definition count_transparent (img : ndarray) : nat :=
  List.length (filter (fun p => (alpha p =? 0)%Z) (List.concat (img_rows img))).

(** *** Foreground ratio *)

(** [output_img[:, :, 3]]: index 3 must exist on the channel axis. *)
Definition alpha_channel (img : ndarray) : result (list (list Z)) :=
  if Nat.ltb 3 (img_channels img) then
    Ok (map (map alpha) (img_rows img))
  else
    Raise IndexError.

Definition count_nonzero (a : list (list Z)) : Z :=
  Z.of_nat (List.length (filter (fun v => negb (v =? 0)%Z) (List.concat a))).

Definition array_size (a : list (list Z)) : Z :=
  Z.of_nat (List.length (List.concat a)).

(** [foreground_pixel_analysis]: a Python [int / int], as it is with a
    numpy before 2.3, whose [count_nonzero] returns a Python integer: it
    raises on an array without pixels.  (From numpy 2.3 on the count is a
    numpy integer and the quotient of an array without pixels is nan, with
    a warning; what is proved below of the ratio is about arrays that have
    pixels, where the two agree.  In binary64 the quotient of the two
    converted integers is Python's correctly rounded quotient for arrays
    of fewer than 2^53 pixels.) *)
Definition foreground_pixel_analysis {T : Type} `{Number T}
    (output_img : ndarray) : result T :=
  alpha_channel <- alpha_channel output_img ;;
  if (array_size alpha_channel =? 0)%Z then Raise ZeroDivisionError
  else Ok (of_int (count_nonzero alpha_channel)
           / of_int (array_size alpha_channel))%num.

(* ================================================================== *)
(** ** Collaborators *)

(** What the script calls and does not define the meaning of.
    - OpenCV: [cv2.imread] returns [None] on an unreadable file, the other
      calls raise.
    - [remove_background_u2net] and [remove_background_rembg]: the ONNX
      session with its pre- and postprocessing, and [rembg.remove].
    - [compare_images], [edge_similarity], [histogram_difference]: the
      three metrics, each a composition of OpenCV calls ([cvtColor],
      [Canny], [calcHist], [compareHist]) with scikit-image's
      [structural_similarity].
    - [np_mean]: numpy's [mean]; its result on a saliency map, a float32, is
      read as the binary64 of the same value.
    - [os_listdir]: the names in a directory, in the order the system
      gives them. *)
Record externals (T : Type) : Type := {
  cv2_imread_unchanged : string -> option ndarray;
  cv2_imread_color : string -> option ndarray;
  cv2_cvtColor_BGR2RGB : option ndarray -> result ndarray;
  computeSaliency : option ndarray -> result (list (list T));
  np_mean : list (list T) -> T;
  remove_background_u2net : string -> result ndarray;
  remove_background_rembg : string -> result ndarray;
  compare_images : ndarray -> ndarray -> result T;
  edge_similarity : ndarray -> ndarray -> result T;
  histogram_difference : ndarray -> ndarray -> result T;
  os_listdir : string -> result (list string)
}.

Arguments cv2_imread_unchanged {T} _ _.
Arguments cv2_imread_color {T} _ _.
Arguments cv2_cvtColor_BGR2RGB {T} _ _.
Arguments computeSaliency {T} _ _.
Arguments np_mean {T} _ _.
Arguments remove_background_u2net {T} _ _.
Arguments remove_background_rembg {T} _ _.
Arguments compare_images {T} _ _ _.
Arguments edge_similarity {T} _ _ _.
Arguments histogram_difference {T} _ _ _.
Arguments os_listdir {T} _ _.

(* ================================================================== *)
(** ** The saliency gate and the comparator *)

Section Decision.

Context {T : Type} `{Number T}.
Variable ext : externals T.

(** [needs_background_removal] *)
Definition needs_background_removal (img_path : string) : result bool :=
  let image := cv2_imread_color ext img_path in
  saliency_map <- computeSaliency ext image ;;
  let threshold := of_decimal 0.4%Q in
  let saliency_score := np_mean ext saliency_map in
  Ok (saliency_score <? threshold)%num.

(** The default of the parameter [min_foreground_threshold]. *)
Definition default_min_foreground_threshold : T := of_decimal 0.2%Q.

(** The two composite scores of [decide_best_method]. *)
Definition u2net_score
    (score_ssim score_foreground score_edge score_hist : T) : T :=
  ((score_ssim + score_foreground + score_edge + score_hist) / of_int 4)%num.

Definition rembg_score
    (score_ssim score_foreground score_edge score_hist : T) : T :=
  ((of_int 1 - score_ssim + (of_int 1 - score_foreground)
    + (of_int 1 - score_edge) + (of_int 1 - score_hist)) / of_int 4)%num.

(** [decide_best_method]; the two [print] calls are left out. *)
Definition decide_best_method
    (output_u2net output_rembg original_image : ndarray)
    (image_path : string) (min_foreground_threshold : T)
    : result (ndarray * string) :=
  score_ssim <- compare_images ext output_u2net output_rembg ;;
  score_foreground <- foreground_pixel_analysis output_u2net ;;
  score_edge <- edge_similarity ext output_u2net output_rembg ;;
  score_hist <- histogram_difference ext output_u2net output_rembg ;;
  gate <- needs_background_removal image_path ;;
  if gate && (score_foreground <? min_foreground_threshold)%num then
    Ok (original_image, "Original")
  else
    let u2net_score :=
      u2net_score score_ssim score_foreground score_edge score_hist in
    let rembg_score :=
      rembg_score score_ssim score_foreground score_edge score_hist in
    let best_output :=
      if (u2net_score >? rembg_score)%num then output_u2net else output_rembg in
    let best_method :=
      if (u2net_score >? rembg_score)%num then "U-2-Net" else "rembg" in
    Ok (best_output, best_method).

(** [process_image] *)
Definition process_image (image_path : string) : result ndarray :=
  let original_image := cv2_imread_unchanged ext image_path in
  original_image <- cv2_cvtColor_BGR2RGB ext original_image ;;
  output_u2net <- remove_background_u2net ext image_path ;;
  output_rembg <- remove_background_rembg ext image_path ;;
  decision <- decide_best_method output_u2net output_rembg original_image
                image_path default_min_foreground_threshold ;;
  let best_output := fst decision in
  let best_output_with_white_bg := replace_with_white_background best_output in
  Ok best_output_with_white_bg.

End Decision.

(* ================================================================== *)
(** ** File names *)

(** [str.lower] on the bytes of a name: only the ASCII capitals change. *)
Definition lower_ascii (c : ascii) : ascii :=
  let n := nat_of_ascii c in
  if Nat.leb 65 n && Nat.leb n 90 then ascii_of_nat (n + 32) else c.

Fixpoint lower (s : string) : string :=
  match s with
  | EmptyString => EmptyString
  | String c r => String (lower_ascii c) (lower r)
  end.

(** [s.endswith(suffix)] and its form with a tuple of suffixes. *)
Definition endswith (s suffix : string) : bool :=
  let n := String.length s in
  let k := String.length suffix in
  Nat.leb k n && String.eqb (substring (n - k) k s) suffix.

Definition endswith_any (s : string) (suffixes : list string) : bool :=
  existsb (endswith s) suffixes.

Definition startswith (s pre : string) : bool :=
  String.eqb (substring 0 (String.length pre) s) pre.

(** [os.path.join] of two components (posixpath). *)
Definition os_path_join (a b : string) : string :=
  if startswith b "/" then b
  else if String.eqb a "" || endswith a "/" then a ++ b
  else a ++ "/" ++ b.

(** [str.rfind] of one character: the last index holding it, or -1. *)
Fixpoint rfind_from (c : ascii) (s : string) (i last : Z) : Z :=
  match s with
  | EmptyString => last
  | String d r => rfind_from c r (i + 1) (if Ascii.eqb d c then i else last)
  end.

Definition rfind (c : ascii) (s : string) : Z := rfind_from c s 0 (-1).

(** The loop of [genericpath._splitext] that skips leading dots: is there
    a character other than the dot among the [n] characters of [p] from
    index [filenameIndex] on? *)
Fixpoint non_dot_before (p : string) (filenameIndex n : nat) : bool :=
  match n with
  | O => false
  | S n' =>
      match String.get filenameIndex p with
      | Some c =>
          if Ascii.eqb c "." then non_dot_before p (S filenameIndex) n'
          else true
      | None => true
      end
  end.

(** [os.path.splitext] (posixpath: separator [/], extension separator [.]). *)
Definition os_path_splitext (p : string) : string * string :=
  let sepIndex := rfind "/" p in
  let dotIndex := rfind "." p in
  if (sepIndex <? dotIndex)%Z
     && non_dot_before p (Z.to_nat (sepIndex + 1))
          (Z.to_nat (dotIndex - (sepIndex + 1)))
  then (substring 0 (Z.to_nat dotIndex) p,
        substring (Z.to_nat dotIndex) (String.length p - Z.to_nat dotIndex) p)
  else (p, "").

(* ================================================================== *)
(** ** The directory driver *)

(** The part of the file system the driver works on: its directories and
    its files, the latter in the order they were written. *)
Record world : Type := mkWorld {
  w_dirs : list string;
  w_files : list (string * ndarray)
}.

(** A statement of the driver: it runs in a world and leaves a world,
    returning or raising. *)
Definition stmt : Type := world -> result unit * world.

(** [os.path.exists]: true of a directory and of a file alike. *)
Definition os_path_exists (p : string) (w : world) : bool :=
  existsb (String.eqb p) (w_dirs w)
  || existsb (fun f => String.eqb p (fst f)) (w_files w).

(** The writing side of the file system, which the script calls and does
    not define.
    - [os_makedirs]: [os.makedirs(p)].  It makes the directory and every
      missing parent, or raises (a parent that is a regular file, a path it
      may not write) after having made some of them or none.
    - [save_png]: [Image.fromarray(a).save(p, "PNG")].  It writes the
      file, or raises (no such directory, a parent that is a regular file,
      an array PIL cannot encode) and leaves what it leaves.
    Each is a statement of its own: the world it leaves is its to say. *)
Record filesystem : Type := {
  os_makedirs : string -> stmt;
  save_png : string -> ndarray -> stmt
}.

(** The world after a save that succeeded: the file [p] now holds [a]. *)
Definition file_written (p : string) (a : ndarray) (w : world) : world :=
  mkWorld (w_dirs w) (w_files w ++ [(p, a)]).

(** The world after the saves of [files], one after the other. *)
Definition saved (w : world) (files : list (string * ndarray)) : world :=
  mkWorld (w_dirs w) (w_files w ++ files).

(** The content of a file of the world: what was written to it last. *)
Definition file_content (w : world) (p : string) : option ndarray :=
  match find (fun f => String.eqb p (fst f)) (rev (w_files w)) with
  | Some f => Some (snd f)
  | None => None
  end.

Definition seq_stmt (a b : stmt) : stmt :=
  fun w =>
    match a w with
    | (Ok _, w') => b w'
    | (Raise e, w') => (Raise e, w')
    end.

(** [for filename in names: body(filename)]: an exception leaves the loop. *)
Fixpoint for_each (names : list string) (body : string -> stmt) : stmt :=
  match names with
  | [] => fun w => (Ok tt, w)
  | filename :: rest => seq_stmt (body filename) (for_each rest body)
  end.

Definition image_extensions : list string := [".jpg"; ".jpeg"; ".png"].

Section Driver.

Context {T : Type} `{Number T}.
Variable fs : filesystem.
Variable ext : externals T.

(** [process_and_save] *)
Definition process_and_save (image_path output_path : string) : stmt :=
  fun w =>
    match process_image ext image_path with
    | Ok processed_image => save_png fs output_path processed_image w
    | Raise e => (Raise e, w)
    end.

(** The body of the loop of [process_directory]. *)
Definition process_entry (input_dir output_dir filename : string) : stmt :=
  if endswith_any (lower filename) image_extensions then
    let input_path := os_path_join input_dir filename in
    let output_path :=
      os_path_join output_dir (fst (os_path_splitext filename) ++ ".png") in
    process_and_save input_path output_path
  else
    fun w => (Ok tt, w).

(** [process_directory] *)
Definition process_directory (input_dir output_dir : string) : stmt :=
  seq_stmt
    (fun w => if negb (os_path_exists output_dir w)
              then os_makedirs fs output_dir w else (Ok tt, w))
    (fun w =>
       match os_listdir ext input_dir with
       | Ok names => for_each names (process_entry input_dir output_dir) w
       | Raise e => (Raise e, w)
       end).

End Driver.

(* ================================================================== *)
(** ** Methods and their labels *)

(** The three sources a decision can name. *)
Inductive method : Type := U2Net | Rembg | Original.

(** The string [decide_best_method] returns for each of them. *)
Definition method_label (m : method) : string :=
  match m with
  | U2Net => "U-2-Net"
  | Rembg => "rembg"
  | Original => "Original"
  end.

(** The array returned for each of them. *)
Definition candidate (output_u2net output_rembg original_image : ndarray)
    (m : method) : ndarray :=
  match m with
  | U2Net => output_u2net
  | Rembg => output_rembg
  | Original => original_image
  end.

(** ** Laws of the comparison operators *)

(** What the tie-break of the comparator needs of [==] and [>]: equal
    numbers are not greater than one another. *)
Class NumberOrder (T : Type) `{Number T} : Prop := {
  neqb_not_ngtb : forall a b : T, (a =? b)%num = true -> (a >? b)%num = false
}.

(** The files the loop of the driver saves for a list of names when the
    image of each name is processed to [processed name]: one per name with
    an image extension, in the order of the list. *)
Definition written_files (output_dir : string)
    (processed : string -> ndarray) (names : list string)
    : list (string * ndarray) :=
  map (fun filename =>
         (os_path_join output_dir
            (fst (os_path_splitext filename) ++ ".png"),
          processed filename))
      (filter (fun filename =>
                 endswith_any (lower filename) image_extensions) names).

(** The world the first statement of [process_directory] leaves when it
    returns: the one it found if something exists at the path of the
    output directory, the one [os.makedirs] made of it otherwise. *)
Definition prepared (fs : filesystem) (output_dir : string) (w : world)
    : world :=
  if os_path_exists output_dir w then w
  else snd (os_makedirs fs output_dir w).

(** ** Shapes of file names *)

(** Does the character occur in the name? *)
Fixpoint contains (c : ascii) (s : string) : bool :=
  match s with
  | EmptyString => false
  | String d r => Ascii.eqb d c || contains c r
  end.

(** Is the name made of dots only? *)
Fixpoint all_dots (s : string) : bool :=
  match s with
  | EmptyString => true
  | String d r => Ascii.eqb d "." && all_dots r
  end.

(** ** Constants of binary64 *)

(** The mantissa of the powers of two: 2^52. *)
Definition two52 : positive := 4503599627370496.

(** The specification floats 1, 4 and +0. *)
Abbreviation sf_one := (S754_finite false two52 (-52)).
Abbreviation sf_four := (S754_finite false two52 (-50)).
Abbreviation sf_zero := (S754_zero false).

(* ================================================================== *)
(** ** The network candidate *)

(** The functions of the script around the ONNX session: [preprocess],
    [postprocess] and [remove_background_u2net], which the comparator
    above takes as a collaborator.  They live in a module of their own,
    [Segmentation], since the record [externals] already has a field of
    the name [remove_background_u2net]. *)

(** [a[i][j]] of a two-dimensional array. *)
Definition at2 {A : Type} (a : list (list A)) (i j : nat) : option A :=
  match nth_error a i with
  | Some row => nth_error row j
  | None => None
  end.

(** Elementwise application of a binary operation. *)
Definition zip_with {A B C : Type} (f : A -> B -> C)
    (l : list A) (m : list B) : list C :=
  map (fun ab => f (fst ab) (snd ab)) (combine l m).

Module Segmentation.

(** *** float32 *)

(** The tensors of the network are numpy arrays of dtype float32: IEEE
    binary32 values, here the specification floats of precision 24. *)
Definition float32 : Type := spec_float.

Definition prec32 : Z := 24.
Definition emax32 : Z := 128.

(** [astype(np.float32)] of an integer. *)
Definition float32_of_Z (z : Z) : float32 :=
  binary_normalize prec32 emax32 z 0 false.

Definition float32_div (a b : float32) : float32 := SFdiv prec32 emax32 a b.

(** The float32 values 0.5 and 1.0. *)
Definition float32_half : float32 := S754_finite false 8388608 (-24).
Definition float32_one : float32 := S754_finite false 8388608 (-23).

(** A tensor of shape (N, C, H, W). *)
Definition tensor : Type := list (list (list (list float32))).

Definition tensor_at (t : tensor) (n c y x : nat) : option float32 :=
  match nth_error t n with
  | Some planes =>
      match nth_error planes c with
      | Some plane => at2 plane y x
      | None => None
      end
  | None => None
  end.

(** *** Collaborators *)

(** What [cv2.imread(image_path, cv2.IMREAD_UNCHANGED)] returns: [None],
    an array of dtype uint8 and shape (H, W, C), or another array (two
    dimensions for a grayscale file, another dtype for a deeper one). *)
Inductive decoded (other : Type) : Type :=
| NoImage
| Uint8Image (a : ndarray)
| OtherImage (x : other).

Arguments NoImage {other}.
Arguments Uint8Image {other} a.
Arguments OtherImage {other} x.

(** The libraries around the session.
    - [PIL_open_RGB]: [Image.open(p).convert("RGB")], an image of three
      channels, here the array [np.array] gives for it; [PIL_resize]:
      [Image.resize].
    - [session_run]: [session.run([output_name], {input_name: x})[0]], an
      array of a shape the model file fixes; [np_squeeze] and [cv2_resize]
      act on it, the latter returning the map of two dimensions it gives
      for the squeezed output of this model.
    - [mask_other]: what the five array operations that end
      [remove_background_u2net] do with an image that has not the type and
      the size of the mask, where [cv2.bitwise_and] raises or takes one
      operand for a scalar. *)
Record collaborators (array other : Type) : Type := {
  PIL_open_RGB : string -> result ndarray;
  PIL_resize : ndarray -> nat * nat -> result ndarray;
  cv2_imread : string -> decoded other;
  session_run : tensor -> result array;
  np_squeeze : array -> array;
  cv2_resize : array -> nat * nat -> result (list (list float32));
  mask_other : decoded other -> list (list Z) -> result ndarray
}.

Arguments PIL_open_RGB {array other} _ _.
Arguments PIL_resize {array other} _ _ _.
Arguments cv2_imread {array other} _ _.
Arguments session_run {array other} _ _.
Arguments np_squeeze {array other} _ _.
Arguments cv2_resize {array other} _ _ _.
Arguments mask_other {array other} _ _ _.

(** *** Array operations *)

(** [image.size] of a PIL image: (width, height). *)
Definition image_size (image : ndarray) : nat * nat :=
  (List.length (hd [] (img_rows image)), List.length (img_rows image)).

(** One value of [np.array(image).astype(np.float32) / 255.0]; the
    division is that of float32. *)
Definition normalize (v : Z) : float32 :=
  float32_div (float32_of_Z v) (float32_of_Z 255).

(** [np.transpose(a, (2, 0, 1))] of an array of shape (H, W, C). *)
Definition np_transpose_2_0_1 (channels : nat)
    (a : list (list (list float32))) : list (list (list float32)) :=
  map (fun c => map (map (fun p => nth c p (S754_zero false))) a)
      (seq 0 channels).

(** One value of [(mask > 0.5).astype(np.uint8) * 255]. *)
Definition binary_mask_value (v : float32) : Z :=
  ((if SFltb float32_half v then 1 else 0) * 255) mod 256.

(** [cv2.cvtColor(mask, cv2.COLOR_GRAY2BGR)] *)
Definition cv2_cvtColor_GRAY2BGR (mask : list (list Z)) : ndarray :=
  mkImage 3 (map (map (fun v => [v; v; v])) mask).

(** [cv2.bitwise_and] of two uint8 arrays of one size and one channel
    count. *)
Definition cv2_bitwise_and (src1 src2 : ndarray) : ndarray :=
  mkImage (img_channels src1)
    (zip_with (zip_with (zip_with Z.land)) (img_rows src1) (img_rows src2)).

(** [cv2.cvtColor(src, cv2.COLOR_BGR2BGRA)] of a uint8 array of three
    channels: the alpha added is 255. *)
Definition cv2_cvtColor_BGR2BGRA (src : ndarray) : ndarray :=
  mkImage 4 (map (map (fun p => (p ++ [255])%list)) (img_rows src)).

(** [a[:, :, k]] *)
Definition channel (k : nat) (a : ndarray) : list (list Z) :=
  map (map (fun p => nth k p 0)) (img_rows a).

(** [a[:, :, 3] = values], for [values] of the height and width of [a]. *)
Definition set_channel_3 (a : ndarray) (values : list (list Z)) : ndarray :=
  mkImage (img_channels a)
    (zip_with
       (zip_with (fun p v => (firstn 3 p ++ v :: skipn 4 p)%list))
       (img_rows a) values).

(** [cv2.cvtColor(src, cv2.COLOR_BGRA2RGBA)] *)
Definition cv2_cvtColor_BGRA2RGBA (src : ndarray) : ndarray :=
  mkImage 4
    (map (map (fun p => [nth 2 p 0; nth 1 p 0; nth 0 p 0; nth 3 p 0]))
         (img_rows src)).

(** Has the image the height and the width of the mask? *)
Definition same_size (image : ndarray) (mask : list (list Z)) : bool :=
  Nat.eqb (List.length (img_rows image)) (List.length mask)
  && forallb (fun rm => Nat.eqb (List.length (fst rm)) (List.length (snd rm)))
       (combine (img_rows image) mask).

(** The operands [cv2.bitwise_and] takes as two arrays of one size and
    one type: the image has three channels and the size of the mask
    (OpenCV has no empty image). *)
Definition same_size_and_type (image : ndarray) (mask : list (list Z))
    : bool :=
  Nat.eqb (img_channels image) 3
  && same_size image mask
  && negb (array_size mask =? 0)%Z.

(** The five array operations that end [remove_background_u2net], on an
    image and a mask that [cv2.bitwise_and] takes: the mask is spread over
    three channels, the image is cut by it, given an alpha channel, which
    is then set to the mask, and put in the channel order RGBA. *)
Definition cut_out (image : ndarray) (mask : list (list Z)) : ndarray :=
  let mask := cv2_cvtColor_GRAY2BGR mask in
  let result := cv2_bitwise_and image mask in
  let result_rgba := cv2_cvtColor_BGR2BGRA result in
  let result_rgba := set_channel_3 result_rgba (channel 0 mask) in
  let result_rgb := cv2_cvtColor_BGRA2RGBA result_rgba in
  result_rgb.

Section Script.

Context {array other : Type}.
Variable c : collaborators array other.

(** [preprocess] *)
Definition preprocess (image_path : string) : result (tensor * (nat * nat)) :=
  image <- PIL_open_RGB c image_path ;;
  let orig_size := image_size image in
  image <- PIL_resize c image (320, 320)%nat ;;
  let channels := img_channels image in
  let image := map (map (map normalize)) (img_rows image) in
  let image := np_transpose_2_0_1 channels image in
  let image := [image] in
  Ok (image, orig_size).

(** [postprocess] *)
Definition postprocess (output : array) (orig_size : nat * nat)
    : result (list (list Z)) :=
  let mask := np_squeeze c output in
  mask <- cv2_resize c mask orig_size ;;
  let mask := map (map binary_mask_value) mask in
  Ok mask.

(** [remove_background_u2net].  [image.shape] of [None] raises an
    [AttributeError] before anything else is done; the names of the input
    and of the output of the session are part of [session_run]. *)
Definition remove_background_u2net (image_path : string) : result ndarray :=
  match cv2_imread c image_path with
  | NoImage => Raise (LibraryError "AttributeError")
  | image =>
      pre <- preprocess image_path ;;
      let preprocessed_img := fst pre in
      let orig_size := snd pre in
      output <- session_run c preprocessed_img ;;
      mask <- postprocess output orig_size ;;
      match image with
      | Uint8Image a =>
          if same_size_and_type a mask then Ok (cut_out a mask)
          else
            mask_other c image mask
      | _ => mask_other c image mask
      end
  end.

End Script.

End Segmentation.

(** The collaborators of the comparator with the script's own
    [remove_background_u2net] in its place. *)
Definition with_segmentation {T array other : Type} (ext : externals T)
    (c : Segmentation.collaborators array other) : externals T := {|
  cv2_imread_unchanged := cv2_imread_unchanged ext;
  cv2_imread_color := cv2_imread_color ext;
  cv2_cvtColor_BGR2RGB := cv2_cvtColor_BGR2RGB ext;
  computeSaliency := computeSaliency ext;
  np_mean := np_mean ext;
  remove_background_u2net := Segmentation.remove_background_u2net c;
  remove_background_rembg := remove_background_rembg ext;
  compare_images := compare_images ext;
  edge_similarity := edge_similarity ext;
  histogram_difference := histogram_difference ext;
  os_listdir := os_listdir ext
|}.

(** A byte. *)
Definition is_uint8 (v : Z) : bool := (0 <=? v)%Z && (v <=? 255)%Z.

(** The mantissa of the binary64 value of the literal [0.2], which is
    [fifth_mantissa] * 2^(-55); five times it is 2^55 + 2. *)
Definition fifth_mantissa : positive := 7205759403792794.

(** *** Values of binary64 numbers *)

(** Where what a right shift drops lies: [r] of [M] is nothing, less than
    half, half, or more than half. *)
Definition located (loc : location) (M r : Z) : Prop :=
  match loc with
  | loc_Exact => r = 0
  | loc_Inexact Lt => 0 < r /\ 2 * r < M
  | loc_Inexact Eq => 2 * r = M
  | loc_Inexact Gt => M < 2 * r
  end.

(** The value of a finite float in units of 2^-1074, the smallest positive
    binary64 number; 0 for an infinity and for a NaN. *)
Definition SFunits (x : spec_float) : Z :=
  match x with
  | S754_finite s m e => cond_Zopp s (Zpos m * 2 ^ (e + 1074))
  | _ => 0
  end.

(** Is the float a number, and not an infinity? *)
Definition SFfinite (x : spec_float) : bool :=
  match x with
  | S754_zero _ | S754_finite _ _ _ => true
  | _ => false
  end.

(** The rational number a finite binary64 value stands for. *)
Definition float_value (x : float) : Q :=
  SFunits (Prim2SF x) # (2 ^ 1074).

(* ================================================================== *)
(** ** Concrete inputs *)

(** Arrays and collaborators on which the functions above are run in the
    examples below. *)

Definition opaque_pixel : pixel := [10; 20; 30; 255].
Definition clear_pixel : pixel := [10; 20; 30; 0].
Definition faint_pixel : pixel := [10; 20; 30; 1].

(** A one-row RGBA array: [k] opaque pixels followed by [n] fully
    transparent ones. *)
Definition rgba_row (k n : nat) : ndarray :=
  mkImage 4 [(repeat opaque_pixel k ++ repeat clear_pixel n)%list].

(** A one-row RGB array of [n] pixels. *)
Definition rgb_row (n : nat) : ndarray :=
  mkImage 3 [repeat [10; 20; 30] n].

(** Collaborators that answer with fixed values: every file decodes to
    [original], the removers are given per path, the three metrics and the
    mean saliency are constants, and every directory lists [names]. *)
Definition fixed_externals {T : Type} `{Number T}
    (original : ndarray) (u2net rembg : string -> result ndarray)
    (ssim edge hist saliency : T) (names : list string) : externals T := {|
  cv2_imread_unchanged := fun _ => Some original;
  cv2_imread_color := fun _ => Some original;
  cv2_cvtColor_BGR2RGB := fun o =>
    match o with
    | Some a => Ok a
    | None => Raise (LibraryError "cv2.error")
    end;
  computeSaliency := fun o =>
    match o with
    | Some _ => Ok [[saliency]]
    | None => Raise (LibraryError "cv2.error")
    end;
  np_mean := fun m =>
    match m with
    | [[x]] => x
    | _ => of_int 0
    end;
  remove_background_u2net := u2net;
  remove_background_rembg := rembg;
  compare_images := fun _ _ => Ok ssim;
  edge_similarity := fun _ _ => Ok edge;
  histogram_difference := fun _ _ => Ok hist;
  os_listdir := fun _ => Ok names
|}.

(** A scene of low saliency in which the network keeps one pixel in ten. *)
Definition sparse_scene : externals float :=
  fixed_externals (rgb_row 10)
    (fun _ => Ok (rgba_row 1 9)) (fun _ => Ok (rgba_row 6 4))
    0.9%float 0.8%float 0.7%float 0.3%float ["photo.JPG"].

(** A scene of high saliency in which the network keeps two pixels in five. *)
Definition salient_scene : externals float :=
  fixed_externals (rgb_row 5)
    (fun _ => Ok (rgba_row 2 3)) (fun _ => Ok (rgba_row 3 2))
    0.3%float 0.5%float 0.8%float 0.6%float ["photo.JPG"].

(** Both removers return the same array, half of it foreground; the three
    similarity metrics are 1. *)
Definition identical_scene : externals float :=
  fixed_externals (rgb_row 2)
    (fun _ => Ok (rgba_row 1 1)) (fun _ => Ok (rgba_row 1 1))
    1%float 1%float 1%float 0.3%float ["photo.JPG"].

(** A scene of high saliency in which the candidates differ: the three
    similarity metrics are 0.1, 0.2 and 0.3. *)
Definition dissimilar_scene : externals float :=
  fixed_externals (rgb_row 5)
    (fun _ => Ok (rgba_row 2 3)) (fun _ => Ok (rgba_row 3 2))
    0.1%float 0.2%float 0.3%float 0.6%float ["photo.JPG"].

(** The scene of identical candidates in exact arithmetic. *)
Definition identical_scene_exact : externals Q :=
  fixed_externals (rgb_row 2)
    (fun _ => Ok (rgba_row 1 1)) (fun _ => Ok (rgba_row 1 1))
    1%Q 1%Q 1%Q 0.3%Q ["photo.JPG"].


(** A directory of three images and one other file, all readable. *)
Definition mixed_directory : externals float :=
  fixed_externals (rgb_row 5)
    (fun _ => Ok (rgba_row 2 3)) (fun _ => Ok (rgba_row 3 2))
    0.3%float 0.5%float 0.8%float 0.6%float
    ["a.JPG"; "notes.txt"; "b.jpeg"; "c.png"].

Definition empty_world : world := mkWorld [] [].

(** The parents of a path: its proper prefixes that end before a
    slash. *)
Fixpoint parents_from (pre rest : string) : list string :=
  match rest with
  | EmptyString => []
  | String c rest' =>
      ((if Ascii.eqb c "/" && negb (String.eqb pre "") then [pre] else [])
       ++ parents_from (pre ++ String c "") rest')%list
  end.

Definition parents (p : string) : list string := parents_from "" p.

Definition is_dir (p : string) (w : world) : bool :=
  existsb (String.eqb p) (w_dirs w).

(** Is the path under a regular file of the world? *)
Definition under_a_file (p : string) (w : world) : bool :=
  existsb (fun f => startswith p (fst f ++ "/")) (w_files w).

(** A file system that does what it is asked when it can.  [os.makedirs]
    makes the directory and its missing parents; it raises under a regular
    file and on a path that exists.  A save writes the file; it raises
    under a regular file, on a directory, and where the directory of the
    file is missing. *)
Definition plain_filesystem : filesystem := {|
  os_makedirs := fun p w =>
    if under_a_file p w then (Raise (LibraryError "NotADirectoryError"), w)
    else if os_path_exists p w then
      (Raise (LibraryError "FileExistsError"), w)
    else
      (Ok tt,
       mkWorld (rev (filter (fun d => negb (is_dir d w)) (parents p ++ [p]))
                ++ w_dirs w)
               (w_files w));
  save_png := fun p a w =>
    if under_a_file p w then (Raise (LibraryError "NotADirectoryError"), w)
    else if is_dir p w then (Raise (LibraryError "IsADirectoryError"), w)
    else if forallb (fun d => is_dir d w) (parents p) then
      (Ok tt, file_written p a w)
    else (Raise (LibraryError "FileNotFoundError"), w)
|}.

(** A world in which a regular file has the name of the output
    directory. *)
Definition blocked_world : world := mkWorld [] [("out", rgb_row 1)].

(** What the salient scene is processed to: the network output on white. *)
Definition salient_on_white : ndarray :=
  mkImage 4 [[opaque_pixel; opaque_pixel; white; white; white]].

(** A directory without images. *)
Definition no_images : externals float :=
  fixed_externals (rgb_row 5)
    (fun _ => Ok (rgba_row 2 3)) (fun _ => Ok (rgba_row 3 2))
    0.3%float 0.5%float 0.8%float 0.6%float ["notes.txt"; "png"; "a.gif"].

(** Collaborators whose structural-similarity metric raises. *)
Definition failing_metric : externals float := {|
  cv2_imread_unchanged := cv2_imread_unchanged sparse_scene;
  cv2_imread_color := cv2_imread_color sparse_scene;
  cv2_cvtColor_BGR2RGB := cv2_cvtColor_BGR2RGB sparse_scene;
  computeSaliency := computeSaliency sparse_scene;
  np_mean := np_mean sparse_scene;
  remove_background_u2net := remove_background_u2net sparse_scene;
  remove_background_rembg := remove_background_rembg sparse_scene;
  compare_images := fun _ _ => Raise (LibraryError "ValueError");
  edge_similarity := edge_similarity sparse_scene;
  histogram_difference := histogram_difference sparse_scene;
  os_listdir := os_listdir sparse_scene
|}.

(** A scene whose structural-similarity metric is not a number. *)
Definition nan_metric_scene : externals float :=
  fixed_externals (rgb_row 5)
    (fun _ => Ok (rgba_row 2 3)) (fun _ => Ok (rgba_row 3 2))
    nan 1%float 1%float 0.6%float ["photo.JPG"].

(** A scene whose mean saliency is not a number and in which the network
    keeps one pixel in ten. *)
Definition nan_saliency_scene : externals float :=
  fixed_externals (rgb_row 10)
    (fun _ => Ok (rgba_row 1 9)) (fun _ => Ok (rgba_row 6 4))
    0.9%float 0.8%float 0.7%float nan ["photo.JPG"].

(** Two names of one stem; the network keeps two pixels in five of the
    first file and four in five of the second. *)
Definition same_stem_directory : externals float :=
  fixed_externals (rgb_row 5)
    (fun p => if String.eqb p "in/a.jpg"
              then Ok (rgba_row 2 3) else Ok (rgba_row 4 1))
    (fun _ => Ok (rgba_row 3 2))
    0.3%float 0.5%float 0.8%float 0.6%float ["a.jpg"; "a.png"].

(** What the second file is processed to. *)
Definition mostly_kept_on_white : ndarray :=
  mkImage 4 [[opaque_pixel; opaque_pixel; opaque_pixel; opaque_pixel; white]].

(** A directory holding a file whose name is an extension and nothing
    else. *)
Definition hidden_file_directory : externals float :=
  fixed_externals (rgb_row 5)
    (fun _ => Ok (rgba_row 2 3)) (fun _ => Ok (rgba_row 3 2))
    0.3%float 0.5%float 0.8%float 0.6%float [".png"].

(** Collaborators that cannot list the input directory. *)
Definition missing_input_directory : externals float := {|
  cv2_imread_unchanged := cv2_imread_unchanged sparse_scene;
  cv2_imread_color := cv2_imread_color sparse_scene;
  cv2_cvtColor_BGR2RGB := cv2_cvtColor_BGR2RGB sparse_scene;
  computeSaliency := computeSaliency sparse_scene;
  np_mean := np_mean sparse_scene;
  remove_background_u2net := remove_background_u2net sparse_scene;
  remove_background_rembg := remove_background_rembg sparse_scene;
  compare_images := compare_images sparse_scene;
  edge_similarity := edge_similarity sparse_scene;
  histogram_difference := histogram_difference sparse_scene;
  os_listdir := fun _ => Raise (LibraryError "FileNotFoundError")
|}.

(** *** A session of two pixels *)

(** A photo of one row and two pixels, in the channel order of OpenCV. *)
Definition two_pixel_photo : ndarray :=
  mkImage 3 [[[10; 20; 30]; [40; 50; 60]]].

(** The float32 values 0.9 and 0.1. *)
Definition two_pixel_output : list (list Segmentation.float32) :=
  [[Segmentation.float32_div (Segmentation.float32_of_Z 9)
      (Segmentation.float32_of_Z 10);
    Segmentation.float32_div (Segmentation.float32_of_Z 1)
      (Segmentation.float32_of_Z 10)]].

(** Libraries around a session that finds the first pixel of the photo
    to be foreground (0.9) and the second not (0.1); no resizing changes
    anything, and [cv2.bitwise_and] raises on operands of different
    types. *)
Definition two_pixel_session
    : Segmentation.collaborators (list (list Segmentation.float32)) unit := {|
  Segmentation.PIL_open_RGB := fun _ =>
    Ok (mkImage 3 [[[30; 20; 10]; [60; 50; 40]]]);
  Segmentation.PIL_resize := fun image _ => Ok image;
  Segmentation.cv2_imread := fun _ => Segmentation.Uint8Image two_pixel_photo;
  Segmentation.session_run := fun _ => Ok two_pixel_output;
  Segmentation.np_squeeze := fun output => output;
  Segmentation.cv2_resize := fun mask _ => Ok mask;
  Segmentation.mask_other := fun _ _ => Raise (LibraryError "cv2.error")
|}.

(** What the session makes of the photo: the first pixel in RGB order
    and opaque, the second black and transparent. *)
Definition two_pixel_cutout : ndarray :=
  mkImage 4 [[[30; 20; 10; 255]; [0; 0; 0; 0]]].

(** A scene of high saliency around that session. *)
Definition two_pixel_scene : externals float :=
  with_segmentation
    (fixed_externals (mkImage 3 [[[30; 20; 10]; [60; 50; 40]]])
       (fun _ => Raise (LibraryError "unused"))
       (fun _ => Ok (rgba_row 1 1))
       0.3%float 0.5%float 0.8%float 0.6%float ["photo.JPG"])
    two_pixel_session.

(** A scene of low saliency in which the network keeps exactly one pixel
    in five. *)
Definition one_fifth_scene : externals float :=
  fixed_externals (rgb_row 5)
    (fun _ => Ok (rgba_row 1 4)) (fun _ => Ok (rgba_row 3 2))
    0.9%float 0.8%float 0.7%float 0.3%float ["photo.JPG"].

(* ================================================================== *)
(** * Properties *)

(** ** The compositor *)

Lemma whiten_cases (p : pixel) :
  (alpha p = 0 /\ whiten p = white) \/ (alpha p <> 0 /\ whiten p = p).
Proof.
  unfold whiten. destruct (Z.eqb_spec (alpha p) 0); [left | right]; auto.
Qed.

Lemma whiten_opaque (p : pixel) : (alpha (whiten p) =? 0)%Z = false.
Proof.
  destruct (whiten_cases p) as [[_ ->] | [Hp ->]].
  - reflexivity.
  - now apply Z.eqb_neq.
Qed.

Lemma whiten_idempotent (p : pixel) : whiten (whiten p) = whiten p.
Proof.
  unfold whiten at 1. now rewrite whiten_opaque.
Qed.

Lemma filter_transparent_whiten (l : list pixel) :
  filter (fun p => (alpha p =? 0)%Z) (map whiten l) = [].
Proof.
  induction l as [| p l IH]; simpl; [reflexivity |].
  now rewrite whiten_opaque.
Qed.

Lemma count_transparent_whitened (c : nat) (rows : list (list pixel)) :
  count_transparent (mkImage c (map (map whiten) rows)) = 0%nat.
Proof.
  unfold count_transparent; simpl.
  rewrite <- concat_map, filter_transparent_whiten. reflexivity.
Qed.

Lemma pixel_at_whitened (c : nat) (rows : list (list pixel)) (i j : nat) :
  pixel_at (mkImage c (map (map whiten) rows)) i j =
  option_map whiten (pixel_at (mkImage c rows) i j).
Proof.
  unfold pixel_at; simpl. rewrite nth_error_map.
  destruct (nth_error rows i) as [row |]; simpl; [| reflexivity].
  apply nth_error_map.
Qed.

(** C5.  On an array with four channels [replace_with_white_background]
    keeps the shape, turns every pixel whose alpha is exactly 0 into
    (255, 255, 255, 255) and leaves every other pixel, partially transparent
    ones included, as it was, so no fully transparent pixel remains; an
    array whose channel count is not 4 is returned unchanged. *)
Theorem replace_with_white_background_pixels :
  forall image : ndarray,
    (img_channels image = 4%nat ->
       img_channels (replace_with_white_background image) = 4%nat
       /\ (forall i j : nat,
             pixel_at (replace_with_white_background image) i j =
             match pixel_at image i j with
             | Some p =>
                 Some (if (nth 3 p 0 =? 0)%Z then [255; 255; 255; 255] else p)
             | None => None
             end)
       /\ count_transparent (replace_with_white_background image) = 0%nat)
    /\ (img_channels image <> 4%nat ->
          replace_with_white_background image = image).
Proof.
  intros [c rows]; unfold replace_with_white_background; simpl.
  split.
  - intros ->; simpl. split; [reflexivity |]. split.
    + intros i j. rewrite pixel_at_whitened.
      destruct (pixel_at _ i j); reflexivity.
    + apply count_transparent_whitened.
  - intros Hc. apply Nat.eqb_neq in Hc. now rewrite Hc.
Qed.

(** C6.  [replace_with_white_background] is idempotent. *)
Theorem replace_with_white_background_idempotent :
  forall image : ndarray,
    replace_with_white_background (replace_with_white_background image) =
    replace_with_white_background image.
Proof.
  intros [c rows]; unfold replace_with_white_background; simpl.
  destruct (Nat.eqb c 4) eqn:Hc; simpl; rewrite Hc; [| reflexivity].
  f_equal. rewrite map_map. apply map_ext; intros row.
  rewrite map_map. apply map_ext, whiten_idempotent.
Qed.

(** One opaque, one fully transparent and one barely visible pixel: only
    the second changes. *)
Example replace_with_white_background_example :
  replace_with_white_background
    (mkImage 4 [[opaque_pixel; clear_pixel; faint_pixel]])
  = mkImage 4 [[opaque_pixel; [255; 255; 255; 255]; faint_pixel]]
  /\ replace_with_white_background (rgb_row 2) = rgb_row 2.
Proof. split; reflexivity. Qed.

(* ================================================================== *)
(** ** Comparison laws of the two arithmetics *)

Lemma SFcompare_Eq_sym (a b : spec_float) :
  SFcompare a b = Some Eq -> SFcompare b a = Some Eq.
Proof.
  destruct a as [sa | sa | | sa ma ea], b as [sb | sb | | sb mb eb];
    simpl; try discriminate; try reflexivity;
    try (destruct sa; discriminate); try (destruct sb; discriminate).
  - destruct sa, sb; intros E; try discriminate; reflexivity.
  - assert (Hm : forall c, Pos.compare_cont Eq ma mb = c -> c = Eq ->
                          Pos.compare_cont Eq mb ma = Eq).
    { intros c Hc ->. apply Pos.compare_eq in Hc. subst.
      apply Pos.compare_refl. }
    destruct sa, sb; try discriminate;
      (destruct (Z.compare_spec ea eb) as [-> | _ | _]; try discriminate);
      intros E; rewrite Z.compare_refl;
      rewrite (Hm _ eq_refl); try reflexivity;
      destruct (Pos.compare_cont Eq ma mb); simpl in E; congruence.
Qed.

#[export] Instance float_NumberOrder : NumberOrder float.
Proof.
  constructor. intros a b. unfold ngtb; simpl.
  rewrite eqb_spec, ltb_spec. unfold SFeqb, SFltb.
  destruct (SFcompare (Prim2SF a) (Prim2SF b)) as [[| |] |] eqn:E;
    try discriminate.
  intros _. now rewrite (SFcompare_Eq_sym _ _ E).
Qed.

Lemma Qltb_lt (a b : Q) : Qltb a b = true <-> (a < b)%Q.
Proof.
  unfold Qltb. destruct (Qcompare_spec a b) as [E | L | G].
  - split; [discriminate |].
    intros L. rewrite E in L. now apply Qlt_irrefl in L.
  - split; [intros _; exact L | reflexivity].
  - split; [discriminate |].
    intros L. exfalso. apply (Qlt_irrefl a). now apply Qlt_trans with b.
Qed.

Lemma Qltb_ge (a b : Q) : Qltb a b = false <-> (b <= a)%Q.
Proof.
  unfold Qltb. destruct (Qcompare_spec a b) as [E | L | G].
  - split; [intros _; rewrite E; apply Qle_refl | reflexivity].
  - split; [discriminate |].
    intros Hle. exfalso. exact (Qlt_not_le _ _ L Hle).
  - split; [intros _; now apply Qlt_le_weak | reflexivity].
Qed.

#[export] Instance Q_NumberOrder : NumberOrder Q.
Proof.
  constructor. intros a b. unfold ngtb; simpl. intros E.
  apply Qeq_bool_eq in E. apply Qltb_ge. rewrite E. apply Qle_refl.
Qed.

(* ================================================================== *)
(** ** Rounding in binary64, binade by binade *)

(** The specification of the primitive floats rounds an exact mantissa
    by shifting it right and adjusting the last digit.  What the comparator
    needs of it is the exponent of the result: a value in the binade
    [2^(k-1), 2^k) is rounded to a float of that binade or to 2^k. *)

Close Scope string_scope.

Ltac div_lia := Z.to_euclidean_division_equations; lia.

(** *** Digits *)

Lemma digits2_pos_size (p : positive) : digits2_pos p = Pos.size p.
Proof. induction p as [p IH | p IH |]; simpl; now rewrite ?IH. Qed.

Lemma digits_bounds (p : positive) :
  2 ^ (Zpos (digits2_pos p) - 1) <= Zpos p < 2 ^ Zpos (digits2_pos p).
Proof.
  rewrite digits2_pos_size. split.
  - pose proof (Pos.size_le p) as H.
    apply Pos2Z.pos_le_pos in H. rewrite Pos2Z.inj_pow in H.
    assert (E : 2 ^ Zpos (Pos.size p) = 2 * 2 ^ (Zpos (Pos.size p) - 1)).
    { rewrite <- Z.pow_succ_r by lia. f_equal. lia. }
    rewrite E in H. lia.
  - pose proof (Pos.size_gt p) as H.
    apply Pos2Z.pos_lt_pos in H. now rewrite Pos2Z.inj_pow in H.
Qed.

Lemma digits_unique (p : positive) (d : Z) :
  2 ^ (d - 1) <= Zpos p < 2 ^ d -> Zpos (digits2_pos p) = d.
Proof.
  intros [Hlo Hhi]. pose proof (digits_bounds p) as [Dlo Dhi].
  set (D := Zpos (digits2_pos p)) in *.
  assert (HD : 0 < D) by (unfold D; lia).
  assert (Hd : 0 < d).
  { destruct (Z_lt_le_dec 0 d) as [|Hneg]; [assumption |].
    assert (2 ^ d <= 1).
    { destruct (Z.eq_dec d 0) as [-> | Hnz]; [simpl; lia |].
      rewrite Z.pow_neg_r by lia. lia. }
    lia. }
  assert (D - 1 < d).
  { apply (Z.pow_lt_mono_r_iff 2); lia. }
  assert (d - 1 < D).
  { apply (Z.pow_lt_mono_r_iff 2); lia. }
  lia.
Qed.

(** *** Right shifts *)

Lemma shr_1_m (mrs : shr_record) :
  0 <= shr_m mrs -> shr_m (shr_1 mrs) = shr_m mrs / 2.
Proof.
  destruct mrs as [m r s]; simpl. intros Hm.
  destruct m as [| [p | p |] | p]; simpl in *; try lia; div_lia.
Qed.

Lemma pow2_xO (n : positive) : 2 ^ Zpos n~0 = 2 ^ Zpos n * 2 ^ Zpos n.
Proof.
  replace (Zpos n~0) with (Zpos n + Zpos n) by lia.
  now rewrite Z.pow_add_r by lia.
Qed.

Lemma pow2_xI (n : positive) : 2 ^ Zpos n~1 = 2 * (2 ^ Zpos n * 2 ^ Zpos n).
Proof.
  replace (Zpos n~1) with (1 + (Zpos n + Zpos n)) by lia.
  now rewrite !Z.pow_add_r by lia.
Qed.

Lemma pow2_pos (k : Z) : 0 <= k -> 0 < 2 ^ k.
Proof. intros Hk. apply Z.pow_pos_nonneg; lia. Qed.

Lemma iter_shr_m (n : positive) (mrs : shr_record) :
  0 <= shr_m mrs ->
  shr_m (iter_pos shr_1 n mrs) = shr_m mrs / 2 ^ Zpos n.
Proof.
  revert mrs; induction n as [n IH | n IH |]; intros mrs Hm; simpl iter_pos.
  - pose proof (pow2_pos (Zpos n) ltac:(lia)) as Hp.
    assert (H1 : 0 <= shr_m (shr_1 mrs))
      by (rewrite shr_1_m by assumption; apply Z.div_pos; lia).
    assert (H2 : 0 <= shr_m (iter_pos shr_1 n (shr_1 mrs)))
      by (rewrite IH by assumption; apply Z.div_pos; lia).
    rewrite IH, IH, shr_1_m by assumption.
    rewrite !Z.div_div by lia. now rewrite pow2_xI, Z.mul_assoc.
  - pose proof (pow2_pos (Zpos n) ltac:(lia)) as Hp.
    assert (H2 : 0 <= shr_m (iter_pos shr_1 n mrs))
      by (rewrite IH by assumption; apply Z.div_pos; lia).
    rewrite IH, IH by assumption.
    rewrite Z.div_div by lia. now rewrite pow2_xO.
  - rewrite shr_1_m by assumption. reflexivity.
Qed.

Lemma round_nearest_even_cases (m : Z) (l : location) :
  round_nearest_even m l = m \/ round_nearest_even m l = m + 1.
Proof.
  destruct l as [| []]; simpl; auto. destruct (Z.even m); auto.
Qed.

Lemma loc_of_shr_record_of_loc (m : Z) (l : location) :
  loc_of_shr_record (shr_record_of_loc m l) = l /\
  shr_m (shr_record_of_loc m l) = m.
Proof. destruct l as [| []]; split; reflexivity. Qed.

(** *** Rounding *)

Lemma shr_spec (mrs : shr_record) (e k : Z) :
  0 <= k -> 0 <= shr_m mrs ->
  exists mrs', shr mrs e k = (mrs', e + k) /\ shr_m mrs' = shr_m mrs / 2 ^ k.
Proof.
  intros Hk Hm. destruct k as [| p | p]; [| | lia].
  - exists mrs. simpl. rewrite Z.add_0_r, Z.div_1_r. auto.
  - exists (iter_pos shr_1 p mrs). simpl. split; [reflexivity |].
    now apply iter_shr_m.
Qed.

Lemma fexp_normal (e : Z) :
  -1074 <= e - 53 -> SpecFloat.fexp prec emax e = e - 53.
Proof.
  intros He. unfold SpecFloat.fexp, SpecFloat.emin, prec, emax. lia.
Qed.


Lemma two52_eq : Zpos two52 = 2 ^ 52.
Proof. reflexivity. Qed.

(** Rounding a mantissa of at least 53 digits in the normal range: the
    result has the exponent of the binade of the value and a 53-digit
    mantissa, or it is the power of two that opens the next binade. *)
Lemma round_aux_normal (sx : bool) (mx : positive) (ex : Z) (lx : location)
    (d : Z) :
  Zpos (digits2_pos mx) = d ->
  53 <= d -> -1074 <= d + ex - 53 -> d + ex - 52 <= 971 ->
  exists (m : positive) (e : Z),
    binary_round_aux prec emax sx (Zpos mx) ex lx = S754_finite sx m e
    /\ ((e = d + ex - 53 /\ Zpos (digits2_pos m) = 53)
        \/ (e = d + ex - 52 /\ m = two52)).
Proof.
  intros Hd Hd53 Hlo Hhi.
  unfold binary_round_aux, shr_fexp. simpl Zdigits2. rewrite Hd.
  rewrite fexp_normal by lia.
  destruct (loc_of_shr_record_of_loc (Zpos mx) lx) as [Hloc Hrec].
  destruct (shr_spec (shr_record_of_loc (Zpos mx) lx) ex (d + ex - 53 - ex))
    as (mrs1 & Hshr1 & Hm1); [lia | rewrite Hrec; lia |].
  rewrite Hshr1. rewrite Hrec in Hm1.
  replace (ex + (d + ex - 53 - ex)) with (d + ex - 53) by lia.
  replace (d + ex - 53 - ex) with (d - 53) in Hm1 by lia.
  pose proof (digits_bounds mx) as [Blo Bhi]. rewrite Hd in Blo, Bhi.
  pose proof (pow2_pos (d - 53) ltac:(lia)) as Hpk.
  assert (Hm1lo : 2 ^ 52 <= shr_m mrs1).
  { rewrite Hm1. apply Z.div_le_lower_bound; [lia |].
    rewrite <- Z.pow_add_r by lia.
    replace (d - 53 + 52) with (d - 1) by lia. exact Blo. }
  assert (Hm1hi : shr_m mrs1 < 2 ^ 53).
  { rewrite Hm1. apply Z.div_lt_upper_bound; [lia |].
    rewrite <- Z.pow_add_r by lia.
    replace (d - 53 + 53) with d by lia. exact Bhi. }
  set (mr := round_nearest_even (shr_m mrs1) (loc_of_shr_record mrs1)).
  assert (Hmr : 2 ^ 52 <= mr <= 2 ^ 53).
  { unfold mr.
    destruct (round_nearest_even_cases (shr_m mrs1) (loc_of_shr_record mrs1))
      as [-> | ->]; lia. }
  destruct mr as [| q | q] eqn:Emr; [lia | | lia].
  destruct (Z.eq_dec (Zpos q) (2 ^ 53)) as [Hcarry | Hnocarry].
  - (* the mantissa was rounded up to 2^53 *)
    assert (Hq : q = 9007199254740992%positive)
      by (change (2 ^ 53) with 9007199254740992 in Hcarry; congruence).
    subst q. simpl Zdigits2.
    change (Zpos (digits2_pos 9007199254740992)) with 54.
    rewrite fexp_normal by lia.
    replace (54 + (d + ex - 53) - 53 - (d + ex - 53)) with 1 by lia.
    simpl. replace (d + ex - 53 + 1) with (d + ex - 52) by lia.
    replace (d + ex - 52 <=? 971) with true by (symmetry; apply Z.leb_le; lia).
    exists two52, (d + ex - 52). split; [reflexivity | right; auto].
  - assert (Hdq : Zpos (digits2_pos q) = 53)
      by (apply digits_unique; simpl; lia).
    simpl Zdigits2. rewrite Hdq. rewrite fexp_normal by lia.
    replace (53 + (d + ex - 53) - 53 - (d + ex - 53)) with 0 by lia.
    simpl.
    replace (d + ex - 53 <=? 971) with true by (symmetry; apply Z.leb_le; lia).
    exists q, (d + ex - 53). split; [reflexivity | left; auto].
Qed.

Lemma iter_xO_value (m d : positive) :
  Zpos (Pos.iter xO m d) = Zpos m * 2 ^ Zpos d.
Proof.
  change (Pos.iter xO m d) with (shift_pos d m).
  rewrite shift_pos_correct, Z.pow_pos_fold. ring.
Qed.

Lemma shl_align_value (mx : positive) (ex ez : Z) :
  ez <= ex ->
  Zpos (fst (shl_align mx ex ez)) = Zpos mx * 2 ^ (ex - ez).
Proof.
  intros Hle. unfold shl_align.
  destruct (ez - ex) as [| p | p] eqn:E; simpl.
  - replace (ex - ez) with 0 by lia. simpl. lia.
  - lia.
  - rewrite iter_xO_value. replace (ex - ez) with (Zpos p) by lia.
    reflexivity.
Qed.

(** Digits of a positive number between two powers of two. *)
Lemma digits_between (p : positive) (lo hi : Z) :
  2 ^ (lo - 1) <= Zpos p < 2 ^ hi -> 1 <= lo ->
  lo <= Zpos (digits2_pos p) <= hi.
Proof.
  intros [Hlo Hhi] Hlo1. pose proof (digits_bounds p) as [Dlo Dhi].
  set (D := Zpos (digits2_pos p)) in *.
  assert (0 < D) by (unfold D; lia).
  assert (Hhi0 : 0 < hi).
  { destruct (Z_lt_le_dec 0 hi) as [| Hneg]; [assumption |].
    assert (2 ^ hi <= 1).
    { destruct (Z.eq_dec hi 0) as [-> | Hnz]; [simpl; lia |].
      rewrite Z.pow_neg_r by lia. lia. }
    lia. }
  split.
  - assert (lo - 1 < D) by (apply (Z.pow_lt_mono_r_iff 2); lia). lia.
  - assert (D - 1 < hi) by (apply (Z.pow_lt_mono_r_iff 2); lia). lia.
Qed.

(** [binary_round] of a positive mantissa whose value lies in
    [2^(lo-1), 2^hi), in the normal range. *)
Lemma binary_round_normal (sx : bool) (mx : positive) (ex lo hi : Z) :
  lo <= Zpos (digits2_pos mx) + ex <= hi ->
  -1074 <= lo - 53 -> hi - 52 <= 971 ->
  exists (m : positive) (e : Z),
    binary_round prec emax sx mx ex = S754_finite sx m e
    /\ lo - 53 <= e <= hi - 52
    /\ Zpos (digits2_pos m) = 53.
Proof.
  intros Hmag Hlo Hhi. unfold binary_round.
  set (D := Zpos (digits2_pos mx)) in *.
  rewrite fexp_normal by lia.
  unfold shl_align.
  destruct (D + ex - 53 - ex) as [| p | p] eqn:E.
  - destruct (round_aux_normal sx mx ex loc_Exact D eq_refl)
      as (m & e & -> & Hcases); try lia.
    exists m, e. split; [reflexivity |].
    destruct Hcases as [[-> Hm] | [-> ->]]; split; try lia; auto.
  - destruct (round_aux_normal sx mx ex loc_Exact D eq_refl)
      as (m & e & -> & Hcases); try lia.
    exists m, e. split; [reflexivity |].
    destruct Hcases as [[-> Hm] | [-> ->]]; split; try lia; auto.
  - assert (Hdz : Zpos (digits2_pos (Pos.iter xO mx p)) = 53).
    { apply digits_unique. rewrite iter_xO_value.
      pose proof (digits_bounds mx) as [Blo Bhi]. fold D in Blo, Bhi.
      pose proof (pow2_pos (Zpos p) ltac:(lia)) as Hpp.
      replace 53 with (D + Zpos p) at 2 by lia.
      replace (53 - 1) with (D - 1 + Zpos p) by lia.
      assert (0 < D) by (unfold D; lia).
      rewrite !Z.pow_add_r by lia. split; nia. }
    destruct (round_aux_normal sx (Pos.iter xO mx p) (D + ex - 53) loc_Exact
                53 Hdz)
      as (m & e & -> & Hcases); try lia.
    exists m, e. split; [reflexivity |].
    destruct Hcases as [[-> Hm] | [-> ->]]; split; try lia; auto.
Qed.

(** [binary_normalize] of a positive integer mantissa. *)
Lemma binary_normalize_normal (M ez lo hi : Z) :
  2 ^ (lo - 1 - ez) <= M < 2 ^ (hi - ez) ->
  1 <= lo - ez -> -1074 <= lo - 53 -> hi - 52 <= 971 ->
  exists (m : positive) (e : Z),
    binary_normalize prec emax M ez false = S754_finite false m e
    /\ lo - 53 <= e <= hi - 52
    /\ Zpos (digits2_pos m) = 53.
Proof.
  intros HM Hlo1 Hlo Hhi.
  assert (0 < 2 ^ (lo - 1 - ez)) by (apply pow2_pos; lia).
  destruct M as [| p | p]; [lia | | lia]. simpl binary_normalize.
  apply binary_round_normal; try assumption.
  pose proof (digits_between p (lo - ez) (hi - ez)) as Hd.
  replace (lo - ez - 1) with (lo - 1 - ez) in Hd by lia.
  specialize (Hd HM Hlo1). lia.
Qed.

Lemma SFadd_finite_pos (mx my : positive) (ex ey lo hi : Z) :
  2 ^ (lo - 1 - Z.min ex ey)
  <= Zpos mx * 2 ^ (ex - Z.min ex ey) + Zpos my * 2 ^ (ey - Z.min ex ey)
  < 2 ^ (hi - Z.min ex ey) ->
  1 <= lo - Z.min ex ey -> -1074 <= lo - 53 -> hi - 52 <= 971 ->
  exists (m : positive) (e : Z),
    SFadd prec emax (S754_finite false mx ex) (S754_finite false my ey)
    = S754_finite false m e
    /\ lo - 53 <= e <= hi - 52
    /\ Zpos (digits2_pos m) = 53.
Proof.
  intros HM Hlo1 Hlo Hhi. unfold SFadd, cond_Zopp.
  apply binary_normalize_normal; try assumption.
  rewrite !shl_align_value by lia. exact HM.
Qed.

Lemma SFsub_finite_pos (mx my : positive) (ex ey lo hi : Z) :
  2 ^ (lo - 1 - Z.min ex ey)
  <= Zpos mx * 2 ^ (ex - Z.min ex ey) - Zpos my * 2 ^ (ey - Z.min ex ey)
  < 2 ^ (hi - Z.min ex ey) ->
  1 <= lo - Z.min ex ey -> -1074 <= lo - 53 -> hi - 52 <= 971 ->
  exists (m : positive) (e : Z),
    SFsub prec emax (S754_finite false mx ex) (S754_finite false my ey)
    = S754_finite false m e
    /\ lo - 53 <= e <= hi - 52
    /\ Zpos (digits2_pos m) = 53.
Proof.
  intros HM Hlo1 Hlo Hhi. unfold SFsub, cond_Zopp.
  apply binary_normalize_normal; try assumption.
  rewrite !shl_align_value by lia. exact HM.
Qed.

(** Division by 4 of a positive float with a full mantissa, away from the
    subnormal range, is exact: the exponent goes down by 2. *)
Lemma SFdiv_by_4 (m : positive) (e : Z) :
  Zpos (digits2_pos m) = 53 -> -1074 <= e - 3 -> e - 2 <= 971 ->
  SFdiv prec emax (S754_finite false m e) (S754_finite false two52 (-50))
  = S754_finite false m (e - 2).
Proof.
  intros Hd Hlo Hhi. unfold SFdiv, SFdiv_core_binary.
  simpl Zdigits2. rewrite Hd.
  change (Zpos (digits2_pos two52)) with 53.
  replace (53 + e - (53 + -50)) with (e + 50) by lia.
  rewrite fexp_normal by lia.
  replace (Z.min (e + 50 - 53) (e - -50)) with (e - 3) by lia.
  replace (e - -50 - (e - 3)) with 53 by lia.
  cbv iota beta.
  assert (Hq : Z.div_eucl (Z.shiftl (Zpos m) 53) (Zpos two52)
               = (Zpos m~0, 0)).
  { pose proof (Z.div_eucl_eq (Z.shiftl (Zpos m) 53) (Zpos two52)
                  ltac:(discriminate)) as Heq.
    pose proof (Z.mod_pos_bound (Z.shiftl (Zpos m) 53) (Zpos two52)
                  ltac:(reflexivity)) as Hr.
    unfold Z.modulo in Hr.
    destruct (Z.div_eucl (Z.shiftl (Zpos m) 53) (Zpos two52)) as [q r].
    rewrite Z.shiftl_mul_pow2 in Heq by lia.
    change (2 ^ 53) with 9007199254740992 in Heq.
    unfold two52 in *. f_equal; lia. }
  rewrite Hq. cbv iota beta.
  change (new_location (Zpos two52) 0) with loc_Exact.
  unfold binary_round_aux, shr_fexp.
  simpl Zdigits2. rewrite Pos2Z.inj_succ, Hd. change (Z.succ 53) with 54.
  rewrite fexp_normal by lia.
  replace (54 + (e - 3) - 53 - (e - 3)) with 1 by lia.
  cbn [shr iter_pos shr_1 shr_record_of_loc round_nearest_even
       loc_of_shr_record shr_m shr_r shr_s orb Zdigits2].
  rewrite Hd. rewrite fexp_normal by lia.
  replace (53 + (e - 3 + 1) - 53 - (e - 3 + 1)) with 0 by lia.
  cbn [shr shr_m xorb]. replace (e - 3 + 1) with (e - 2) by lia.
  replace (e - 2 <=? emax - prec) with true
    by (symmetry; apply Z.leb_le; unfold emax, prec; lia).
  reflexivity.
Qed.


(** *** The two scores of identical candidates *)

Lemma full_mantissa (m : positive) :
  Zpos (digits2_pos m) = 53 -> 2 ^ 52 <= Zpos m < 2 ^ 53.
Proof.
  intros Hd. pose proof (digits_bounds m) as H. rewrite Hd in H. exact H.
Qed.

(** 1 + f for a positive f below 1. *)
Lemma one_plus_small (m : positive) (e : Z) :
  e <= -53 -> Zpos m < 2 ^ 53 ->
  exists (m1 : positive) (e1 : Z),
    SFadd prec emax sf_one (S754_finite false m e) = S754_finite false m1 e1
    /\ -52 <= e1 <= -50 /\ Zpos (digits2_pos m1) = 53.
Proof.
  intros He Hm.
  pose proof (SFadd_finite_pos two52 m (-52) e 1 2) as H.
  replace (Z.min (-52) e) with e in H by lia.
  replace (1 - 1 - e) with (- e) in H by lia.
  replace (e - e) with 0 in H by lia.
  pose proof (pow2_pos (-52 - e) ltac:(lia)) as Hp.
  assert (E1 : 2 ^ (- e) = 2 ^ 52 * 2 ^ (-52 - e))
    by (rewrite <- Z.pow_add_r by lia; f_equal; lia).
  assert (E2 : 2 ^ (2 - e) = 4 * (2 ^ 52 * 2 ^ (-52 - e)))
    by (rewrite <- E1; replace (2 - e) with (2 + - e) by lia;
        rewrite Z.pow_add_r by lia; reflexivity).
  assert (E3 : 2 <= 2 ^ (-52 - e)).
  { change 2 with (2 ^ 1) at 1. apply Z.pow_le_mono_r; lia. }
  rewrite E1, E2, two52_eq in H. change (2 ^ 0) with 1 in H.
  change (2 ^ 53) with 9007199254740992 in Hm.
  change (2 ^ 52) with 4503599627370496 in H.
  destruct H as (m1 & e1 & Hadd & He1 & Hd1); try lia.
  exists m1, e1. repeat split; try assumption; lia.
Qed.

(** x + 1 for an x of full mantissa between 1 and 32. *)
Lemma plus_one (m : positive) (e : Z) :
  Zpos (digits2_pos m) = 53 -> -52 <= e <= -48 ->
  exists (m' : positive) (e' : Z),
    SFadd prec emax (S754_finite false m e) sf_one = S754_finite false m' e'
    /\ -51 <= e' <= e + 2 /\ Zpos (digits2_pos m') = 53.
Proof.
  intros Hd He. apply full_mantissa in Hd.
  change (2 ^ 52) with 4503599627370496 in Hd.
  change (2 ^ 53) with 9007199254740992 in Hd.
  pose proof (SFadd_finite_pos m two52 e (-52) 2 (e + 54)) as H.
  replace (Z.min e (-52)) with (-52) in H by lia.
  change (2 - 1 - -52) with 53 in H. change (-52 - -52) with 0 in H.
  replace (e + 54 - -52) with (e - -52 + 54) in H by lia.
  rewrite Z.pow_add_r in H by lia.
  pose proof (pow2_pos (e - -52) ltac:(lia)) as Hp.
  change (2 ^ 0) with 1 in H. unfold two52 in H.
  change (2 ^ 53) with 9007199254740992 in H.
  change (2 ^ 54) with 18014398509481984 in H.
  destruct H as (m' & e' & Hadd & He' & Hd'); try lia; [nia |].
  exists m', e'. repeat split; try assumption; lia.
Qed.

(** 1 - f for a positive f below 1. *)
Lemma one_minus_small (m : positive) (e : Z) :
  e <= -53 -> Zpos m < 2 ^ 53 ->
  exists (mb : positive) (eb : Z),
    SFsub prec emax sf_one (S754_finite false m e) = S754_finite false mb eb
    /\ -105 <= eb <= -52 /\ Zpos (digits2_pos mb) = 53.
Proof.
  intros He Hm.
  pose proof (SFsub_finite_pos two52 m (-52) e (-52) 0) as H.
  replace (Z.min (-52) e) with e in H by lia.
  replace (-52 - 1 - e) with (-53 - e) in H by lia.
  replace (e - e) with 0 in H by lia.
  replace (-52 - e) with (1 + (-53 - e)) in H by lia.
  replace (0 - e) with (53 + (-53 - e)) in H by lia.
  rewrite !Z.pow_add_r in H by lia.
  pose proof (pow2_pos (-53 - e) ltac:(lia)) as Hp.
  change (2 ^ 0) with 1 in H. change (2 ^ 1) with 2 in H.
  change (2 ^ 53) with 9007199254740992 in H, Hm. unfold two52 in H.
  destruct H as (mb & eb & Hsub & Heb & Hdb); try lia.
  exists mb, eb. repeat split; try assumption; lia.
Qed.

(** The two composite scores of identical candidates, on specification
    floats: for a positive foreground ratio below 1 the score of the
    library output is strictly below that of the network output. *)
Lemma spec_scores_lt (m : positive) (e : Z) :
  e <= -53 -> Zpos m < 2 ^ 53 ->
  SFltb
    (SFdiv prec emax
       (SFadd prec emax
          (SFadd prec emax
             (SFadd prec emax sf_zero
                (SFsub prec emax sf_one (S754_finite false m e)))
             sf_zero)
          sf_zero)
       sf_four)
    (SFdiv prec emax
       (SFadd prec emax
          (SFadd prec emax
             (SFadd prec emax sf_one (S754_finite false m e)) sf_one)
          sf_one)
       sf_four)
  = true.
Proof.
  intros He Hm.
  destruct (one_minus_small m e He Hm) as (mb & eb & -> & Heb & Hdb).
  destruct (one_plus_small m e He Hm) as (m1 & e1 & -> & He1 & Hd1).
  destruct (plus_one m1 e1 Hd1 ltac:(lia)) as (m2 & e2 & -> & He2 & Hd2).
  destruct (plus_one m2 e2 Hd2 ltac:(lia)) as (m3 & e3 & -> & He3 & Hd3).
  cbn [SFadd].
  rewrite !SFdiv_by_4 by (assumption || lia).
  unfold SFltb, SFcompare.
  replace (eb - 2 ?= e3 - 2) with Lt by (symmetry; apply Z.compare_lt_iff; lia).
  reflexivity.
Qed.


(** *** Primitive floats between 0 and 1 *)

Lemma unit_interval_cases (f : float) :
  PrimFloat.leb 0 f = true -> PrimFloat.leb f 1 = true ->
  f = 0%float \/ f = (-0)%float \/ f = 1%float
  \/ exists (m : positive) (e : Z),
       Prim2SF f = S754_finite false m e /\ e <= -53 /\ Zpos m < 2 ^ 53.
Proof.
  rewrite !leb_spec.
  change (Prim2SF 0) with sf_zero. change (Prim2SF 1) with sf_one.
  pose proof (Prim2SF_valid f) as Hvalid.
  pose proof (SF2Prim_Prim2SF f) as Hf.
  destruct (Prim2SF f) as [s | s | | s m e]; unfold SFleb, SFcompare.
  - intros _ _. destruct s; simpl in Hf; auto.
  - destruct s; discriminate.
  - discriminate.
  - destruct s; [discriminate |]. intros _.
    unfold valid_binary, bounded, canonical_mantissa in Hvalid.
    apply andb_true_iff in Hvalid as [Hcanon _]. apply Z.eqb_eq in Hcanon.
    unfold SpecFloat.fexp, SpecFloat.emin, prec, emax in Hcanon.
    pose proof (digits_bounds m) as [Dlo Dhi].
    destruct (Z.compare_spec e (-52)) as [-> | Hlt | Hgt];
      [| | discriminate].
    + (* e = -52: a canonical mantissa not above 2^52 is 2^52 *)
      intros Hm. assert (Hd : Zpos (digits2_pos m) = 53) by lia.
      rewrite Hd in Dlo. change (2 ^ (53 - 1)) with (Zpos two52) in Dlo.
      assert (m = two52).
      { rewrite Pos.compare_cont_spec in Hm. cbn [Pos.switch_Eq] in Hm.
        destruct (Pos.compare_spec m two52) as [E | L | G].
        - exact E.
        - apply Pos2Z.pos_lt_pos in L. clear - L Dlo. lia.
        - discriminate. }
      subst m. right; right; left. rewrite <- Hf.
      vm_compute. reflexivity.
    + intros _. right; right; right. exists m, e. split; [reflexivity |].
      split; [lia |].
      assert (Hd : Zpos (digits2_pos m) <= 53) by lia.
      apply Z.lt_le_trans with (2 ^ Zpos (digits2_pos m)); [exact Dhi |].
      apply Z.pow_le_mono_r; lia.
Qed.

(** For identical candidates in binary64: whatever the foreground ratio
    between 0 and 1, the score of the network output is strictly greater
    than the score of the library output. *)
Lemma identical_scores_binary64 (f : float) :
  PrimFloat.leb 0 f = true -> PrimFloat.leb f 1 = true ->
  (u2net_score 1%float f 1%float 1%float
   >? rembg_score 1%float f 1%float 1%float)%num = true.
Proof.
  intros H0 H1. unfold ngtb, u2net_score, rembg_score.
  cbn [nltb nadd nsub ndiv of_int float_Number].
  replace (float_of_Z 1) with 1%float by (vm_compute; reflexivity).
  replace (float_of_Z 4) with 4%float by (vm_compute; reflexivity).
  replace (1 - 1)%float with 0%float by (vm_compute; reflexivity).
  destruct (unit_interval_cases f H0 H1)
    as [-> | [-> | [-> | (m & e & Hf & He & Hm)]]];
    try (vm_compute; reflexivity).
  rewrite ltb_spec, !div_spec, !add_spec, !sub_spec, Hf.
  replace (Prim2SF 0) with sf_zero by (vm_compute; reflexivity).
  replace (Prim2SF 1) with sf_one by (vm_compute; reflexivity).
  replace (Prim2SF 4) with sf_four by (vm_compute; reflexivity).
  now apply spec_scores_lt.
Qed.

(** *** The quotient of two counts *)

(** Rounding leaves a 53-digit mantissa in the normal range as it is. *)
Lemma round_aux_exact_full (sx : bool) (m : positive) (e : Z) :
  Zpos (digits2_pos m) = 53 -> -1074 <= e <= 971 ->
  binary_round_aux prec emax sx (Zpos m) e loc_Exact = S754_finite sx m e.
Proof.
  intros Hd He. unfold binary_round_aux, shr_fexp.
  simpl Zdigits2. rewrite Hd. rewrite fexp_normal by lia.
  replace (53 + e - 53 - e) with 0 by lia.
  cbn [shr iter_pos shr_1 shr_record_of_loc round_nearest_even
       loc_of_shr_record shr_m shr_r shr_s orb Zdigits2 fst snd].
  rewrite Hd. rewrite fexp_normal by lia.
  replace (53 + e - 53 - e) with 0 by lia.
  cbn [shr shr_m].
  replace (e <=? emax - prec) with true
    by (symmetry; apply Z.leb_le; unfold emax, prec; lia).
  reflexivity.
Qed.

(** A positive integer below 2^53 is converted without rounding. *)
Lemma binary_normalize_exact (z : Z) :
  0 < z < 2 ^ 53 ->
  exists (m : positive) (e : Z),
    binary_normalize prec emax z 0 false = S754_finite false m e
    /\ Zpos (digits2_pos m) = 53 /\ -52 <= e <= 0
    /\ Zpos m = z * 2 ^ (- e).
Proof.
  intros [Hz0 Hz]. destruct z as [| p | p]; [lia | | lia].
  simpl binary_normalize. unfold binary_round.
  pose proof (digits_bounds p) as [Blo Bhi].
  pose proof (digits_between p 1 53 ltac:(simpl; lia) ltac:(lia)) as HD.
  set (D := Zpos (digits2_pos p)) in *.
  rewrite fexp_normal by lia. unfold shl_align.
  destruct (D + 0 - 53 - 0) as [| q | q] eqn:E; [| lia |].
  - exists p, 0. rewrite round_aux_exact_full by (fold D; lia).
    repeat split; lia.
  - assert (Hdz : Zpos (digits2_pos (Pos.iter xO p q)) = 53).
    { apply digits_unique. rewrite iter_xO_value.
      pose proof (pow2_pos (Zpos q) ltac:(lia)) as Hpp.
      replace 53 with (D + Zpos q) at 2 by lia.
      replace (53 - 1) with (D - 1 + Zpos q) by lia.
      rewrite !Z.pow_add_r by lia. split; nia. }
    exists (Pos.iter xO p q), (D + 0 - 53).
    rewrite round_aux_exact_full by (assumption || lia).
    repeat split; try assumption; try lia.
    rewrite iter_xO_value. f_equal. f_equal. lia.
Qed.

Lemma Prim2SF_float_of_Z (z : Z) :
  0 < z < 2 ^ 53 ->
  exists (m : positive) (e : Z),
    Prim2SF (float_of_Z z) = S754_finite false m e
    /\ Zpos (digits2_pos m) = 53 /\ -52 <= e <= 0
    /\ Zpos m = z * 2 ^ (- e).
Proof.
  intros Hz. destruct (binary_normalize_exact z Hz) as (m & e & Hn & Hd & He & Hv).
  exists m, e. repeat split; try assumption; try lia.
  unfold float_of_Z. rewrite Hn. apply Prim2SF_SF2Prim.
  unfold valid_binary, bounded, canonical_mantissa.
  rewrite Hd, fexp_normal by lia.
  apply andb_true_iff. split; [apply Z.eqb_eq; lia |].
  apply Z.leb_le. unfold emax, prec. lia.
Qed.

(** A full-mantissa float divided by itself is 1. *)
Lemma SFdiv_self (m : positive) (e : Z) :
  Zpos (digits2_pos m) = 53 ->
  SFdiv prec emax (S754_finite false m e) (S754_finite false m e) = sf_one.
Proof.
  intros Hd. unfold SFdiv, SFdiv_core_binary.
  simpl Zdigits2. rewrite Hd.
  replace (53 + e - (53 + e)) with 0 by lia.
  replace (e - e) with 0 by lia.
  rewrite fexp_normal by lia.
  change (Z.min (0 - 53) 0) with (-53). change (0 - -53) with 53.
  cbv iota beta.
  assert (Hq : Z.div_eucl (Z.shiftl (Zpos m) 53) (Zpos m)
               = (9007199254740992, 0)).
  { assert (Hdiv : Z.shiftl (Zpos m) 53 / Zpos m = 9007199254740992)
      by (rewrite Z.shiftl_mul_pow2, Z.mul_comm, Z.div_mul by lia;
          reflexivity).
    assert (Hmod : Z.shiftl (Zpos m) 53 mod Zpos m = 0)
      by (rewrite Z.shiftl_mul_pow2, Z.mul_comm by lia; apply Z_mod_mult).
    unfold Z.div, Z.modulo in Hdiv, Hmod.
    destruct (Z.div_eucl (Z.shiftl (Zpos m) 53) (Zpos m)) as [q r].
    simpl in Hdiv, Hmod. congruence. }
  rewrite Hq. cbv iota beta.
  assert (Hloc : new_location (Zpos m) 0 = loc_Exact).
  { unfold new_location, new_location_even, new_location_odd.
    destruct (Z.even (Zpos m)); reflexivity. }
  rewrite Hloc. vm_compute. reflexivity.
Qed.

(** The quotient of two full-mantissa floats, the first one smaller than
    the second, is at most 1. *)
Lemma SFdiv_below (mc mn : positive) (ec en : Z) :
  Zpos (digits2_pos mc) = 53 -> Zpos (digits2_pos mn) = 53 ->
  -52 <= ec <= 0 -> -52 <= en <= 0 ->
  Zpos mc * 2 ^ (ec + 52) < Zpos mn * 2 ^ (en + 52) ->
  exists (m : positive) (e : Z),
    SFdiv prec emax (S754_finite false mc ec) (S754_finite false mn en)
    = S754_finite false m e
    /\ (e <= -53 \/ (e = -52 /\ m = two52)).
Proof.
  intros Hdc Hdn Hec Hen Hlt. unfold SFdiv, SFdiv_core_binary.
  simpl Zdigits2. rewrite Hdc, Hdn.
  replace (53 + ec - (53 + en)) with (ec - en) by lia.
  rewrite fexp_normal by lia.
  replace (Z.min (ec - en - 53) (ec - en)) with (ec - en - 53) by lia.
  replace (ec - en - (ec - en - 53)) with 53 by lia.
  cbv iota beta.
  pose proof (Z.div_eucl_eq (Z.shiftl (Zpos mc) 53) (Zpos mn)
                ltac:(discriminate)) as Heq.
  pose proof (Z.mod_pos_bound (Z.shiftl (Zpos mc) 53) (Zpos mn)
                ltac:(reflexivity)) as Hr.
  unfold Z.modulo in Hr.
  destruct (Z.div_eucl (Z.shiftl (Zpos mc) 53) (Zpos mn)) as [q r].
  rewrite Z.shiftl_mul_pow2 in Heq by lia.
  apply full_mantissa in Hdc, Hdn.
  assert (Hq52 : 2 ^ 52 <= q).
  { change (2 ^ 52) with 4503599627370496 in *.
    change (2 ^ 53) with 9007199254740992 in *. nia. }
  (* the quotient is below 2^(53 + en - ec) *)
  assert (Hqhi : q < 2 ^ (53 + en - ec)).
  { destruct (Z_le_gt_dec ec en) as [Hle | Hgt].
    - pose proof (pow2_pos (en - ec) ltac:(lia)) as HP.
      pose proof (pow2_pos (ec + 52) ltac:(lia)) as HS.
      replace (en + 52) with (ec + 52 + (en - ec)) in Hlt by lia.
      replace (53 + en - ec) with (53 + (en - ec)) by lia.
      rewrite (Z.pow_add_r 2 (ec + 52) (en - ec)) in Hlt by lia.
      rewrite Z.pow_add_r by lia.
      set (P := 2 ^ (en - ec)) in *. set (S := 2 ^ (ec + 52)) in *.
      assert (Hm : Zpos mc < Zpos mn * P) by nia.
      change (2 ^ 53) with 9007199254740992 in *. nia.
    - pose proof (pow2_pos (ec - en) ltac:(lia)) as HP.
      pose proof (pow2_pos (en + 52) ltac:(lia)) as HS.
      pose proof (pow2_pos (53 + en - ec) ltac:(lia)) as HT.
      replace (ec + 52) with (en + 52 + (ec - en)) in Hlt by lia.
      rewrite (Z.pow_add_r 2 (en + 52) (ec - en)) in Hlt by lia.
      assert (E53 : 2 ^ 53 = 2 ^ (53 + en - ec) * 2 ^ (ec - en))
        by (rewrite <- Z.pow_add_r by lia; f_equal; lia).
      rewrite E53 in Heq.
      set (P := 2 ^ (ec - en)) in *. set (S := 2 ^ (en + 52)) in *.
      set (T := 2 ^ (53 + en - ec)) in *.
      assert (Hm : Zpos mc * P < Zpos mn) by nia.
      nia. }
  destruct q as [| qp | qp]; [simpl in Hq52; lia | | lia].
  pose proof (digits_between qp 53 (53 + en - ec) (conj Hq52 Hqhi)
                ltac:(lia)) as Hd.
  destruct (round_aux_normal false qp (ec - en - 53)
              (new_location (Zpos mn) r) (Zpos (digits2_pos qp)) eq_refl)
    as (m & e & Hround & Hcases); try lia.
  exists m, e. split; [exact Hround |].
  destruct Hcases as [[-> _] | [-> ->]]; [left; lia |].
  destruct (Z.eq_dec (Zpos (digits2_pos qp) + (ec - en - 53) - 52) (-52))
    as [E | E]; [right; auto | left; lia].
Qed.

(** The quotient of two counts in binary64: between 0 and 1, and 0 or 1
    at the two ends. *)
Lemma ratio_binary64 (c n : Z) :
  0 <= c <= n -> 0 < n < 2 ^ 53 ->
  PrimFloat.leb 0 (float_of_Z c / float_of_Z n) = true
  /\ PrimFloat.leb (float_of_Z c / float_of_Z n) 1 = true
  /\ (c = 0 -> (float_of_Z c / float_of_Z n)%float = 0%float)
  /\ (c = n -> (float_of_Z c / float_of_Z n)%float = 1%float).
Proof.
  intros Hc Hn.
  destruct (Prim2SF_float_of_Z n Hn) as (mn & en & Hfn & Hdn & Hen & Hvn).
  assert (Hone : Prim2SF (float_of_Z n / float_of_Z n) = sf_one)
    by (rewrite div_spec, Hfn; now apply SFdiv_self).
  assert (Hzero : Prim2SF (float_of_Z 0 / float_of_Z n) = sf_zero)
    by (rewrite div_spec, Hfn; reflexivity).
  assert (Hcases :
            Prim2SF (float_of_Z c / float_of_Z n) = sf_zero
            \/ exists (m : positive) (e : Z),
                 Prim2SF (float_of_Z c / float_of_Z n) = S754_finite false m e
                 /\ (e <= -53 \/ (e = -52 /\ m = two52))).
  { destruct (Z.eq_dec c 0) as [-> | Hc0]; [left; exact Hzero | right].
    destruct (Z.eq_dec c n) as [-> | Hcn].
    - exists two52, (-52). split; [exact Hone | right; auto].
    - destruct (Prim2SF_float_of_Z c ltac:(lia))
        as (mc & ec & Hfc & Hdc & Hec & Hvc).
      rewrite div_spec, Hfc, Hfn. apply SFdiv_below; try assumption.
      rewrite Hvc, Hvn, <- !Z.mul_assoc, <- !Z.pow_add_r by lia.
      replace (- ec + (ec + 52)) with 52 by lia.
      replace (- en + (en + 52)) with 52 by lia.
      change (2 ^ 52) with 4503599627370496. lia. }
  rewrite !leb_spec.
  replace (Prim2SF 0) with sf_zero by (vm_compute; reflexivity).
  replace (Prim2SF 1) with sf_one by (vm_compute; reflexivity).
  split; [| split; [| split]].
  - destruct Hcases as [-> | (m & e & -> & _)]; reflexivity.
  - destruct Hcases as [-> | (m & e & -> & [He | [-> ->]])];
      [reflexivity | | reflexivity].
    unfold SFleb, SFcompare.
    replace (e ?= -52) with Lt by (symmetry; apply Z.compare_lt_iff; lia).
    reflexivity.
  - intros ->. rewrite <- (SF2Prim_Prim2SF (float_of_Z 0 / float_of_Z n)).
    now rewrite Hzero.
  - intros ->. rewrite <- (SF2Prim_Prim2SF (float_of_Z n / float_of_Z n)).
    rewrite Hone. vm_compute. reflexivity.
Qed.

Open Scope string_scope.

(* ================================================================== *)
(** ** The saliency gate and the comparator *)

Section DecisionFacts.

Context {T : Type} `{NumberOrder T}.
Variable ext : externals T.

(** [decide_best_method] once its four scores and the gate have returned. *)
Lemma decide_best_method_returns
    (A B original : ndarray) (path : string) (threshold s f e h : T)
    (g : bool) :
  compare_images ext A B = Ok s ->
  foreground_pixel_analysis A = Ok f ->
  edge_similarity ext A B = Ok e ->
  histogram_difference ext A B = Ok h ->
  needs_background_removal ext path = Ok g ->
  decide_best_method ext A B original path threshold =
  if g && (f <? threshold)%num then Ok (original, "Original")
  else if (u2net_score s f e h >? rembg_score s f e h)%num
       then Ok (A, "U-2-Net") else Ok (B, "rembg").
Proof.
  intros Hs Hf He Hh Hg. unfold decide_best_method.
  rewrite Hs, Hf, He, Hh, Hg; simpl.
  destruct (g && (f <? threshold)%num); [reflexivity |].
  destruct (u2net_score s f e h >? rembg_score s f e h)%num; reflexivity.
Qed.

(** C4.  The gate takes the mean of the saliency map of the image and
    returns whether that mean is strictly below 0.4: true below the
    threshold, false at or above it. *)
Theorem needs_background_removal_threshold :
  forall (img_path : string) (saliency_map : list (list T)),
    computeSaliency ext (cv2_imread_color ext img_path) = Ok saliency_map ->
    needs_background_removal ext img_path =
    Ok (np_mean ext saliency_map <? of_decimal 0.4%Q)%num.
Proof.
  intros img_path saliency_map Hmap. unfold needs_background_removal.
  now rewrite Hmap.
Qed.

(** C1.  When the gate returns true for the path and the foreground ratio
    of the network output is strictly below 0.2, [decide_best_method]
    returns the original image with the label of the original (the
    string ["Original"] in the script), whatever the three similarity
    scores are. *)
Theorem decide_best_method_override :
  forall (output_u2net output_rembg original_image : ndarray)
         (image_path : string)
         (score_ssim score_foreground score_edge score_hist : T),
    compare_images ext output_u2net output_rembg = Ok score_ssim ->
    foreground_pixel_analysis output_u2net = Ok score_foreground ->
    edge_similarity ext output_u2net output_rembg = Ok score_edge ->
    histogram_difference ext output_u2net output_rembg = Ok score_hist ->
    needs_background_removal ext image_path = Ok true ->
    (score_foreground <? of_decimal 0.2%Q)%num = true ->
    decide_best_method ext output_u2net output_rembg original_image
      image_path default_min_foreground_threshold
    = Ok (original_image, "Original").
Proof.
  intros A B original path s f e h Hs Hf He Hh Hg Hlow.
  rewrite (decide_best_method_returns A B original path _ s f e h true)
    by assumption.
  unfold default_min_foreground_threshold. now rewrite Hlow.
Qed.

(** C2.  When the override does not fire, the score of the network output
    is the mean of the four metrics, the score of the library output is
    the mean of their complements, the network output is returned exactly
    when its score is strictly greater, and on a tie the library output
    is returned. *)
Theorem decide_best_method_scores :
  forall (output_u2net output_rembg original_image : ndarray)
         (image_path : string) (min_foreground_threshold : T)
         (score_ssim score_foreground score_edge score_hist : T)
         (gate : bool),
    compare_images ext output_u2net output_rembg = Ok score_ssim ->
    foreground_pixel_analysis output_u2net = Ok score_foreground ->
    edge_similarity ext output_u2net output_rembg = Ok score_edge ->
    histogram_difference ext output_u2net output_rembg = Ok score_hist ->
    needs_background_removal ext image_path = Ok gate ->
    gate && (score_foreground <? min_foreground_threshold)%num = false ->
    let scoreA :=
      ((score_ssim + score_foreground + score_edge + score_hist)
       / of_int 4)%num in
    let scoreB :=
      ((of_int 1 - score_ssim + (of_int 1 - score_foreground)
        + (of_int 1 - score_edge) + (of_int 1 - score_hist))
       / of_int 4)%num in
    let decision :=
      decide_best_method ext output_u2net output_rembg original_image
        image_path min_foreground_threshold in
    (decision = Ok (output_u2net, "U-2-Net") <-> (scoreA >? scoreB)%num = true)
    /\ (decision = Ok (output_rembg, "rembg")
        <-> (scoreA >? scoreB)%num = false)
    /\ ((scoreA =? scoreB)%num = true -> decision = Ok (output_rembg, "rembg")).
Proof.
  intros A B original path threshold s f e h g Hs Hf He Hh Hg Hoff.
  cbv zeta.
  rewrite (decide_best_method_returns A B original path threshold s f e h g)
    by assumption.
  rewrite Hoff. unfold u2net_score, rembg_score.
  split; [| split].
  - destruct (_ >? _)%num; split; congruence.
  - destruct (_ >? _)%num; split; congruence.
  - intros Htie. now rewrite (neqb_not_ngtb _ _ Htie).
Qed.

(** C10.  Whenever the scores and the gate return, [decide_best_method]
    returns one of the three candidates together with the label of that
    same candidate; the three labels are pairwise different, so the label
    tells which candidate was returned, and for pairwise different arrays
    the returned array is a given candidate exactly when the label is
    that candidate's. *)
Theorem decide_best_method_label_consistent :
  forall (output_u2net output_rembg original_image : ndarray)
         (image_path : string) (min_foreground_threshold : T)
         (score_ssim score_foreground score_edge score_hist : T)
         (gate : bool),
    compare_images ext output_u2net output_rembg = Ok score_ssim ->
    foreground_pixel_analysis output_u2net = Ok score_foreground ->
    edge_similarity ext output_u2net output_rembg = Ok score_edge ->
    histogram_difference ext output_u2net output_rembg = Ok score_hist ->
    needs_background_removal ext image_path = Ok gate ->
    exists (m : method) (best_output : ndarray) (best_method : string),
      decide_best_method ext output_u2net output_rembg original_image
        image_path min_foreground_threshold = Ok (best_output, best_method)
      /\ best_output = candidate output_u2net output_rembg original_image m
      /\ best_method = method_label m
      /\ (m = U2Net <-> best_method = "U-2-Net")
      /\ (m = Rembg <-> best_method = "rembg")
      /\ (m = Original <-> best_method = "Original")
      /\ (output_u2net <> output_rembg ->
          output_u2net <> original_image ->
          output_rembg <> original_image ->
          (best_output = output_u2net <-> best_method = "U-2-Net")
          /\ (best_output = output_rembg <-> best_method = "rembg")
          /\ (best_output = original_image <-> best_method = "Original")).
Proof.
  intros A B original path threshold s f e h g Hs Hf He Hh Hg.
  rewrite (decide_best_method_returns A B original path threshold s f e h g)
    by assumption.
  assert (Hlabels :
    forall m, (m = U2Net <-> method_label m = "U-2-Net")
           /\ (m = Rembg <-> method_label m = "rembg")
           /\ (m = Original <-> method_label m = "Original")).
  { intros []; simpl; repeat split; intros; congruence. }
  assert (Hpick : exists m,
    (if g && (f <? threshold)%num then Ok (original, "Original")
     else if (u2net_score s f e h >? rembg_score s f e h)%num
          then Ok (A, "U-2-Net") else Ok (B, "rembg"))
    = Ok (candidate A B original m, method_label m)).
  { destruct (g && (f <? threshold)%num); [now exists Original |].
    destruct (u2net_score s f e h >? rembg_score s f e h)%num;
      [now exists U2Net | now exists Rembg]. }
  destruct Hpick as [m Hm].
  exists m, (candidate A B original m), (method_label m).
  split; [exact Hm |]. split; [reflexivity |]. split; [reflexivity |].
  destruct (Hlabels m) as (H1 & H2 & H3).
  split; [exact H1 |]. split; [exact H2 |]. split; [exact H3 |].
  intros HAB HAO HBO.
  destruct m; simpl; repeat split; intros; congruence.
Qed.

End DecisionFacts.

(* ================================================================== *)
(** ** The foreground ratio *)

Lemma count_nonzero_bounds (a : list (list Z)) :
  (0 <= count_nonzero a <= array_size a)%Z.
Proof.
  unfold count_nonzero, array_size. split; [lia |].
  apply Nat2Z.inj_le, filter_length_le.
Qed.

(** What [foreground_pixel_analysis] returns, and when. *)
Lemma foreground_pixel_analysis_returns {T : Type} `{Number T}
    (output_img : ndarray) (f : T) :
  foreground_pixel_analysis output_img = Ok f ->
  exists a : list (list Z),
    alpha_channel output_img = Ok a
    /\ (0 < array_size a)%Z
    /\ f = (of_int (count_nonzero a) / of_int (array_size a))%num.
Proof.
  unfold foreground_pixel_analysis.
  destruct (alpha_channel output_img) as [a | err]; simpl; [| discriminate].
  destruct (Z.eqb_spec (array_size a) 0) as [| Hn]; [discriminate |].
  intros [= <-]. exists a. repeat split.
  unfold array_size in *. lia.
Qed.

(** In binary64 the ratio lies between 0 and 1, for an array of fewer
    than 2^53 pixels. *)
Lemma foreground_ratio_bounds_binary64 (output_img : ndarray)
    (a : list (list Z)) (f : float) :
  alpha_channel output_img = Ok a -> (array_size a < 2 ^ 53)%Z ->
  foreground_pixel_analysis output_img = Ok f ->
  PrimFloat.leb 0 f = true /\ PrimFloat.leb f 1 = true.
Proof.
  intros Ha Hsize Hf. apply foreground_pixel_analysis_returns in Hf.
  destruct Hf as (a' & Ha' & Hn & ->).
  assert (a' = a) by congruence. subst a'.
  pose proof (count_nonzero_bounds a) as Hc.
  destruct (ratio_binary64 (count_nonzero a) (array_size a) Hc
              (conj Hn Hsize)) as (H0 & H1 & _).
  split; assumption.
Qed.

(* ================================================================== *)
(** ** Identical candidates in binary64 *)

(** C3, as amended.  For identical candidates, whose three similarity
    scores are 1, and whatever their foreground ratio, the score of the
    network output is strictly greater than the score of the library output
    in the binary64 arithmetic of the script (for an array of fewer than
    2^53 pixels, where the ratio is computed as in Python): there is no
    tie, and when the override does not fire the network output is
    returned with its label. *)
Theorem identical_candidates_resolve_to_u2net :
  forall (ext : externals float) (output original_image : ndarray)
         (image_path : string)
         (min_foreground_threshold score_foreground : float) (gate : bool)
         (alpha : list (list Z)),
    compare_images ext output output = Ok 1%float ->
    foreground_pixel_analysis output = Ok score_foreground ->
    edge_similarity ext output output = Ok 1%float ->
    histogram_difference ext output output = Ok 1%float ->
    needs_background_removal ext image_path = Ok gate ->
    alpha_channel output = Ok alpha -> (array_size alpha < 2 ^ 53)%Z ->
    gate && (score_foreground <? min_foreground_threshold)%num = false ->
    let scoreA := u2net_score 1%float score_foreground 1%float 1%float in
    let scoreB := rembg_score 1%float score_foreground 1%float 1%float in
    (scoreA >? scoreB)%num = true
    /\ (scoreA =? scoreB)%num = false
    /\ decide_best_method ext output output original_image image_path
         min_foreground_threshold = Ok (output, "U-2-Net").
Proof.
  intros ext A original path threshold f g a Hs Hf He Hh Hg Ha Hsize Hoff.
  cbv zeta.
  destruct (foreground_ratio_bounds_binary64 A a f Ha Hsize Hf) as [H0 H1].
  pose proof (identical_scores_binary64 f H0 H1) as Hgt.
  split; [exact Hgt |]. split.
  - destruct (u2net_score 1%float f 1%float 1%float
              =? rembg_score 1%float f 1%float 1%float)%num eqn:Heq;
      [| reflexivity].
    apply neqb_not_ngtb in Heq. congruence.
  - rewrite (decide_best_method_returns ext A A original path threshold
               1%float f 1%float 1%float g) by assumption.
    now rewrite Hoff, Hgt.
Qed.

(* ================================================================== *)
(** ** The comparator on concrete scenes *)

(** The two literals of the script in binary64. *)
Example binary64_literals :
  of_decimal 0.2%Q = 0.2%float /\ of_decimal 0.4%Q = 0.4%float
  /\ of_int 1 = 1%float /\ of_int 4 = 4%float.
Proof. vm_compute. repeat split. Qed.

(** In the sparse scene the network keeps 1 pixel of 10 and the mean
    saliency is 0.3: the gate is true and the override fires. *)
Lemma needs_background_removal_threshold_witness :
  needs_background_removal sparse_scene "in/photo.JPG"
  = Ok (PrimFloat.ltb 0.3 0.4)
  /\ PrimFloat.ltb 0.3 0.4 = true.
Proof.
  split; [| reflexivity].
  exact (needs_background_removal_threshold sparse_scene "in/photo.JPG"
           [[0.3%float]] eq_refl).
Defined.

Lemma decide_best_method_override_witness :
  foreground_pixel_analysis (rgba_row 1 9) = Ok 0.1%float
  /\ decide_best_method sparse_scene (rgba_row 1 9) (rgba_row 6 4) (rgb_row 10)
       "in/photo.JPG" default_min_foreground_threshold
     = Ok (rgb_row 10, "Original").
Proof.
  split; [vm_compute; reflexivity |].
  apply (decide_best_method_override sparse_scene (rgba_row 1 9)
           (rgba_row 6 4) (rgb_row 10) "in/photo.JPG"
           0.9%float 0.1%float 0.8%float 0.7%float);
    vm_compute; reflexivity.
Defined.

(** In the salient scene the gate is false and the four scores are 0.3,
    0.4, 0.5 and 0.8. *)
Lemma decide_best_method_scores_witness :
  decide_best_method salient_scene (rgba_row 2 3) (rgba_row 3 2) (rgb_row 5)
    "in/photo.JPG" default_min_foreground_threshold
  = Ok (rgba_row 2 3, "U-2-Net").
Proof.
  apply (decide_best_method_scores salient_scene (rgba_row 2 3)
           (rgba_row 3 2) (rgb_row 5) "in/photo.JPG"
           default_min_foreground_threshold
           0.3%float 0.4%float 0.5%float 0.8%float false);
    vm_compute; reflexivity.
Defined.

Lemma decide_best_method_label_consistent_witness :
  exists (m : method) (best_output : ndarray) (best_method : string),
    decide_best_method salient_scene (rgba_row 2 3) (rgba_row 3 2) (rgb_row 5)
      "in/photo.JPG" default_min_foreground_threshold
    = Ok (best_output, best_method)
    /\ best_output = candidate (rgba_row 2 3) (rgba_row 3 2) (rgb_row 5) m
    /\ best_method = method_label m.
Proof.
  assert (Hfg : foreground_pixel_analysis (rgba_row 2 3) = Ok 0.4%float)
    by (vm_compute; reflexivity).
  assert (Hgate : needs_background_removal salient_scene "in/photo.JPG"
                  = Ok false) by (vm_compute; reflexivity).
  destruct (decide_best_method_label_consistent salient_scene (rgba_row 2 3)
              (rgba_row 3 2) (rgb_row 5) "in/photo.JPG"
              default_min_foreground_threshold
              0.3%float 0.4%float 0.5%float 0.8%float false
              eq_refl Hfg eq_refl eq_refl Hgate)
    as (m & best_output & best_method & Hd & Hout & Hlabel & _).
  exists m, best_output, best_method. auto.
Defined.

(** C3, counterexample.  Identical candidates with half of the pixels kept:
    the three similarity scores are 1, the composite scores are 0.875 and
    0.125, not equal, and the decision is the network output under the
    label "U-2-Net", not the library output under "rembg"; in binary64 and
    in exact arithmetic alike. *)
Lemma identical_candidates_tie_counterexample :
  compare_images identical_scene (rgba_row 1 1) (rgba_row 1 1) = Ok 1%float
  /\ edge_similarity identical_scene (rgba_row 1 1) (rgba_row 1 1) = Ok 1%float
  /\ histogram_difference identical_scene (rgba_row 1 1) (rgba_row 1 1)
     = Ok 1%float
  /\ foreground_pixel_analysis (rgba_row 1 1) = Ok 0.5%float
  /\ u2net_score 1%float 0.5%float 1%float 1%float = 0.875%float
  /\ rembg_score 1%float 0.5%float 1%float 1%float = 0.125%float
  /\ PrimFloat.eqb 0.875 0.125 = false
  /\ decide_best_method identical_scene (rgba_row 1 1) (rgba_row 1 1)
       (rgb_row 2) "in/photo.JPG" default_min_foreground_threshold
     = Ok (rgba_row 1 1, "U-2-Net")
  /\ decide_best_method identical_scene_exact (rgba_row 1 1) (rgba_row 1 1)
       (rgb_row 2) "in/photo.JPG" default_min_foreground_threshold
     = Ok (rgba_row 1 1, "U-2-Net")
  /\ "U-2-Net" <> "rembg".
Proof.
  repeat split; try (vm_compute; reflexivity). discriminate.
Qed.

Lemma identical_candidates_resolve_to_u2net_witness :
  decide_best_method identical_scene (rgba_row 1 1) (rgba_row 1 1)
    (rgb_row 2) "in/photo.JPG" default_min_foreground_threshold
  = Ok (rgba_row 1 1, "U-2-Net").
Proof.
  apply (identical_candidates_resolve_to_u2net identical_scene
           (rgba_row 1 1) (rgb_row 2) "in/photo.JPG"
           default_min_foreground_threshold 0.5%float true [[255; 0]]);
    vm_compute; reflexivity.
Defined.

(** C9, counterexample.  In binary64 the scores of the metrics 0, 0, 0.1,
    0.3 add up to 0.99999999999999989, not to 1; and in the salient scene
    (metrics 0.3, 0.4, 0.5, 0.8) the score of the network output is exactly
    0.5, which is not above 1/2, that of the library output is
    0.49999999999999994 (the complements 0.7, 0.6, 0.5 and
    0.19999999999999996 add up to 1.9999999999999998), and the network
    output is returned. *)
Lemma composite_scores_binary64_counterexample :
  PrimFloat.add (u2net_score 0%float 0%float 0.1%float 0.3%float)
                (rembg_score 0%float 0%float 0.1%float 0.3%float)
  = 0.99999999999999989%float
  /\ PrimFloat.eqb 0.99999999999999989 1 = false
  /\ foreground_pixel_analysis (rgba_row 2 3) = Ok 0.4%float
  /\ needs_background_removal salient_scene "in/photo.JPG" = Ok false
  /\ u2net_score 0.3%float 0.4%float 0.5%float 0.8%float = 0.5%float
  /\ rembg_score 0.3%float 0.4%float 0.5%float 0.8%float
     = 0.49999999999999994%float
  /\ PrimFloat.ltb 0.5 0.5 = false
  /\ PrimFloat.leb 0.5 0.5 = true
  /\ decide_best_method salient_scene (rgba_row 2 3) (rgba_row 3 2) (rgb_row 5)
       "in/photo.JPG" default_min_foreground_threshold
     = Ok (rgba_row 2 3, "U-2-Net")
  /\ "U-2-Net" <> "rembg".
Proof.
  repeat split; try (vm_compute; reflexivity). discriminate.
Qed.


(* ================================================================== *)
(** ** File names *)

Lemma append_nil_r (s : string) : s ++ "" = s.
Proof. induction s as [| c s IH]; simpl; [reflexivity | now rewrite IH]. Qed.

Lemma append_assoc (a b c : string) : (a ++ b) ++ c = a ++ (b ++ c).
Proof. induction a as [| d a IH]; simpl; [reflexivity | now rewrite IH]. Qed.

Lemma length_append (a b : string) :
  String.length (a ++ b) = (String.length a + String.length b)%nat.
Proof. induction a as [| d a IH]; simpl; [reflexivity | now rewrite IH]. Qed.

Lemma substring_all (s : string) : substring 0 (String.length s) s = s.
Proof. induction s as [| c s IH]; simpl; [reflexivity | now rewrite IH]. Qed.

Lemma substring_append_left (a b : string) :
  substring 0 (String.length a) (a ++ b) = a.
Proof.
  induction a as [| c a IH]; simpl.
  - destruct b; reflexivity.
  - now rewrite IH.
Qed.

Lemma substring_append_right (a b : string) (k : nat) :
  substring (String.length a) k (a ++ b) = substring 0 k b.
Proof. induction a as [| c a IH]; simpl; [reflexivity | exact IH]. Qed.

(** A string is its first [i] characters followed by the rest. *)
Lemma substring_split (s : string) (i : nat) :
  (i <= String.length s)%nat ->
  s = substring 0 i s ++ substring i (String.length s - i) s.
Proof.
  revert i; induction s as [| c s IH]; intros i Hi; simpl in *.
  - destruct i; [reflexivity | lia].
  - destruct i as [| i]; simpl.
    + now rewrite substring_all.
    + f_equal. apply IH. lia.
Qed.

(** [endswith]: the suffix is what follows some prefix. *)
Lemma endswith_iff (s suffix : string) :
  endswith s suffix = true <-> exists base : string, s = base ++ suffix.
Proof.
  unfold endswith. rewrite andb_true_iff, Nat.leb_le, String.eqb_eq. split.
  - intros [Hle Hsub].
    exists (substring 0 (String.length s - String.length suffix) s).
    rewrite (substring_split s (String.length s - String.length suffix))
      at 1 by lia.
    f_equal. rewrite <- Hsub at 3. f_equal. lia.
  - intros [base ->]. rewrite length_append. split; [lia |].
    replace (String.length base + String.length suffix
             - String.length suffix)%nat
      with (String.length base) by lia.
    rewrite substring_append_right. apply substring_all.
Qed.

Lemma lower_append (a b : string) : lower (a ++ b) = lower a ++ lower b.
Proof. induction a as [| c a IH]; simpl; [reflexivity | now rewrite IH]. Qed.

Lemma length_lower (s : string) : String.length (lower s) = String.length s.
Proof. induction s as [| c s IH]; simpl; [reflexivity | now rewrite IH]. Qed.

Lemma lower_substring (s : string) (i k : nat) :
  lower (substring i k s) = substring i k (lower s).
Proof.
  revert i k; induction s as [| c s IH]; intros i k; simpl.
  - destruct i, k; reflexivity.
  - destruct i as [| i]; [destruct k as [| k] |]; simpl;
      rewrite ?IH; reflexivity.
Qed.

(** The test of the driver: the name ends, in any letter case, in the
    given suffix. *)
Lemma endswith_lower_iff (s suffix : string) :
  endswith (lower s) suffix = true
  <-> exists base e : string, s = base ++ e /\ lower e = suffix.
Proof.
  split.
  - intros Hend. pose proof Hend as Hend'.
    unfold endswith in Hend'.
    rewrite andb_true_iff, Nat.leb_le, String.eqb_eq, length_lower in Hend'.
    destruct Hend' as [Hle Hsub].
    exists (substring 0 (String.length s - String.length suffix) s),
           (substring (String.length s - String.length suffix)
                      (String.length suffix) s).
    split.
    + rewrite (substring_split s (String.length s - String.length suffix))
        at 1 by lia.
      do 2 f_equal. lia.
    + now rewrite lower_substring.
  - intros (base & e & -> & <-). rewrite lower_append.
    apply endswith_iff. now exists (lower base).
Qed.

Lemma image_name_iff (filename : string) :
  endswith_any (lower filename) image_extensions = true
  <-> exists base e : string,
        filename = base ++ e /\ In (lower e) [".jpg"; ".jpeg"; ".png"].
Proof.
  unfold endswith_any, image_extensions. rewrite existsb_exists. split.
  - intros (x & Hin & Hend). apply endswith_lower_iff in Hend.
    destruct Hend as (base & e & Hname & Hlow).
    exists base, e. split; [exact Hname | now rewrite Hlow].
  - intros (base & e & Hname & Hin). exists (lower e). split; [exact Hin |].
    apply endswith_lower_iff. now exists base, e.
Qed.

(** Lowering a letter neither creates nor removes a dot or a slash. *)
Lemma lower_ascii_dot (d : ascii) :
  Ascii.eqb (lower_ascii d) "." = Ascii.eqb d ".".
Proof. destruct d as [[] [] [] [] [] [] [] []]; reflexivity. Qed.

Lemma lower_ascii_slash (d : ascii) :
  Ascii.eqb (lower_ascii d) "/" = Ascii.eqb d "/".
Proof. destruct d as [[] [] [] [] [] [] [] []]; reflexivity. Qed.

Lemma contains_lower_dot (s : string) :
  contains "." (lower s) = contains "." s.
Proof.
  induction s as [| d s IH]; simpl; [reflexivity |].
  now rewrite lower_ascii_dot, IH.
Qed.

Lemma contains_lower_slash (s : string) :
  contains "/" (lower s) = contains "/" s.
Proof.
  induction s as [| d s IH]; simpl; [reflexivity |].
  now rewrite lower_ascii_slash, IH.
Qed.

Lemma contains_append (c : ascii) (a b : string) :
  contains c (a ++ b) = contains c a || contains c b.
Proof.
  induction a as [| d a IH]; simpl; [reflexivity |].
  now rewrite IH, orb_assoc.
Qed.

(** An image extension in any letter case: a dot followed by characters
    among which there is neither a dot nor a slash. *)
Lemma image_extension_shape (e : string) :
  In (lower e) [".jpg"; ".jpeg"; ".png"] ->
  exists r : string,
    e = String "." r /\ contains "." r = false /\ contains "/" r = false.
Proof.
  intros Hin.
  assert (Hshape : exists x, lower e = String "." x
                             /\ contains "." x = false
                             /\ contains "/" x = false).
  { simpl in Hin. destruct Hin as [<- | [<- | [<- | []]]];
      eexists; repeat split; reflexivity. }
  destruct Hshape as (x & Hlow & Hdot & Hslash).
  destruct e as [| d r]; [discriminate |]. simpl in Hlow.
  injection Hlow as Hd Hr. exists r.
  assert (Hd' : Ascii.eqb d "." = true)
    by (rewrite <- lower_ascii_dot, Hd; reflexivity).
  apply Ascii.eqb_eq in Hd'. subst d. repeat split.
  - now rewrite <- contains_lower_dot, Hr.
  - now rewrite <- contains_lower_slash, Hr.
Qed.

Lemma rfind_from_absent (c : ascii) (s : string) (i last : Z) :
  contains c s = false -> rfind_from c s i last = last.
Proof.
  revert i last; induction s as [| d s IH]; intros i last; simpl;
    [reflexivity |].
  rewrite orb_false_iff. intros [-> Hs]. now apply IH.
Qed.

Lemma rfind_from_last (c : ascii) (a r : string) (i last : Z) :
  contains c r = false ->
  rfind_from c (a ++ String c r) i last = (i + Z.of_nat (String.length a))%Z.
Proof.
  intros Hr. revert i last; induction a as [| d a IH]; intros i last; simpl.
  - rewrite Ascii.eqb_refl, rfind_from_absent by exact Hr. lia.
  - rewrite IH. lia.
Qed.

Lemma get_append_here (pre : string) (c : ascii) (rest : string) :
  String.get (String.length pre) (pre ++ String c rest) = Some c.
Proof. induction pre as [| d pre IH]; simpl; [reflexivity | exact IH]. Qed.

Lemma non_dot_before_found (pre base rest : string) :
  all_dots base = false ->
  non_dot_before (pre ++ base ++ rest) (String.length pre) (String.length base)
  = true.
Proof.
  revert pre; induction base as [| c base IH]; intros pre; simpl;
    [discriminate |].
  rewrite get_append_here.
  destruct (Ascii.eqb_spec c ".") as [-> | Hc]; simpl; [| reflexivity].
  intros Hbase. specialize (IH (pre ++ ".") Hbase).
  rewrite append_assoc, length_append in IH. simpl in IH.
  now rewrite Nat.add_1_r in IH.
Qed.

(** [os.path.splitext] on a bare name with an image extension and a base
    that is not made of dots only: the base and the extension. *)
Lemma os_path_splitext_image_name (base e : string) :
  In (lower e) [".jpg"; ".jpeg"; ".png"] ->
  contains "/" base = false ->
  all_dots base = false ->
  os_path_splitext (base ++ e) = (base, e).
Proof.
  intros He Hslash Hdots.
  destruct (image_extension_shape e He) as (r & -> & Hrdot & Hrslash).
  unfold os_path_splitext, rfind.
  rewrite (rfind_from_absent "/") by
    (rewrite contains_append; simpl; now rewrite Hslash, Hrslash).
  rewrite rfind_from_last by exact Hrdot. simpl Z.add.
  replace (Z.to_nat 0) with (String.length "") by reflexivity.
  rewrite Z.sub_0_r, Nat2Z.id.
  change (base ++ String "." r) with ("" ++ base ++ String "." r).
  rewrite non_dot_before_found by exact Hdots. simpl append.
  replace (-1 <? Z.of_nat (String.length base))%Z with true
    by (symmetry; apply Z.ltb_lt; lia).
  simpl andb. cbv iota.
  rewrite substring_append_left, length_append, substring_append_right.
  replace (String.length base + String.length (String "." r)
           - String.length base)%nat
    with (String.length (String "." r)) by lia.
  now rewrite substring_all.
Qed.

(** [os.path.join] with a bare name: the name is put under the directory. *)
Lemma os_path_join_bare (dir base : string) :
  contains "/" base = false ->
  os_path_join dir (base ++ ".png")
  = if String.eqb dir "" || endswith dir "/"
    then dir ++ base ++ ".png"
    else dir ++ "/" ++ base ++ ".png".
Proof.
  intros Hslash. unfold os_path_join.
  replace (startswith (base ++ ".png") "/") with false; [reflexivity |].
  destruct base as [| c base]; [reflexivity |].
  simpl in Hslash. apply orb_false_iff in Hslash as [Hc _].
  unfold startswith; simpl. destruct (base ++ ".png"); simpl; now rewrite Hc.
Qed.

(* ================================================================== *)
(** ** The directory driver *)


Lemma saved_nil (w : world) : saved w [] = w.
Proof. destruct w. unfold saved. simpl. now rewrite app_nil_r. Qed.

Lemma written_files_app (output_dir : string) (processed : string -> ndarray)
    (a b : list string) :
  written_files output_dir processed (a ++ b)%list
  = (written_files output_dir processed a
     ++ written_files output_dir processed b)%list.
Proof. unfold written_files. now rewrite filter_app, map_app. Qed.

(** One more save of an image name. *)
Lemma saved_one_more (output_dir : string) (processed : string -> ndarray)
    (w : world) (before : list string) (filename : string) :
  endswith_any (lower filename) image_extensions = true ->
  saved w (written_files output_dir processed (before ++ [filename]))
  = file_written
      (os_path_join output_dir (fst (os_path_splitext filename) ++ ".png"))
      (processed filename)
      (saved w (written_files output_dir processed before)).
Proof.
  intros Himg. rewrite written_files_app. unfold written_files at 2.
  cbn [filter]. rewrite Himg. unfold saved, file_written.
  cbn [map w_dirs w_files]. now rewrite app_assoc.
Qed.

(** A name that is no image name leaves no file. *)
Lemma saved_skip (output_dir : string) (processed : string -> ndarray)
    (w : world) (before : list string) (filename : string) :
  endswith_any (lower filename) image_extensions = false ->
  saved w (written_files output_dir processed (before ++ [filename]))
  = saved w (written_files output_dir processed before).
Proof.
  intros Himg. rewrite written_files_app. unfold written_files at 2.
  cbn [filter]. rewrite Himg. cbn [map]. now rewrite app_nil_r.
Qed.

(** Case analysis on the position of a name in a concrete listing:
    [Hsplit] says that the listing is [before ++ filename :: after], and
    the goal is closed by computation at every position. *)
Ltac each_position before Hsplit Himg :=
  repeat (destruct before as [| ? before]; cbn [app] in Hsplit;
          [ injection Hsplit as Hname Hafter; subst;
            first [ vm_compute; reflexivity
                  | vm_compute in Himg; discriminate Himg ]
          | injection Hsplit as Hname Hsplit; subst ]);
  destruct before; discriminate Hsplit.

Section DriverFacts.

Context {T : Type} `{Number T}.
Variable fs : filesystem.
Variable ext : externals T.
Variables input_dir output_dir : string.

(** The loop of the driver over [rest], after the names [done], when each
    image is processed and each save succeeds in the world the saves
    before it have left. *)
Lemma for_each_saved
    (processed : string -> ndarray) (rest done : list string) (w0 : world) :
  (forall filename,
      In filename rest ->
      endswith_any (lower filename) image_extensions = true ->
      process_image ext (os_path_join input_dir filename)
      = Ok (processed filename)) ->
  (forall before filename after,
      rest = (before ++ filename :: after)%list ->
      endswith_any (lower filename) image_extensions = true ->
      save_png fs
        (os_path_join output_dir (fst (os_path_splitext filename) ++ ".png"))
        (processed filename)
        (saved w0 (written_files output_dir processed (done ++ before)))
      = (Ok tt,
         file_written
           (os_path_join output_dir
              (fst (os_path_splitext filename) ++ ".png"))
           (processed filename)
           (saved w0 (written_files output_dir processed (done ++ before))))) ->
  for_each rest (process_entry fs ext input_dir output_dir)
    (saved w0 (written_files output_dir processed done))
  = (Ok tt, saved w0 (written_files output_dir processed (done ++ rest))).
Proof.
  revert done; induction rest as [| x rest IH]; intros done Hok Hsave.
  - simpl. now rewrite app_nil_r.
  - assert (Hrest :
      for_each rest (process_entry fs ext input_dir output_dir)
        (saved w0 (written_files output_dir processed (done ++ [x])))
      = (Ok tt,
         saved w0 (written_files output_dir processed
                     ((done ++ [x]) ++ rest)))).
    { apply IH.
      - intros filename Hin. apply Hok. now right.
      - intros before filename after -> Himg.
        rewrite <- app_assoc. cbn [app].
        apply (Hsave (x :: before) filename after); [reflexivity | exact Himg]. }
    rewrite <- app_assoc in Hrest. cbn [app] in Hrest.
    simpl for_each. unfold seq_stmt, process_entry.
    destruct (endswith_any (lower x) image_extensions) eqn:Hx.
    + unfold process_and_save. rewrite (Hok x (or_introl eq_refl) Hx).
      pose proof (Hsave [] x rest eq_refl Hx) as Hx_saved.
      rewrite app_nil_r in Hx_saved. rewrite Hx_saved.
      rewrite <- (saved_one_more output_dir processed w0 done x Hx).
      exact Hrest.
    + rewrite <- (saved_skip output_dir processed w0 done x Hx).
      exact Hrest.
Qed.

(** [process_directory], statement by statement. *)
Lemma process_directory_unfold (w : world) :
  process_directory fs ext input_dir output_dir w
  = if os_path_exists output_dir w
    then match os_listdir ext input_dir with
         | Ok names =>
             for_each names (process_entry fs ext input_dir output_dir) w
         | Raise e => (Raise e, w)
         end
    else match os_makedirs fs output_dir w with
         | (Ok _, w1) =>
             match os_listdir ext input_dir with
             | Ok names =>
                 for_each names (process_entry fs ext input_dir output_dir)
                   w1
             | Raise e => (Raise e, w1)
             end
         | (Raise e, w1) => (Raise e, w1)
         end.
Proof.
  unfold process_directory, seq_stmt.
  destruct (os_path_exists output_dir w); reflexivity.
Qed.

(** When the first statement returns, the loop starts in the world it
    has prepared. *)
Lemma process_directory_prepared (names : list string) (w : world) :
  os_listdir ext input_dir = Ok names ->
  (os_path_exists output_dir w = false ->
   fst (os_makedirs fs output_dir w) = Ok tt) ->
  process_directory fs ext input_dir output_dir w
  = for_each names (process_entry fs ext input_dir output_dir)
      (prepared fs output_dir w).
Proof.
  intros Hlist Hdir. rewrite process_directory_unfold, Hlist.
  unfold prepared. destruct (os_path_exists output_dir w); [reflexivity |].
  specialize (Hdir eq_refl).
  destruct (os_makedirs fs output_dir w) as [[u | e] w1]; simpl in *;
    [reflexivity | discriminate].
Qed.

(** C8.  The driver processes the names of the listing that end, in any
    letter case, in .jpg, .jpeg or .png, and passes over every other name
    without touching the world.  When the output directory is there or can
    be made, each of these images is processed without error and each save
    succeeds, the driver returns, having saved, in the order of the listing
    and in no other place, one file per such name: the processed image, in
    the output directory, under the name without its extension followed by
    .png (for a bare name whose part before the extension is not made of
    dots only, as [os.path.splitext] has it). *)
Theorem process_directory_writes_one_png_per_image :
  forall (names : list string) (processed : string -> ndarray) (w : world),
    os_listdir ext input_dir = Ok names ->
    (os_path_exists output_dir w = false ->
     fst (os_makedirs fs output_dir w) = Ok tt) ->
    (forall filename,
        In filename names ->
        endswith_any (lower filename) image_extensions = true ->
        process_image ext (os_path_join input_dir filename)
        = Ok (processed filename)) ->
    (forall before filename after,
        names = (before ++ filename :: after)%list ->
        endswith_any (lower filename) image_extensions = true ->
        save_png fs
          (os_path_join output_dir
             (fst (os_path_splitext filename) ++ ".png"))
          (processed filename)
          (saved (prepared fs output_dir w)
             (written_files output_dir processed before))
        = (Ok tt,
           file_written
             (os_path_join output_dir
                (fst (os_path_splitext filename) ++ ".png"))
             (processed filename)
             (saved (prepared fs output_dir w)
                (written_files output_dir processed before)))) ->
    fst (process_directory fs ext input_dir output_dir w) = Ok tt
    /\ w_dirs (snd (process_directory fs ext input_dir output_dir w))
       = w_dirs (prepared fs output_dir w)
    /\ w_files (snd (process_directory fs ext input_dir output_dir w))
       = (w_files (prepared fs output_dir w) ++
          map (fun filename =>
                 (os_path_join output_dir
                    (fst (os_path_splitext filename) ++ ".png"),
                  processed filename))
              (filter (fun filename =>
                         endswith_any (lower filename) image_extensions)
                      names))%list
    /\ (forall (filename : string) (w0 : world),
          endswith_any (lower filename) image_extensions = false ->
          process_entry fs ext input_dir output_dir filename w0 = (Ok tt, w0))
    /\ (forall filename,
          endswith_any (lower filename) image_extensions = true
          <-> exists base e : string,
                filename = base ++ e
                /\ In (lower e) [".jpg"; ".jpeg"; ".png"])
    /\ (forall base e : string,
          In (lower e) [".jpg"; ".jpeg"; ".png"] ->
          contains "/" base = false ->
          all_dots base = false ->
          os_path_join output_dir (fst (os_path_splitext (base ++ e)) ++ ".png")
          = if String.eqb output_dir "" || endswith output_dir "/"
            then output_dir ++ base ++ ".png"
            else output_dir ++ "/" ++ base ++ ".png").
Proof.
  intros names processed w Hlist Hdir Hok Hsave.
  rewrite (process_directory_prepared names w Hlist Hdir).
  pose proof (for_each_saved processed names [] (prepared fs output_dir w)
                Hok Hsave) as Hrun.
  change (written_files output_dir processed []) with
    (@nil (string * ndarray)) in Hrun.
  rewrite saved_nil in Hrun. cbn [app] in Hrun. rewrite Hrun.
  split; [reflexivity |]. split; [reflexivity |]. split; [reflexivity |].
  split; [| split].
  - intros filename w0 Hother. unfold process_entry. now rewrite Hother.
  - apply image_name_iff.
  - intros base e He Hslash Hdots.
    rewrite os_path_splitext_image_name by assumption.
    now apply os_path_join_bare.
Qed.


End DriverFacts.

(** *** The driver on concrete directories *)

(** Three images and one other file: three files are written, the other
    file is skipped. *)
Lemma process_directory_writes_one_png_per_image_witness :
  fst (process_directory plain_filesystem mixed_directory "in" "out"
         empty_world) = Ok tt
  /\ w_files (snd (process_directory plain_filesystem mixed_directory
                     "in" "out" empty_world))
     = [("out/a.png", salient_on_white); ("out/b.png", salient_on_white);
        ("out/c.png", salient_on_white)].
Proof.
  assert (Hok : forall filename : string,
             In filename ["a.JPG"; "notes.txt"; "b.jpeg"; "c.png"] ->
             endswith_any (lower filename) image_extensions = true ->
             process_image mixed_directory (os_path_join "in" filename)
             = Ok salient_on_white).
  { intros filename _ _. vm_compute. reflexivity. }
  pose proof (process_directory_writes_one_png_per_image plain_filesystem
                mixed_directory "in" "out"
                ["a.JPG"; "notes.txt"; "b.jpeg"; "c.png"]
                (fun _ => salient_on_white) empty_world eq_refl
                (fun _ => eq_refl) Hok) as Hall.
  lapply Hall.
  - intros (Hret & _ & Hfiles & _). split; [exact Hret | exact Hfiles].
  - intros before filename after Hsplit Himg.
    each_position before Hsplit Himg.
Defined.



(* ================================================================== *)
(** ** Further properties *)

Lemma count_nonzero_all (a : list (list Z)) :
  forallb (forallb (fun v => negb (v =? 0)%Z)) a = true ->
  count_nonzero a = array_size a.
Proof.
  unfold count_nonzero, array_size. intros Hall. f_equal. f_equal.
  induction a as [| row a IH]; simpl in *; [reflexivity |].
  apply andb_true_iff in Hall as [Hrow Ha].
  rewrite filter_app, IH by exact Ha. f_equal.
  clear IH Ha. induction row as [| v row IH]; simpl in *; [reflexivity |].
  apply andb_true_iff in Hrow as [-> Hrow]. now rewrite IH.
Qed.

Lemma count_nonzero_none (a : list (list Z)) :
  forallb (forallb (fun v => (v =? 0)%Z)) a = true ->
  count_nonzero a = 0%Z.
Proof.
  unfold count_nonzero. intros Hall.
  replace (filter (fun v => negb (v =? 0)%Z) (List.concat a)) with (@nil Z);
    [reflexivity |].
  induction a as [| row a IH]; simpl in *; [reflexivity |].
  apply andb_true_iff in Hall as [Hrow Ha].
  rewrite filter_app, <- IH by exact Ha. rewrite app_nil_r.
  clear IH Ha. induction row as [| v row IH]; simpl in *; [reflexivity |].
  apply andb_true_iff in Hrow as [-> Hrow]. simpl. now apply IH.
Qed.

(** X7.  In binary64, for an array of fewer than 2^53 pixels, the
    foreground ratio lies between 0.0 and 1.0; it is 1.0 when every pixel
    has a non-zero alpha and 0.0 when every pixel has alpha 0. *)
Theorem foreground_ratio_binary64 :
  forall (output_img : ndarray) (a : list (list Z)) (f : float),
    alpha_channel output_img = Ok a ->
    (array_size a < 2 ^ 53)%Z ->
    foreground_pixel_analysis output_img = Ok f ->
    PrimFloat.leb 0 f = true /\ PrimFloat.leb f 1 = true
    /\ (forallb (forallb (fun v => negb (v =? 0)%Z)) a = true -> f = 1%float)
    /\ (forallb (forallb (fun v => (v =? 0)%Z)) a = true -> f = 0%float).
Proof.
  intros output_img a f Ha Hsize Hf.
  apply foreground_pixel_analysis_returns in Hf.
  destruct Hf as (a' & Ha' & Hn & ->).
  assert (a' = a) by congruence. subst a'.
  pose proof (count_nonzero_bounds a) as Hc.
  destruct (ratio_binary64 (count_nonzero a) (array_size a) Hc
              (conj Hn Hsize)) as (H0 & H1 & Hzero & Hone).
  repeat split; try assumption.
  - intros Hall. apply Hone. now apply count_nonzero_all.
  - intros Hall. apply Hzero. now apply count_nonzero_none.
Qed.

(** One opaque pixel of four: the ratio is 0.25. *)
Lemma foreground_ratio_binary64_witness :
  foreground_pixel_analysis (rgba_row 1 3) = Ok 0.25%float
  /\ PrimFloat.leb 0 0.25 = true /\ PrimFloat.leb 0.25 1 = true.
Proof.
  assert (Hf : foreground_pixel_analysis (rgba_row 1 3) = Ok 0.25%float)
    by (vm_compute; reflexivity).
  assert (Hsize : (array_size [[255; 0; 0; 0]] < 2 ^ 53)%Z) by reflexivity.
  destruct (foreground_ratio_binary64 (rgba_row 1 3) [[255; 0; 0; 0]]
              0.25%float eq_refl Hsize Hf) as (H0 & H1 & _).
  repeat split; assumption.
Defined.

Section FurtherFacts.

Context {T : Type} `{Number T}.
Variable ext : externals T.

(** X3.  The scores are computed before the override is looked at: when
    the structural-similarity metric raises, [decide_best_method] raises
    the same exception, whatever the gate and the foreground ratio. *)
Theorem decide_best_method_metric_error :
  forall (output_u2net output_rembg original_image : ndarray)
         (image_path : string) (min_foreground_threshold : T) (e : exn),
    compare_images ext output_u2net output_rembg = Raise e ->
    decide_best_method ext output_u2net output_rembg original_image
      image_path min_foreground_threshold = Raise e.
Proof.
  intros A B original path threshold e He. unfold decide_best_method.
  now rewrite He.
Qed.

(** X4.  Whatever [process_image] returns with four channels has no fully
    transparent pixel. *)
Theorem process_image_opaque :
  forall (image_path : string) (processed : ndarray),
    process_image ext image_path = Ok processed ->
    img_channels processed = 4%nat ->
    count_transparent processed = 0%nat.
Proof.
  intros path processed. unfold process_image.
  destruct (cv2_cvtColor_BGR2RGB ext _) as [original | e]; simpl;
    [| discriminate].
  destruct (remove_background_u2net ext path) as [A | e]; simpl;
    [| discriminate].
  destruct (remove_background_rembg ext path) as [B | e]; simpl;
    [| discriminate].
  destruct (decide_best_method ext A B original path _) as [[best label] | e];
    simpl; [| discriminate].
  intros [= <-]. destruct best as [c rows].
  unfold replace_with_white_background; simpl.
  destruct (Nat.eqb_spec c 4) as [-> | Hc]; simpl.
  - intros _. apply count_transparent_whitened.
  - intros Hc'. contradiction.
Qed.

(** X5.  When the output directory is there or can be made, a listing
    without any name ending in .jpg, .jpeg or .png is walked through
    without anything being processed or saved: the driver returns in the
    world its first statement has left, which is the world it started in
    when the output path exists. *)
Theorem process_directory_skips_other_names :
  forall (fs : filesystem) (input_dir output_dir : string)
         (names : list string) (w : world),
    os_listdir ext input_dir = Ok names ->
    forallb (fun filename =>
               negb (endswith_any (lower filename) image_extensions))
            names = true ->
    (os_path_exists output_dir w = false ->
     fst (os_makedirs fs output_dir w) = Ok tt) ->
    process_directory fs ext input_dir output_dir w
    = (Ok tt, prepared fs output_dir w)
    /\ (os_path_exists output_dir w = true ->
        process_directory fs ext input_dir output_dir w = (Ok tt, w)).
Proof.
  intros fs input_dir output_dir names w Hlist Hnone Hdir.
  assert (Hloop : forall w0,
    for_each names (process_entry fs ext input_dir output_dir) w0
    = (Ok tt, w0)).
  { clear Hlist. induction names as [| x names IH]; intros w0;
      [reflexivity |].
    cbn [forallb] in Hnone. apply andb_true_iff in Hnone as [Hx Hrest].
    apply negb_true_iff in Hx. simpl for_each.
    unfold seq_stmt, process_entry at 1. rewrite Hx. now apply IH. }
  rewrite (process_directory_prepared fs ext input_dir output_dir names w
             Hlist Hdir), Hloop.
  split; [reflexivity |].
  intros Hexists. unfold prepared. now rewrite Hexists.
Qed.

End FurtherFacts.

Lemma decide_best_method_metric_error_witness :
  needs_background_removal failing_metric "in/photo.JPG" = Ok true
  /\ foreground_pixel_analysis (rgba_row 1 9) = Ok 0.1%float
  /\ decide_best_method failing_metric (rgba_row 1 9) (rgba_row 6 4)
       (rgb_row 10) "in/photo.JPG" default_min_foreground_threshold
     = Raise (LibraryError "ValueError").
Proof.
  split; [vm_compute; reflexivity |]. split; [vm_compute; reflexivity |].
  apply (decide_best_method_metric_error failing_metric). reflexivity.
Defined.

Lemma process_image_opaque_witness :
  count_transparent salient_on_white = 0%nat.
Proof.
  apply (process_image_opaque salient_scene "in/photo.JPG");
    vm_compute; reflexivity.
Defined.

Lemma process_directory_skips_other_names_witness :
  process_directory plain_filesystem no_images "in" "out" empty_world
  = (Ok tt, mkWorld ["out"] [])
  /\ process_directory plain_filesystem no_images "in" "out" blocked_world
     = (Ok tt, blocked_world).
Proof.
  split.
  - apply (process_directory_skips_other_names no_images plain_filesystem
             "in" "out" ["notes.txt"; "png"; "a.gif"] empty_world);
      reflexivity.
  - apply (process_directory_skips_other_names no_images plain_filesystem
             "in" "out" ["notes.txt"; "png"; "a.gif"] blocked_world);
      first [reflexivity | intros Habsent; discriminate Habsent].
Defined.

(* ================================================================== *)
(** ** Scores that are not numbers *)

Close Scope string_scope.

Lemma is_nan_spec (x : float) : is_nan x = true -> Prim2SF x = S754_nan.
Proof.
  unfold is_nan. rewrite eqb_spec. unfold SFeqb, SFcompare.
  destruct (Prim2SF x) as [s | s | | s m e]; try discriminate; auto.
  - destruct s; discriminate.
  - rewrite Z.compare_refl, Pos.compare_cont_refl. destruct s; discriminate.
Qed.

Lemma SFadd_nan_l (y : spec_float) : SFadd prec emax S754_nan y = S754_nan.
Proof. reflexivity. Qed.

Lemma SFadd_nan_r (x : spec_float) : SFadd prec emax x S754_nan = S754_nan.
Proof. destruct x; reflexivity. Qed.

Lemma SFltb_nan_r (x : spec_float) : SFltb x S754_nan = false.
Proof. destruct x; reflexivity. Qed.

Lemma SFltb_nan_l (x : spec_float) : SFltb S754_nan x = false.
Proof. reflexivity. Qed.

(** The score of the network output is not a number as soon as one of the
    four metrics is not. *)
Lemma u2net_score_nan (s f e h : float) :
  is_nan s || is_nan f || is_nan e || is_nan h = true ->
  Prim2SF (u2net_score s f e h) = S754_nan.
Proof.
  intros Hnan. unfold u2net_score.
  cbn [nadd ndiv of_int float_Number].
  rewrite div_spec, !add_spec.
  repeat (apply orb_true_iff in Hnan as [Hnan | Hnan]);
    apply is_nan_spec in Hnan; rewrite Hnan;
    rewrite ?SFadd_nan_l, ?SFadd_nan_r; reflexivity.
Qed.

Open Scope string_scope.

(** X8.  In binary64, when one of the four metrics is not a number and
    the override does not fire, the comparison of the two scores is false
    and the library output is returned. *)
Theorem decide_best_method_nan_metric :
  forall (ext : externals float)
         (output_u2net output_rembg original_image : ndarray)
         (image_path : string)
         (min_foreground_threshold : float)
         (score_ssim score_foreground score_edge score_hist : float)
         (gate : bool),
    compare_images ext output_u2net output_rembg = Ok score_ssim ->
    foreground_pixel_analysis output_u2net = Ok score_foreground ->
    edge_similarity ext output_u2net output_rembg = Ok score_edge ->
    histogram_difference ext output_u2net output_rembg = Ok score_hist ->
    needs_background_removal ext image_path = Ok gate ->
    gate && (score_foreground <? min_foreground_threshold)%num = false ->
    is_nan score_ssim || is_nan score_foreground
    || is_nan score_edge || is_nan score_hist = true ->
    decide_best_method ext output_u2net output_rembg original_image
      image_path min_foreground_threshold = Ok (output_rembg, "rembg").
Proof.
  intros ext A B original path threshold s f e h g Hs Hf He Hh Hg Hoff Hnan.
  rewrite (decide_best_method_returns ext A B original path threshold
             s f e h g) by assumption.
  rewrite Hoff.
  replace (u2net_score s f e h >? rembg_score s f e h)%num with false;
    [reflexivity |].
  unfold ngtb. cbn [nltb float_Number].
  rewrite ltb_spec, (u2net_score_nan s f e h Hnan). symmetry.
  apply SFltb_nan_r.
Qed.

Lemma decide_best_method_nan_metric_witness :
  decide_best_method nan_metric_scene (rgba_row 2 3) (rgba_row 3 2)
    (rgb_row 5) "in/photo.JPG" default_min_foreground_threshold
  = Ok (rgba_row 3 2, "rembg").
Proof.
  apply (decide_best_method_nan_metric nan_metric_scene (rgba_row 2 3)
           (rgba_row 3 2) (rgb_row 5) "in/photo.JPG"
           default_min_foreground_threshold nan 0.4%float 1%float 1%float
           false);
    vm_compute; reflexivity.
Defined.

(** X9.  In binary64, when the mean of the saliency map is not a number
    the gate is false: the override cannot fire, whatever the foreground
    ratio, and the comparator returns one of the two candidates. *)
Theorem needs_background_removal_nan :
  forall (ext : externals float)
         (output_u2net output_rembg original_image : ndarray)
         (image_path : string) (saliency_map : list (list float))
         (min_foreground_threshold : float)
         (score_ssim score_foreground score_edge score_hist : float),
    computeSaliency ext (cv2_imread_color ext image_path) = Ok saliency_map ->
    is_nan (np_mean ext saliency_map) = true ->
    compare_images ext output_u2net output_rembg = Ok score_ssim ->
    foreground_pixel_analysis output_u2net = Ok score_foreground ->
    edge_similarity ext output_u2net output_rembg = Ok score_edge ->
    histogram_difference ext output_u2net output_rembg = Ok score_hist ->
    needs_background_removal ext image_path = Ok false
    /\ (decide_best_method ext output_u2net output_rembg original_image
          image_path min_foreground_threshold
        = Ok (output_u2net, "U-2-Net")
        \/ decide_best_method ext output_u2net output_rembg original_image
             image_path min_foreground_threshold
           = Ok (output_rembg, "rembg")).
Proof.
  intros ext A B original path map threshold s f e h Hmap Hnan Hs Hf He Hh.
  assert (Hg : needs_background_removal ext path = Ok false).
  { unfold needs_background_removal. rewrite Hmap. simpl. f_equal.
    rewrite ltb_spec, (is_nan_spec _ Hnan). reflexivity. }
  split; [exact Hg |].
  rewrite (decide_best_method_returns ext A B original path threshold
             s f e h false) by assumption.
  cbn [andb]. destruct (u2net_score s f e h >? rembg_score s f e h)%num;
    [left | right]; reflexivity.
Qed.

Lemma needs_background_removal_nan_witness :
  needs_background_removal nan_saliency_scene "in/photo.JPG" = Ok false
  /\ foreground_pixel_analysis (rgba_row 1 9) = Ok 0.1%float
  /\ decide_best_method nan_saliency_scene (rgba_row 1 9) (rgba_row 6 4)
       (rgb_row 10) "in/photo.JPG" default_min_foreground_threshold
     = Ok (rgba_row 1 9, "U-2-Net").
Proof.
  destruct (needs_background_removal_nan nan_saliency_scene (rgba_row 1 9)
              (rgba_row 6 4) (rgb_row 10) "in/photo.JPG" [[nan]]
              default_min_foreground_threshold
              0.9%float 0.1%float 0.8%float 0.7%float
              eq_refl eq_refl eq_refl)
    as [Hgate _]; try (vm_compute; reflexivity).
  split; [exact Hgate |]. split; vm_compute; reflexivity.
Defined.

(* ================================================================== *)
(** ** The pipeline of one image *)

Section PipelineFacts.

Context {T : Type} `{Number T}.
Variable ext : externals T.

(** X10.  When the gate holds and the foreground ratio of the network
    output is below the default threshold, [process_image] returns the
    image it read, converted to RGB and otherwise untouched: the two
    candidates are dropped and an array without a fourth channel passes
    through the compositor as it is. *)
Theorem process_image_override_returns_original :
  forall (image_path : string)
         (original_image output_u2net output_rembg : ndarray)
         (score_ssim score_foreground score_edge score_hist : T),
    cv2_cvtColor_BGR2RGB ext (cv2_imread_unchanged ext image_path)
    = Ok original_image ->
    remove_background_u2net ext image_path = Ok output_u2net ->
    remove_background_rembg ext image_path = Ok output_rembg ->
    compare_images ext output_u2net output_rembg = Ok score_ssim ->
    foreground_pixel_analysis output_u2net = Ok score_foreground ->
    edge_similarity ext output_u2net output_rembg = Ok score_edge ->
    histogram_difference ext output_u2net output_rembg = Ok score_hist ->
    needs_background_removal ext image_path = Ok true ->
    (score_foreground <? default_min_foreground_threshold)%num = true ->
    img_channels original_image <> 4%nat ->
    process_image ext image_path = Ok original_image.
Proof.
  intros path original A B s f e h Hcvt HA HB Hs Hf He Hh Hg Hlow Hc.
  unfold process_image. rewrite Hcvt, HA, HB. cbn [bind].
  rewrite (decide_best_method_returns ext A B original path _ s f e h true)
    by assumption.
  rewrite Hlow. cbn [andb bind fst].
  unfold replace_with_white_background.
  apply Nat.eqb_neq in Hc. now rewrite Hc.
Qed.

End PipelineFacts.

Lemma process_image_override_returns_original_witness :
  process_image sparse_scene "in/photo.JPG" = Ok (rgb_row 10).
Proof.
  apply (process_image_override_returns_original sparse_scene "in/photo.JPG"
           (rgb_row 10) (rgba_row 1 9) (rgba_row 6 4)
           0.9%float 0.1%float 0.8%float 0.7%float);
    try (vm_compute; reflexivity).
  discriminate.
Defined.

(* ================================================================== *)
(** ** The directory driver: directories, names and overwriting *)

Lemma find_app {A : Type} (f : A -> bool) (l1 l2 : list A) :
  find f (l1 ++ l2)%list
  = match find f l1 with
    | Some x => Some x
    | None => find f l2
    end.
Proof.
  induction l1 as [| x l1 IH]; simpl; [reflexivity |].
  destruct (f x); [reflexivity | exact IH].
Qed.

Lemma find_all_false {A : Type} (f : A -> bool) (l : list A) :
  (forall x, In x l -> f x = false) -> find f l = None.
Proof.
  induction l as [| x l IH]; intros Hall; simpl; [reflexivity |].
  rewrite (Hall x (or_introl eq_refl)). apply IH.
  intros y Hy. apply Hall. now right.
Qed.

Lemma non_dot_before_all_dots (pre base rest : string) :
  all_dots base = true ->
  non_dot_before (pre ++ base ++ rest) (String.length pre) (String.length base)
  = false.
Proof.
  revert pre; induction base as [| c base IH]; intros pre; simpl;
    [reflexivity |].
  rewrite get_append_here. intros Hbase.
  apply andb_true_iff in Hbase as [Hc Hbase]. rewrite Hc.
  apply Ascii.eqb_eq in Hc. subst c.
  specialize (IH (pre ++ ".") Hbase).
  rewrite append_assoc, length_append in IH. simpl in IH.
  now rewrite Nat.add_1_r in IH.
Qed.

Lemma all_dots_no_slash (s : string) :
  all_dots s = true -> contains "/" s = false.
Proof.
  induction s as [| c s IH]; simpl; [reflexivity |].
  intros Hs. apply andb_true_iff in Hs as [Hc Hs].
  apply Ascii.eqb_eq in Hc. subst c. simpl. now apply IH.
Qed.

(** [os.path.splitext] on a name that is an image extension after dots
    only: leading dots are no extension separators, the root is the whole
    name. *)
Lemma os_path_splitext_dots (base e : string) :
  In (lower e) [".jpg"; ".jpeg"; ".png"] ->
  all_dots base = true ->
  os_path_splitext (base ++ e) = (base ++ e, "").
Proof.
  intros He Hdots.
  destruct (image_extension_shape e He) as (r & -> & Hrdot & Hrslash).
  unfold os_path_splitext, rfind.
  rewrite (rfind_from_absent "/") by
    (rewrite contains_append; simpl;
     now rewrite (all_dots_no_slash base Hdots), Hrslash).
  rewrite rfind_from_last by exact Hrdot. simpl Z.add.
  replace (Z.to_nat 0) with (String.length "") by reflexivity.
  rewrite Z.sub_0_r, Nat2Z.id.
  change (base ++ String "." r) with ("" ++ base ++ String "." r).
  rewrite non_dot_before_all_dots by exact Hdots.
  now rewrite andb_false_r.
Qed.

Section DriverFurtherFacts.

Context {T : Type} `{Number T}.
Variable fs : filesystem.
Variable ext : externals T.
Variables input_dir output_dir : string.

(** X11.  The first statement of the driver comes before the listing and
    is guarded by [os.path.exists].  Where the output path exists, as a
    directory or as a file, [os.makedirs] is not called: the driver does
    the same with any other [os.makedirs].  Where it does not exist and
    [os.makedirs] raises, the exception leaves the driver and the input
    directory is not listed: the outcome is the same for any other
    listing, metrics and removers.  Where [os.makedirs] returns and the
    listing raises, the exception leaves the driver in the world
    [os.makedirs] has left. *)
Theorem process_directory_creates_output_dir :
  forall w : world,
    (os_path_exists output_dir w = true ->
     forall makedirs : string -> stmt,
       process_directory
         {| os_makedirs := makedirs; save_png := save_png fs |}
         ext input_dir output_dir w
       = process_directory fs ext input_dir output_dir w)
    /\ (forall (e : exn) (w1 : world),
          os_path_exists output_dir w = false ->
          os_makedirs fs output_dir w = (Raise e, w1) ->
          forall other : externals T,
            process_directory fs other input_dir output_dir w
            = (Raise e, w1))
    /\ (forall (e : exn) (w1 : world),
          os_path_exists output_dir w = false ->
          os_makedirs fs output_dir w = (Ok tt, w1) ->
          os_listdir ext input_dir = Raise e ->
          process_directory fs ext input_dir output_dir w = (Raise e, w1)).
Proof.
  intros w. split; [| split].
  - intros Hexists makedirs. rewrite !process_directory_unfold, Hexists.
    destruct (os_listdir ext input_dir) as [names | e]; [| reflexivity].
    clear Hexists. revert w.
    induction names as [| x names IH]; intros w; [reflexivity |].
    simpl for_each. unfold seq_stmt.
    replace (process_entry
               {| os_makedirs := makedirs; save_png := save_png fs |}
               ext input_dir output_dir x w)
      with (process_entry fs ext input_dir output_dir x w) by reflexivity.
    destruct (process_entry fs ext input_dir output_dir x w)
      as [[u | e] w']; [apply IH | reflexivity].
  - intros e w1 Habsent Hmake other.
    now rewrite process_directory_unfold, Habsent, Hmake.
  - intros e w1 Habsent Hmake Hlist.
    now rewrite process_directory_unfold, Habsent, Hmake, Hlist.
Qed.

(** X12.  A file written by the driver holds the image of the last name
    that is written to it.  When the output directory is there or can be
    made, every image is processed and every save succeeds, the image of
    a name of the listing is what its output file holds at the end when
    no later image name has the same output path, whatever was written
    there for earlier names.  So of two names with one stem only the
    later one leaves its image. *)
Theorem process_directory_last_writer_wins :
  forall (before after : list string) (last : string)
         (processed : string -> ndarray) (w : world),
    os_listdir ext input_dir = Ok (before ++ last :: after)%list ->
    (os_path_exists output_dir w = false ->
     fst (os_makedirs fs output_dir w) = Ok tt) ->
    (forall filename,
        In filename (before ++ last :: after)%list ->
        endswith_any (lower filename) image_extensions = true ->
        process_image ext (os_path_join input_dir filename)
        = Ok (processed filename)) ->
    (forall earlier filename later,
        (before ++ last :: after)%list
        = (earlier ++ filename :: later)%list ->
        endswith_any (lower filename) image_extensions = true ->
        save_png fs
          (os_path_join output_dir
             (fst (os_path_splitext filename) ++ ".png"))
          (processed filename)
          (saved (prepared fs output_dir w)
             (written_files output_dir processed earlier))
        = (Ok tt,
           file_written
             (os_path_join output_dir
                (fst (os_path_splitext filename) ++ ".png"))
             (processed filename)
             (saved (prepared fs output_dir w)
                (written_files output_dir processed earlier)))) ->
    endswith_any (lower last) image_extensions = true ->
    (forall filename,
        In filename after ->
        endswith_any (lower filename) image_extensions = true ->
        os_path_join output_dir (fst (os_path_splitext filename) ++ ".png")
        <> os_path_join output_dir (fst (os_path_splitext last) ++ ".png")) ->
    file_content (snd (process_directory fs ext input_dir output_dir w))
      (os_path_join output_dir (fst (os_path_splitext last) ++ ".png"))
    = Some (processed last).
Proof.
  intros before after last processed w Hlist Hdir Hok Hsave Himg Hlater.
  rewrite (process_directory_prepared fs ext input_dir output_dir _ w
             Hlist Hdir).
  pose proof (for_each_saved fs ext input_dir output_dir processed
                (before ++ last :: after) [] (prepared fs output_dir w)
                Hok Hsave) as Hrun.
  change (written_files output_dir processed []) with
    (@nil (string * ndarray)) in Hrun.
  rewrite saved_nil in Hrun. cbn [app] in Hrun. rewrite Hrun.
  unfold file_content, saved. cbn [snd w_files].
  rewrite written_files_app.
  assert (Hcons :
    written_files output_dir processed (last :: after)
    = ((os_path_join output_dir (fst (os_path_splitext last) ++ ".png"),
        processed last)
       :: written_files output_dir processed after)).
  { unfold written_files. cbn [filter]. now rewrite Himg. }
  rewrite Hcons, !rev_app_distr. cbn [rev]. rewrite <- !app_assoc.
  rewrite find_app, find_all_false.
  - cbn [app find fst snd]. now rewrite String.eqb_refl.
  - intros [p img] Hin. apply in_rev in Hin. unfold written_files in Hin.
    apply in_map_iff in Hin as (name & [= <- _] & Hname).
    apply filter_In in Hname as [Hin Hext]. cbn [fst].
    apply String.eqb_neq. intros Heq. symmetry in Heq.
    exact (Hlater name Hin Hext Heq).
Qed.

(** X13.  A name that is an image extension and nothing else, or only
    dots before it, has no extension for [os.path.splitext]: the driver
    processes the file and saves the result under its whole name followed
    by .png. *)
Theorem process_entry_dot_name :
  forall (base e : string) (processed : ndarray) (w : world),
    In (lower e) [".jpg"; ".jpeg"; ".png"] ->
    all_dots base = true ->
    process_image ext (os_path_join input_dir (base ++ e)) = Ok processed ->
    process_entry fs ext input_dir output_dir (base ++ e) w
    = save_png fs (os_path_join output_dir (base ++ e ++ ".png"))
        processed w.
Proof.
  intros base e processed w He Hdots Hok. unfold process_entry.
  assert (Himg : endswith_any (lower (base ++ e)) image_extensions = true)
    by (apply image_name_iff; now exists base, e).
  rewrite Himg, (os_path_splitext_dots base e He Hdots). cbn [fst].
  unfold process_and_save. rewrite Hok.
  now rewrite append_assoc.
Qed.

End DriverFurtherFacts.

(** A regular file named out: nothing is made; no directory out and
    nothing to be made under the file out: the input directory is not
    listed; a missing input directory: out stays. *)
Lemma process_directory_creates_output_dir_witness :
  process_directory
    {| os_makedirs := fun _ w => (Raise (LibraryError "unused"), w);
       save_png := save_png plain_filesystem |}
    no_images "in" "out" blocked_world
  = (Ok tt, blocked_world)
  /\ process_directory plain_filesystem mixed_directory "in" "out/cut"
       blocked_world
     = (Raise (LibraryError "NotADirectoryError"), blocked_world)
  /\ process_directory plain_filesystem missing_input_directory "in" "out"
       empty_world
     = (Raise (LibraryError "FileNotFoundError"), mkWorld ["out"] []).
Proof.
  split; [| split].
  - destruct (process_directory_creates_output_dir plain_filesystem
                no_images "in" "out" blocked_world) as (Hthere & _).
    rewrite (Hthere eq_refl). vm_compute. reflexivity.
  - destruct (process_directory_creates_output_dir plain_filesystem
                no_images "in" "out/cut" blocked_world) as (_ & Hmake & _).
    apply (Hmake _ _ eq_refl eq_refl).
  - destruct (process_directory_creates_output_dir plain_filesystem
                missing_input_directory "in" "out" empty_world)
      as (_ & _ & Hlist).
    apply (Hlist _ _ eq_refl eq_refl eq_refl).
Defined.

Lemma process_directory_last_writer_wins_witness :
  w_files (snd (process_directory plain_filesystem same_stem_directory
                  "in" "out" empty_world))
  = [("out/a.png", salient_on_white); ("out/a.png", mostly_kept_on_white)]
  /\ file_content
       (snd (process_directory plain_filesystem same_stem_directory
               "in" "out" empty_world))
       "out/a.png"
     = Some mostly_kept_on_white.
Proof.
  split; [vm_compute; reflexivity |].
  apply (process_directory_last_writer_wins plain_filesystem
           same_stem_directory "in" "out"
           ["a.jpg"] [] "a.png"
           (fun name => if String.eqb name "a.jpg" then salient_on_white
                        else mostly_kept_on_white)
           empty_world eq_refl).
  - reflexivity.
  - intros filename [<- | [<- | []]] _; vm_compute; reflexivity.
  - intros earlier filename later Hsplit Himg. cbn [app] in Hsplit.
    each_position earlier Hsplit Himg.
  - reflexivity.
  - intros filename [].
Defined.

Lemma process_entry_dot_name_witness :
  process_entry plain_filesystem hidden_file_directory "in" "out" ".png"
    (mkWorld ["out"] [])
  = (Ok tt, mkWorld ["out"] [("out/.png.png", salient_on_white)]).
Proof.
  rewrite (process_entry_dot_name plain_filesystem hidden_file_directory
             "in" "out" "" ".png" salient_on_white (mkWorld ["out"] [])).
  - reflexivity.
  - simpl. auto.
  - reflexivity.
  - vm_compute. reflexivity.
Defined.

(* ================================================================== *)
(** ** The network candidate *)

(** *** Indexing *)

Lemma zip_with_cons {A B C : Type} (f : A -> B -> C)
    (x : A) (l : list A) (y : B) (m : list B) :
  zip_with f (x :: l) (y :: m) = f x y :: zip_with f l m.
Proof. reflexivity. Qed.

Lemma nth_error_zip_with {A B C : Type} (f : A -> B -> C)
    (l : list A) (m : list B) (i : nat) :
  nth_error (zip_with f l m) i
  = match nth_error l i, nth_error m i with
    | Some x, Some y => Some (f x y)
    | _, _ => None
    end.
Proof.
  revert m i; induction l as [| x l IH]; intros m i.
  - destruct i; reflexivity.
  - destruct m as [| y m].
    + destruct i; simpl; [reflexivity |]. now destruct (nth_error l i).
    + destruct i; [reflexivity |]. rewrite zip_with_cons. simpl. apply IH.
Qed.

Lemma at2_map {A B : Type} (f : A -> B) (a : list (list A)) (i j : nat) :
  at2 (map (map f) a) i j = option_map f (at2 a i j).
Proof.
  unfold at2. rewrite nth_error_map.
  destruct (nth_error a i) as [row |]; simpl; [| reflexivity].
  apply nth_error_map.
Qed.

Lemma at2_zip_with {A B C : Type} (f : A -> B -> C)
    (a : list (list A)) (b : list (list B)) (i j : nat) :
  at2 (zip_with (zip_with f) a b) i j
  = match at2 a i j, at2 b i j with
    | Some x, Some y => Some (f x y)
    | _, _ => None
    end.
Proof.
  unfold at2. rewrite nth_error_zip_with.
  destruct (nth_error a i) as [ra |]; [| reflexivity].
  destruct (nth_error b i) as [rb |].
  - apply nth_error_zip_with.
  - now destruct (nth_error ra j).
Qed.

(** *** The mask *)

Lemma binary_mask_value_cases (p : Segmentation.float32) :
  Segmentation.binary_mask_value p
  = if SFltb Segmentation.float32_half p then 255 else 0.
Proof.
  unfold Segmentation.binary_mask_value.
  now destruct (SFltb Segmentation.float32_half p).
Qed.

Section SegmentationFacts.

Context {array other : Type}.
Variable c : Segmentation.collaborators array other.

Lemma postprocess_returns (output : array) (orig_size : nat * nat)
    (mask : list (list Z)) :
  Segmentation.postprocess c output orig_size = Ok mask ->
  exists probabilities : list (list Segmentation.float32),
    Segmentation.cv2_resize c (Segmentation.np_squeeze c output) orig_size
    = Ok probabilities
    /\ mask = map (map Segmentation.binary_mask_value) probabilities.
Proof.
  unfold Segmentation.postprocess.
  destruct (Segmentation.cv2_resize c _ orig_size) as [probabilities | e];
    simpl; [| discriminate].
  intros [= <-]. now exists probabilities.
Qed.

(** X14.  The mask [postprocess] returns has the shape of the resized
    output of the network and holds only the values 0 and 255: 255 where
    the resized output is greater than 0.5, and 0 elsewhere, also where it
    is 0.5 or not a number. *)
Theorem postprocess_binary_mask :
  forall (output : array) (orig_size : nat * nat) (mask : list (list Z)),
    Segmentation.postprocess c output orig_size = Ok mask ->
    exists probabilities : list (list Segmentation.float32),
      Segmentation.cv2_resize c (Segmentation.np_squeeze c output) orig_size
      = Ok probabilities
      /\ map (@List.length Z) mask
         = map (@List.length Segmentation.float32) probabilities
      /\ (forall (i j : nat) (p : Segmentation.float32),
            at2 probabilities i j = Some p ->
            at2 mask i j
            = Some (if SFltb Segmentation.float32_half p then 255 else 0))
      /\ (forall (i j : nat) (v : Z),
            at2 mask i j = Some v -> v = 0 \/ v = 255)
      /\ Segmentation.binary_mask_value Segmentation.float32_half = 0
      /\ Segmentation.binary_mask_value S754_nan = 0.
Proof.
  intros output orig_size mask Hpost.
  destruct (postprocess_returns output orig_size mask Hpost)
    as (probabilities & Hresize & ->).
  exists probabilities. split; [exact Hresize |]. split; [| split; [| split]].
  - rewrite map_map. apply map_ext. intros row. apply length_map.
  - intros i j p Hp. rewrite at2_map, Hp. simpl.
    now rewrite binary_mask_value_cases.
  - intros i j v. rewrite at2_map.
    destruct (at2 probabilities i j) as [p |]; simpl; [| discriminate].
    intros [= <-]. rewrite binary_mask_value_cases.
    destruct (SFltb Segmentation.float32_half p); auto.
  - split; reflexivity.
Qed.


Lemma remove_background_u2net_returns (image_path : string) (a : ndarray)
    (pre : Segmentation.tensor * (nat * nat)) (output : array)
    (mask : list (list Z)) :
  Segmentation.cv2_imread c image_path = Segmentation.Uint8Image a ->
  Segmentation.preprocess c image_path = Ok pre ->
  Segmentation.session_run c (fst pre) = Ok output ->
  Segmentation.postprocess c output (snd pre) = Ok mask ->
  Segmentation.same_size_and_type a mask = true ->
  Segmentation.remove_background_u2net c image_path
  = Ok (Segmentation.cut_out a mask).
Proof.
  intros Hread Hpre Hrun Hpost Hsame.
  unfold Segmentation.remove_background_u2net.
  rewrite Hread, Hpre. cbn [bind]. rewrite Hrun. cbn [bind].
  rewrite Hpost. cbn [bind]. now rewrite Hsame.
Qed.

End SegmentationFacts.

(** *** The cut-out *)

Lemma land_255 (x : Z) : is_uint8 x = true -> Z.land x 255 = x.
Proof.
  unfold is_uint8. intros Hx. apply andb_true_iff in Hx as [H0 H1].
  apply Z.leb_le in H0, H1.
  change 255 with (Z.ones 8). rewrite Z.land_ones by lia.
  apply Z.mod_small. change (2 ^ 8) with 256. lia.
Qed.

(** One pixel of the cut-out. *)
Lemma cut_out_pixel (a : ndarray) (mask : list (list Z)) (i j : nat)
    (b g r v : Z) :
  pixel_at a i j = Some [b; g; r] ->
  at2 mask i j = Some v ->
  pixel_at (Segmentation.cut_out a mask) i j
  = Some [Z.land r v; Z.land g v; Z.land b v; v].
Proof.
  intros Hp Hv.
  change (@at2 (list Z) (img_rows a) i j = Some [b; g; r]) in Hp.
  unfold pixel_at.
  unfold Segmentation.cut_out, Segmentation.cv2_cvtColor_BGRA2RGBA,
    Segmentation.set_channel_3, Segmentation.cv2_cvtColor_BGR2BGRA,
    Segmentation.cv2_bitwise_and, Segmentation.channel,
    Segmentation.cv2_cvtColor_GRAY2BGR.
  cbn [img_rows img_channels].
  match goal with
  | |- match nth_error ?rows i with _ => _ end = _ =>
      change (at2 rows i j = Some [Z.land r v; Z.land g v; Z.land b v; v])
  end.
  rewrite at2_map, at2_zip_with, !at2_map, at2_zip_with, at2_map, Hp, Hv.
  reflexivity.
Qed.

(** The alpha values of one row of the cut-out are the row of the mask. *)
Lemma cut_out_row_alpha (row : list pixel) (mrow : list Z) :
  List.length row = List.length mrow ->
  forallb (fun p => Nat.eqb (List.length p) 3) row = true ->
  map alpha
    (map (fun p => [nth 2 p 0; nth 1 p 0; nth 0 p 0; nth 3 p 0])
       (zip_with (fun p v => (firstn 3 p ++ v :: skipn 4 p)%list)
          (map (fun p => (p ++ [255])%list)
             (zip_with (zip_with Z.land) row
                (map (fun v => [v; v; v]) mrow)))
          (map (fun p => nth 0 p 0) (map (fun v => [v; v; v]) mrow))))
  = mrow.
Proof.
  revert mrow; induction row as [| p row IH]; intros [| v mrow] Hlen Hwf;
    try discriminate; [reflexivity |].
  simpl in Hlen, Hwf. apply andb_true_iff in Hwf as [Hp Hwf].
  injection Hlen as Hlen.
  cbn [map]. rewrite zip_with_cons. cbn [map]. rewrite zip_with_cons.
  cbn [map]. rewrite (IH mrow Hlen Hwf). f_equal.
  destruct p as [| b [| g [| r [| x p]]]]; try discriminate. reflexivity.
Qed.

Lemma cut_out_alpha (a : ndarray) (mask : list (list Z)) :
  Segmentation.same_size a mask = true ->
  wf_image a = true -> img_channels a = 3%nat ->
  alpha_channel (Segmentation.cut_out a mask) = Ok mask.
Proof.
  intros Hsame Hwf Hc.
  unfold alpha_channel, Segmentation.cut_out,
    Segmentation.cv2_cvtColor_BGRA2RGBA, Segmentation.set_channel_3,
    Segmentation.cv2_cvtColor_BGR2BGRA, Segmentation.cv2_bitwise_and,
    Segmentation.channel, Segmentation.cv2_cvtColor_GRAY2BGR.
  cbn [img_rows img_channels]. change (Nat.ltb 3 4) with true. cbv iota.
  f_equal.
  unfold Segmentation.same_size in Hsame. unfold wf_image in Hwf.
  rewrite Hc in Hwf. apply andb_true_iff in Hsame as [Hrows Hcols].
  apply Nat.eqb_eq in Hrows.
  destruct a as [ch rows]. cbn [img_rows] in *. clear Hc ch.
  revert mask Hrows Hcols; induction rows as [| row rows IH];
    intros [| mrow mask] Hrows Hcols; try discriminate; [reflexivity |].
  simpl in Hrows, Hcols, Hwf.
  apply andb_true_iff in Hwf as [Hrow Hwf].
  apply andb_true_iff in Hcols as [Hlen Hcols].
  apply Nat.eqb_eq in Hlen. injection Hrows as Hrows.
  cbn [map]. rewrite zip_with_cons. cbn [map]. rewrite zip_with_cons.
  cbn [map]. rewrite (IH Hwf mask Hrows Hcols). f_equal.
  now apply cut_out_row_alpha.
Qed.

Lemma count_nonzero_mask (probabilities : list (list Segmentation.float32)) :
  count_nonzero (map (map Segmentation.binary_mask_value) probabilities)
  = Z.of_nat (List.length
                (filter (SFltb Segmentation.float32_half)
                        (List.concat probabilities)))
  /\ array_size (map (map Segmentation.binary_mask_value) probabilities)
     = Z.of_nat (List.length (List.concat probabilities)).
Proof.
  unfold count_nonzero, array_size. rewrite <- concat_map.
  split; f_equal; [| apply length_map].
  induction (List.concat probabilities) as [| p l IH]; [reflexivity |].
  cbn [map filter]. rewrite binary_mask_value_cases.
  destruct (SFltb Segmentation.float32_half p); simpl; now rewrite IH.
Qed.

Section CutOutFacts.

Context {array other : Type}.
Variable c : Segmentation.collaborators array other.

(** X15.  On a file that OpenCV decodes to an 8-bit image of three
    channels and of the size of the mask, [remove_background_u2net] returns
    an array of four channels in which every pixel is either kept or
    cleared: where the mask is 255 it has the colour of the image, in the
    order RGB, and alpha 255; where the mask is 0 it is black and fully
    transparent. *)
Theorem remove_background_u2net_pixels :
  forall (image_path : string) (a : ndarray)
         (pre : Segmentation.tensor * (nat * nat)) (output : array)
         (mask : list (list Z)),
    Segmentation.cv2_imread c image_path = Segmentation.Uint8Image a ->
    Segmentation.preprocess c image_path = Ok pre ->
    Segmentation.session_run c (fst pre) = Ok output ->
    Segmentation.postprocess c output (snd pre) = Ok mask ->
    Segmentation.same_size_and_type a mask = true ->
    exists out : ndarray,
      Segmentation.remove_background_u2net c image_path = Ok out
      /\ img_channels out = 4%nat
      /\ (forall (i j : nat) (b g r v : Z),
            pixel_at a i j = Some [b; g; r] ->
            is_uint8 b && is_uint8 g && is_uint8 r = true ->
            at2 mask i j = Some v ->
            (v = 255 /\ pixel_at out i j = Some [r; g; b; 255])
            \/ (v = 0 /\ pixel_at out i j = Some [0; 0; 0; 0])).
Proof.
  intros path a pre output mask Hread Hpre Hrun Hpost Hsame.
  exists (Segmentation.cut_out a mask).
  split; [now apply (remove_background_u2net_returns c path a pre output) |].
  split; [reflexivity |].
  intros i j b g r v Hp Hbytes Hv.
  apply andb_true_iff in Hbytes as [Hbytes Hr].
  apply andb_true_iff in Hbytes as [Hb Hg].
  rewrite (cut_out_pixel a mask i j b g r v Hp Hv).
  destruct (postprocess_returns c output (snd pre) mask Hpost)
    as (probabilities & _ & ->).
  rewrite at2_map in Hv.
  destruct (at2 probabilities i j) as [p |]; [| discriminate].
  injection Hv as <-. rewrite binary_mask_value_cases.
  destruct (SFltb Segmentation.float32_half p).
  - left. split; [reflexivity |]. now rewrite !land_255.
  - right. split; [reflexivity |]. now rewrite !Z.land_0_r.
Qed.

(** X16.  On such a file the alpha channel of what
    [remove_background_u2net] returns is the mask itself, so the
    foreground ratio the comparator computes for the network candidate is
    the share of the pixels at which the resized output of the network is
    greater than 0.5. *)
Theorem remove_background_u2net_foreground :
  forall (T : Type) (N : Number T) (image_path : string) (a : ndarray)
         (pre : Segmentation.tensor * (nat * nat)) (output : array)
         (probabilities : list (list Segmentation.float32))
         (mask : list (list Z)),
    Segmentation.cv2_imread c image_path = Segmentation.Uint8Image a ->
    wf_image a = true ->
    Segmentation.preprocess c image_path = Ok pre ->
    Segmentation.session_run c (fst pre) = Ok output ->
    Segmentation.cv2_resize c (Segmentation.np_squeeze c output) (snd pre)
    = Ok probabilities ->
    mask = map (map Segmentation.binary_mask_value) probabilities ->
    Segmentation.same_size_and_type a mask = true ->
    exists out : ndarray,
      Segmentation.remove_background_u2net c image_path = Ok out
      /\ alpha_channel out = Ok mask
      /\ @foreground_pixel_analysis T N out
         = Ok (of_int
                 (Z.of_nat
                    (List.length
                       (filter (SFltb Segmentation.float32_half)
                               (List.concat probabilities))))
               / of_int (Z.of_nat (List.length (List.concat probabilities))))%num.
Proof.
  intros T N path a pre output probabilities mask Hread Hwf Hpre Hrun
    Hresize Hmask Hsame.
  assert (Hpost : Segmentation.postprocess c output (snd pre) = Ok mask).
  { unfold Segmentation.postprocess. rewrite Hresize. simpl. now subst. }
  exists (Segmentation.cut_out a mask).
  split; [now apply (remove_background_u2net_returns c path a pre output) |].
  unfold Segmentation.same_size_and_type in Hsame.
  apply andb_true_iff in Hsame as [Hsame Hnonempty].
  apply andb_true_iff in Hsame as [Hc Hsize].
  apply Nat.eqb_eq in Hc.
  pose proof (cut_out_alpha a mask Hsize Hwf Hc) as Halpha.
  split; [exact Halpha |].
  unfold foreground_pixel_analysis. rewrite Halpha. cbn [bind].
  apply negb_true_iff in Hnonempty. rewrite Hnonempty.
  destruct (count_nonzero_mask probabilities) as [Hcount Hsz].
  subst mask. now rewrite Hcount, Hsz.
Qed.

End CutOutFacts.

(** *** The network candidate through the pipeline *)

Section NetworkPipelineFacts.

Context {T : Type} `{Number T} {array other : Type}.
Variable ext : externals T.
Variable c : Segmentation.collaborators array other.

(** X17.  When the comparator keeps the network candidate,
    [process_image] returns the image cut by the mask on a white
    background, all of it opaque: where the mask is 255 the colour of the
    image in the order RGB, where the mask is 0 white. *)
Theorem process_image_network_candidate :
  forall (image_path : string) (a : ndarray)
         (pre : Segmentation.tensor * (nat * nat)) (output : array)
         (mask : list (list Z)) (original_image output_rembg : ndarray)
         (label : string),
    Segmentation.cv2_imread c image_path = Segmentation.Uint8Image a ->
    Segmentation.preprocess c image_path = Ok pre ->
    Segmentation.session_run c (fst pre) = Ok output ->
    Segmentation.postprocess c output (snd pre) = Ok mask ->
    Segmentation.same_size_and_type a mask = true ->
    cv2_cvtColor_BGR2RGB ext (cv2_imread_unchanged ext image_path)
    = Ok original_image ->
    remove_background_rembg ext image_path = Ok output_rembg ->
    decide_best_method (with_segmentation ext c)
      (Segmentation.cut_out a mask) output_rembg original_image image_path
      default_min_foreground_threshold
    = Ok (Segmentation.cut_out a mask, label) ->
    exists processed : ndarray,
      process_image (with_segmentation ext c) image_path = Ok processed
      /\ img_channels processed = 4%nat
      /\ (forall (i j : nat) (b g r v : Z),
            pixel_at a i j = Some [b; g; r] ->
            is_uint8 b && is_uint8 g && is_uint8 r = true ->
            at2 mask i j = Some v ->
            (v = 255 /\ pixel_at processed i j = Some [r; g; b; 255])
            \/ (v = 0 /\ pixel_at processed i j = Some white)).
Proof.
  intros path a pre output mask original B label Hread Hpre Hrun Hpost
    Hsame Hcvt HB Hdecide.
  exists (replace_with_white_background (Segmentation.cut_out a mask)).
  split; [| split; [reflexivity |]].
  - unfold process_image.
    cbn [with_segmentation cv2_imread_unchanged cv2_cvtColor_BGR2RGB
         remove_background_u2net remove_background_rembg].
    rewrite Hcvt. cbn [bind].
    rewrite (remove_background_u2net_returns c path a pre output mask)
      by assumption.
    cbn [bind]. rewrite HB. cbn [bind]. rewrite Hdecide. reflexivity.
  - intros i j b g r v Hp Hbytes Hv.
    apply andb_true_iff in Hbytes as [Hbytes Hr].
    apply andb_true_iff in Hbytes as [Hb Hg].
    pose proof (cut_out_pixel a mask i j b g r v Hp Hv) as Hout.
    assert (Hfinal :
      pixel_at (replace_with_white_background (Segmentation.cut_out a mask))
        i j
      = Some (whiten [Z.land r v; Z.land g v; Z.land b v; v])).
    { unfold replace_with_white_background.
      change (img_channels (Segmentation.cut_out a mask)) with 4%nat.
      cbn [Nat.eqb]. unfold pixel_at in *. cbn [img_rows].
      rewrite nth_error_map.
      destruct (nth_error (img_rows (Segmentation.cut_out a mask)) i)
        as [row |]; [| discriminate].
      cbn [option_map]. now rewrite nth_error_map, Hout. }
    rewrite Hfinal.
    destruct (postprocess_returns c output (snd pre) mask Hpost)
      as (probabilities & _ & ->).
    rewrite at2_map in Hv.
    destruct (at2 probabilities i j) as [p |]; [| discriminate].
    injection Hv as <-. rewrite binary_mask_value_cases.
    destruct (SFltb Segmentation.float32_half p).
    + left. split; [reflexivity |]. now rewrite !land_255.
    + right. split; reflexivity.
Qed.

End NetworkPipelineFacts.

(** *** The input of the network *)

Lemma nth_error_seq_lt (s n i : nat) :
  (i < n)%nat -> nth_error (seq s n) i = Some (s + i)%nat.
Proof.
  revert s i; induction n as [| n IH]; intros s i Hi; [lia |].
  destruct i as [| i]; simpl; [f_equal; lia |].
  rewrite IH by lia. f_equal. lia.
Qed.

Section PreprocessFacts.

Context {array other : Type}.
Variable c : Segmentation.collaborators array other.

(** X18.  [preprocess] returns the size (width, height) of the image as
    it was opened, not of the resized one, and a tensor of one batch in the
    layout (1, C, H, W): the entry [0][ch][y][x] is the value of channel
    [ch] of the pixel (y, x) of the resized image, divided by 255. *)
Theorem preprocess_tensor :
  forall (image_path : string) (t : Segmentation.tensor) (size : nat * nat),
    Segmentation.preprocess c image_path = Ok (t, size) ->
    exists image resized : ndarray,
      Segmentation.PIL_open_RGB c image_path = Ok image
      /\ Segmentation.PIL_resize c image (320, 320)%nat = Ok resized
      /\ size = (List.length (hd [] (img_rows image)),
                 List.length (img_rows image))
      /\ List.length t = 1%nat
      /\ (forall planes, nth_error t 0 = Some planes ->
            List.length planes = img_channels resized)
      /\ (forall (ch y x : nat) (p : pixel) (v : Z),
            (ch < img_channels resized)%nat ->
            pixel_at resized y x = Some p ->
            nth_error p ch = Some v ->
            Segmentation.tensor_at t 0 ch y x
            = Some (Segmentation.normalize v)).
Proof.
  intros path t size. unfold Segmentation.preprocess.
  destruct (Segmentation.PIL_open_RGB c path) as [image | e] eqn:Hopen;
    cbn [bind]; [| discriminate].
  destruct (Segmentation.PIL_resize c image (320, 320)%nat)
    as [resized | e] eqn:Hresize; cbn [bind]; [| discriminate].
  intros [= <- <-]. exists image, resized.
  split; [reflexivity |]. split; [exact Hresize |].
  split; [reflexivity |]. split; [reflexivity |]. split.
  - intros planes [= <-]. unfold Segmentation.np_transpose_2_0_1.
    now rewrite length_map, length_seq.
  - intros ch y x p v Hch Hp Hv.
    unfold Segmentation.tensor_at, Segmentation.np_transpose_2_0_1.
    cbn [nth_error]. rewrite nth_error_map, nth_error_seq_lt by exact Hch.
    cbn [option_map Nat.add]. rewrite at2_map.
    change (@at2 (list Z) (img_rows resized) y x = Some p) in Hp.
    rewrite at2_map, Hp. cbn [option_map]. f_equal.
    apply nth_error_nth. now rewrite nth_error_map, Hv.
Qed.

End PreprocessFacts.

(** The 256 values of a byte, one by one. *)
Lemma normalize_bytes_checked :
  (fun values : list (nat * Segmentation.float32) =>
     forallb
       (fun a =>
          forallb
            (fun b =>
               SpecFloat.valid_binary Segmentation.prec32 Segmentation.emax32
                 (snd b)
               && SFleb (S754_zero false) (snd b)
               && SFleb (snd b) Segmentation.float32_one
               && implb (Nat.ltb (fst a) (fst b)) (SFltb (snd a) (snd b)))
            values)
       values)
    (map (fun v => (v, Segmentation.normalize (Z.of_nat v))) (seq 0 256))
  = true.
Proof. vm_compute. reflexivity. Qed.

(** X19.  The division by 255 of [preprocess], in float32: a byte is
    sent to a float32 value between 0.0 and 1.0, 0 to 0.0 and 255 to 1.0,
    and a greater byte to a strictly greater value, so that no two bytes
    are confused. *)
Theorem normalize_unit_interval :
  forall u v : Z,
    0 <= u <= 255 -> 0 <= v <= 255 ->
    SpecFloat.valid_binary Segmentation.prec32 Segmentation.emax32
      (Segmentation.normalize v) = true
    /\ SFleb (S754_zero false) (Segmentation.normalize v) = true
    /\ SFleb (Segmentation.normalize v) Segmentation.float32_one = true
    /\ (u < v ->
        SFltb (Segmentation.normalize u) (Segmentation.normalize v) = true)
    /\ Segmentation.normalize 0 = S754_zero false
    /\ Segmentation.normalize 255 = Segmentation.float32_one.
Proof.
  intros u v Hu Hv.
  pose proof normalize_bytes_checked as Hall. cbv beta in Hall.
  rewrite forallb_forall in Hall.
  assert (Hin : forall z, 0 <= z <= 255 ->
            In (Z.to_nat z, Segmentation.normalize z)
               (map (fun v => (v, Segmentation.normalize (Z.of_nat v)))
                    (seq 0 256))).
  { intros z Hz. apply in_map_iff. exists (Z.to_nat z).
    split; [now rewrite Z2Nat.id by lia | apply in_seq; lia]. }
  specialize (Hall _ (Hin u Hu)). rewrite forallb_forall in Hall.
  specialize (Hall _ (Hin v Hv)). cbn [fst snd] in Hall.
  apply andb_true_iff in Hall as [Hall Hlt].
  apply andb_true_iff in Hall as [Hall Hle1].
  apply andb_true_iff in Hall as [Hvalid Hle0].
  repeat (split; [assumption |]). split; [| split; reflexivity].
  intros Huv.
  replace (Nat.ltb (Z.to_nat u) (Z.to_nat v)) with true in Hlt
    by (symmetry; apply Nat.ltb_lt; lia).
  exact Hlt.
Qed.

(** *** The session of two pixels *)

Lemma postprocess_binary_mask_witness :
  Segmentation.postprocess two_pixel_session two_pixel_output (2, 1)%nat
  = Ok [[255; 0]]
  /\ map (@List.length Z) [[255; 0]]
     = map (@List.length Segmentation.float32) two_pixel_output.
Proof.
  assert (Hpost :
    Segmentation.postprocess two_pixel_session two_pixel_output (2, 1)%nat
    = Ok [[255; 0]]) by (vm_compute; reflexivity).
  destruct (postprocess_binary_mask two_pixel_session two_pixel_output
              (2, 1)%nat [[255; 0]] Hpost)
    as (probabilities & Hresize & Hshape & _).
  injection Hresize as <-. split; [exact Hpost | exact Hshape].
Defined.

Lemma remove_background_u2net_pixels_witness :
  exists out : ndarray,
    Segmentation.remove_background_u2net two_pixel_session "in/photo.JPG"
    = Ok out
    /\ pixel_at out 0 0 = Some [30; 20; 10; 255]
    /\ pixel_at out 0 1 = Some [0; 0; 0; 0].
Proof.
  destruct (remove_background_u2net_pixels two_pixel_session "in/photo.JPG"
              two_pixel_photo
              ([Segmentation.np_transpose_2_0_1 3
                  (map (map (map Segmentation.normalize))
                       [[[30; 20; 10]; [60; 50; 40]]])], (2, 1)%nat)
              two_pixel_output [[255; 0]]
              eq_refl eq_refl eq_refl)
    as (out & Hout & _ & Hpixels); try (vm_compute; reflexivity).
  exists out. split; [exact Hout |]. split.
  - destruct (Hpixels 0%nat 0%nat 10 20 30 255 eq_refl eq_refl eq_refl)
      as [[_ Hp] | [Hv _]]; [exact Hp | discriminate].
  - destruct (Hpixels 0%nat 1%nat 40 50 60 0 eq_refl eq_refl eq_refl)
      as [[Hv _] | [_ Hp]]; [discriminate | exact Hp].
Defined.

Lemma remove_background_u2net_foreground_witness :
  exists out : ndarray,
    Segmentation.remove_background_u2net two_pixel_session "in/photo.JPG"
    = Ok out
    /\ alpha_channel out = Ok [[255; 0]]
    /\ foreground_pixel_analysis out = Ok 0.5%float.
Proof.
  destruct (remove_background_u2net_foreground two_pixel_session
              float float_Number "in/photo.JPG" two_pixel_photo
              ([Segmentation.np_transpose_2_0_1 3
                  (map (map (map Segmentation.normalize))
                       [[[30; 20; 10]; [60; 50; 40]]])], (2, 1)%nat)
              two_pixel_output two_pixel_output [[255; 0]]
              eq_refl eq_refl eq_refl eq_refl eq_refl)
    as (out & Hout & Halpha & Hratio); try (vm_compute; reflexivity).
  exists out. split; [exact Hout |]. split; [exact Halpha |].
  rewrite Hratio. vm_compute. reflexivity.
Defined.

Lemma process_image_network_candidate_witness :
  exists processed : ndarray,
    process_image two_pixel_scene "in/photo.JPG" = Ok processed
    /\ pixel_at processed 0 0 = Some [30; 20; 10; 255]
    /\ pixel_at processed 0 1 = Some white.
Proof.
  destruct (process_image_network_candidate
              (fixed_externals (mkImage 3 [[[30; 20; 10]; [60; 50; 40]]])
                 (fun _ => Raise (LibraryError "unused"))
                 (fun _ => Ok (rgba_row 1 1))
                 0.3%float 0.5%float 0.8%float 0.6%float ["photo.JPG"])
              two_pixel_session "in/photo.JPG" two_pixel_photo
              ([Segmentation.np_transpose_2_0_1 3
                  (map (map (map Segmentation.normalize))
                       [[[30; 20; 10]; [60; 50; 40]]])], (2, 1)%nat)
              two_pixel_output [[255; 0]]
              (mkImage 3 [[[30; 20; 10]; [60; 50; 40]]]) (rgba_row 1 1)
              "U-2-Net" eq_refl eq_refl eq_refl)
    as (processed & Hprocessed & _ & Hpixels);
    try (vm_compute; reflexivity).
  exists processed. split; [exact Hprocessed |]. split.
  - destruct (Hpixels 0%nat 0%nat 10 20 30 255 eq_refl eq_refl eq_refl)
      as [[_ Hp] | [Hv _]]; [exact Hp | discriminate].
  - destruct (Hpixels 0%nat 1%nat 40 50 60 0 eq_refl eq_refl eq_refl)
      as [[Hv _] | [_ Hp]]; [discriminate | exact Hp].
Defined.

Lemma preprocess_tensor_witness :
  exists t : Segmentation.tensor,
    Segmentation.preprocess two_pixel_session "in/photo.JPG"
    = Ok (t, (2, 1)%nat)
    /\ Segmentation.tensor_at t 0 2 0 1
       = Some (Segmentation.normalize 40).
Proof.
  assert (Hpre :
    Segmentation.preprocess two_pixel_session "in/photo.JPG"
    = Ok ([Segmentation.np_transpose_2_0_1 3
             (map (map (map Segmentation.normalize))
                  [[[30; 20; 10]; [60; 50; 40]]])], (2, 1)%nat))
    by reflexivity.
  destruct (preprocess_tensor two_pixel_session "in/photo.JPG" _ _ Hpre)
    as (image & resized & Hopen & Hresize & _ & _ & _ & Hentries).
  injection Hopen as <-. injection Hresize as <-.
  eexists. split; [exact Hpre |].
  apply (Hentries 2%nat 0%nat 1%nat [60; 50; 40] 40); [simpl; lia | |];
    reflexivity.
Defined.

Lemma normalize_unit_interval_witness :
  SFltb (Segmentation.normalize 127) (Segmentation.normalize 128) = true
  /\ SFleb (Segmentation.normalize 128) Segmentation.float32_one = true.
Proof.
  destruct (normalize_unit_interval 127 128 ltac:(lia) ltac:(lia))
    as (_ & _ & Hle & Hlt & _).
  split; [apply Hlt; lia | exact Hle].
Defined.

(* ================================================================== *)
(** ** The override threshold in binary64 *)

(** The comparison of the foreground ratio with the literal [0.2] is a
    comparison of a correctly rounded quotient with a rounded decimal.
    The lemmas below follow the quotient through the division of the
    specification floats, digit by digit, and show that for the counts of
    an array the two roundings never move the test across one fifth. *)

Close Scope string_scope.

(** *** Locations *)

(** Where a remainder [r] of a division by [M] lies: at 0, below the
    half, at the half or above it. *)
Lemma new_location_spec (M r : Z) :
  0 < M -> 0 <= r < M ->
  (new_location M r = loc_Exact /\ r = 0)
  \/ (new_location M r = loc_Inexact Lt /\ 0 < r /\ 2 * r < M)
  \/ (new_location M r = loc_Inexact Eq /\ 2 * r = M)
  \/ (new_location M r = loc_Inexact Gt /\ M < 2 * r).
Proof.
  intros HM Hr. unfold new_location.
  change IntDef.Z.even with Z.even.
  destruct (Z.even M) eqn:Heven;
    unfold new_location_even, new_location_odd;
    change IntDef.Z.eqb with Z.eqb; change IntDef.Z.compare with Z.compare;
    change IntDef.Z.mul with Z.mul; change IntDef.Z.add with Z.add;
    destruct (Z.eqb_spec r 0) as [-> | Hr0]; auto.
  - right. destruct (Z.compare_spec (2 * r) M) as [E | L | G].
    + right; left; split; [reflexivity | lia].
    + left; split; [reflexivity | lia].
    + right; right; split; [reflexivity | lia].
  - right.
    assert (Hodd : Z.odd M = true)
      by (rewrite <- Z.negb_even, Heven; reflexivity).
    apply Z.odd_spec in Hodd. destruct Hodd as [k Hk].
    destruct (Z.compare_spec (2 * r + 1) M) as [E | L | G].
    + left; split; [reflexivity | lia].
    + left; split; [reflexivity | lia].
    + right; right; split; [reflexivity | lia].
Qed.

(** Halving a located quotient. *)
Lemma shr_1_location (q : positive) (loc : location) (M r : Z) :
  0 < M -> 0 <= r < M ->
  (loc = loc_Exact /\ r = 0)
  \/ (loc = loc_Inexact Lt /\ 0 < r /\ 2 * r < M)
  \/ (loc = loc_Inexact Eq /\ 2 * r = M)
  \/ (loc = loc_Inexact Gt /\ M < 2 * r) ->
  exists r2 : Z,
    Zpos q * M + r
    = shr_m (shr_1 (shr_record_of_loc (Zpos q) loc)) * (2 * M) + r2
    /\ 0 <= r2 < 2 * M
    /\ 2 * shr_m (shr_1 (shr_record_of_loc (Zpos q) loc)) <= Zpos q
        < 2 * shr_m (shr_1 (shr_record_of_loc (Zpos q) loc)) + 2
    /\ ((loc_of_shr_record (shr_1 (shr_record_of_loc (Zpos q) loc))
         = loc_Exact /\ r2 = 0)
        \/ (loc_of_shr_record (shr_1 (shr_record_of_loc (Zpos q) loc))
            = loc_Inexact Lt /\ 0 < r2 /\ 2 * r2 < 2 * M)
        \/ (loc_of_shr_record (shr_1 (shr_record_of_loc (Zpos q) loc))
            = loc_Inexact Eq /\ 2 * r2 = 2 * M)
        \/ (loc_of_shr_record (shr_1 (shr_record_of_loc (Zpos q) loc))
            = loc_Inexact Gt /\ 2 * M < 2 * r2)).
Proof.
  intros HM Hr Hloc.
  destruct q as [p | p |];
    [exists (M + r) | exists r | exists (M + r)];
    destruct Hloc as [[-> ->] | [[-> H] | [[-> H] | [-> H]]]];
    cbn [shr_1 shr_record_of_loc shr_m shr_r shr_s loc_of_shr_record orb];
    (split; [lia |]); (split; [lia |]); (split; [lia |]).
  all: first [ left; split; [reflexivity | lia]
             | right; left; split; [reflexivity | lia]
             | right; right; left; split; [reflexivity | lia]
             | right; right; right; split; [reflexivity | lia] ].
Qed.
(** *** Rounding against one fifth *)

(** A quotient of [mc] * 2^53 by [M], rounded to nearest even, is below
    the mantissa of 0.2 exactly when 5 [mc] < 4 [M]: the numerator is a
    multiple of 2^53 and [M] is below 2^54, so the quotient is never in
    the gap between one fifth and the rounding boundary under it. *)
Lemma rne_vs_fifth (Q M r mc : Z) (loc : location) :
  0 < M < 2 ^ 54 -> 0 <= r < M -> 0 <= Q ->
  mc * 2 ^ 53 = Q * M + r ->
  (loc = loc_Exact /\ r = 0)
  \/ (loc = loc_Inexact Lt /\ 0 < r /\ 2 * r < M)
  \/ (loc = loc_Inexact Eq /\ 2 * r = M)
  \/ (loc = loc_Inexact Gt /\ M < 2 * r) ->
  (round_nearest_even Q loc <? Zpos fifth_mantissa) = (5 * mc <? 4 * M).
Proof.
  intros HM Hr HQ HX Hloc.
  change (2 ^ 54) with 18014398509481984 in HM.
  change (2 ^ 53) with 9007199254740992 in HX.
  unfold fifth_mantissa.
  assert (Hcases : round_nearest_even Q loc = Q /\ 2 * r <= M
                   \/ round_nearest_even Q loc = Q + 1 /\ M <= 2 * r).
  { destruct Hloc as [[-> ->] | [[-> H] | [[-> H] | [-> H]]]];
      cbn [round_nearest_even].
    - left; split; [reflexivity | lia].
    - left; split; [reflexivity | lia].
    - destruct (Z.even Q); [left | right]; split; try reflexivity; lia.
    - right; split; [reflexivity | lia]. }
  destruct Hcases as [[-> Hhalf] | [-> Hhalf]].
  - destruct (Z.ltb_spec Q 7205759403792794) as [Hlt | Hge];
      destruct (Z.ltb_spec (5 * mc) (4 * M)) as [Hc | Hc]; try reflexivity;
      exfalso.
    + (* Q <= mt - 1, 2r <= M, 5 mc >= 4 M *)
      assert (Q * M <= 7205759403792793 * M) by nia. nia.
    + assert (7205759403792794 * M <= Q * M) by nia. nia.
  - destruct (Z.ltb_spec (Q + 1) 7205759403792794) as [Hlt | Hge];
      destruct (Z.ltb_spec (5 * mc) (4 * M)) as [Hc | Hc]; try reflexivity;
      exfalso.
    + assert (Q * M <= 7205759403792792 * M) by nia. nia.
    + assert (7205759403792793 * M <= Q * M) by nia. nia.
Qed.

Lemma round_nearest_even_range (Q : Z) (loc : location) :
  Q <= round_nearest_even Q loc <= Q + 1.
Proof.
  destruct (round_nearest_even_cases Q loc) as [-> | ->]; lia.
Qed.

(** The final step of rounding: a mantissa of 53 digits stays, 2^53 is
    renormalised. *)
Lemma round_aux_final (mr e : Z) :
  2 ^ 52 <= mr <= 2 ^ 53 -> -1074 <= e -> e + 1 <= 971 ->
  exists m : positive,
    Zpos m = mr
    /\ (let '(mrs, e2) := shr_fexp prec emax mr e loc_Exact in
        match shr_m mrs with
        | 0 => S754_zero false
        | Z.pos m0 =>
            if e2 <=? emax - prec then S754_finite false m0 e2
            else S754_infinity false
        | Z.neg _ => S754_nan
        end)
       = if mr =? 2 ^ 53 then S754_finite false two52 (e + 1)
         else S754_finite false m e.
Proof.
  intros Hmr Hlo Hhi.
  change (2 ^ 52) with 4503599627370496 in Hmr.
  change (2 ^ 53) with 9007199254740992 in *.
  destruct mr as [| m | m]; [lia | | lia]. exists m. split; [reflexivity |].
  unfold shr_fexp.
  destruct (Z.eqb_spec (Zpos m) 9007199254740992) as [Hcarry | Hnocarry].
  - injection Hcarry as ->. simpl Zdigits2.
    change (Zpos (digits2_pos 9007199254740992)) with 54.
    rewrite fexp_normal by lia.
    replace (54 + e - 53 - e) with 1 by lia.
    cbn [shr iter_pos shr_1 shr_record_of_loc shr_m].
    replace (e + 1 <=? emax - prec) with true
      by (symmetry; apply Z.leb_le; unfold emax, prec; lia).
    reflexivity.
  - assert (Hd : Zpos (digits2_pos m) = 53).
    { apply digits_unique. change (2 ^ (53 - 1)) with 4503599627370496.
      change (2 ^ 53) with 9007199254740992. lia. }
    simpl Zdigits2. rewrite Hd, fexp_normal by lia.
    replace (53 + e - 53 - e) with 0 by lia.
    cbn [shr shr_record_of_loc shr_m].
    replace (e <=? emax - prec) with true
      by (symmetry; apply Z.leb_le; unfold emax, prec; lia).
    reflexivity.
Qed.

(** Rounding a mantissa of 53 digits, and one of 54 digits. *)
Lemma round_aux_53 (q : positive) (e : Z) (loc : location) :
  Zpos (digits2_pos q) = 53 -> -1074 <= e -> e + 1 <= 971 ->
  exists m : positive,
    Zpos m = round_nearest_even (Zpos q) loc
    /\ binary_round_aux prec emax false (Zpos q) e loc
       = if Zpos m =? 2 ^ 53 then S754_finite false two52 (e + 1)
         else S754_finite false m e.
Proof.
  intros Hd Hlo Hhi. unfold binary_round_aux. unfold shr_fexp at 1.
  simpl Zdigits2. rewrite Hd, fexp_normal by lia.
  replace (53 + e - 53 - e) with 0 by lia. cbn [shr].
  destruct (loc_of_shr_record_of_loc (Zpos q) loc) as [-> ->].
  pose proof (full_mantissa q Hd) as Hq.
  pose proof (round_nearest_even_range (Zpos q) loc) as Hr.
  destruct (round_aux_final (round_nearest_even (Zpos q) loc) e)
    as (m & Hm & Hfinal); [lia | lia | lia |].
  exists m. split; [exact Hm |]. rewrite Hm. exact Hfinal.
Qed.

Lemma round_aux_54 (q : positive) (e : Z) (loc : location) :
  Zpos (digits2_pos q) = 54 -> -1074 <= e + 1 -> e + 2 <= 971 ->
  exists m : positive,
    Zpos m
    = round_nearest_even
        (shr_m (shr_1 (shr_record_of_loc (Zpos q) loc)))
        (loc_of_shr_record (shr_1 (shr_record_of_loc (Zpos q) loc)))
    /\ binary_round_aux prec emax false (Zpos q) e loc
       = if Zpos m =? 2 ^ 53 then S754_finite false two52 (e + 1 + 1)
         else S754_finite false m (e + 1).
Proof.
  intros Hd Hlo Hhi. unfold binary_round_aux. unfold shr_fexp at 1.
  simpl Zdigits2. rewrite Hd, fexp_normal by lia.
  replace (54 + e - 53 - e) with 1 by lia. cbn [shr iter_pos].
  pose proof (digits_bounds q) as Hq. rewrite Hd in Hq.
  change (2 ^ (54 - 1)) with 9007199254740992 in Hq.
  change (2 ^ 54) with 18014398509481984 in Hq.
  set (mrs := shr_1 (shr_record_of_loc (Zpos q) loc)).
  assert (Hhalf : 2 * shr_m mrs <= Zpos q < 2 * shr_m mrs + 2).
  { unfold mrs. destruct q as [p | p |];
      destruct loc as [| []];
      cbn [shr_1 shr_record_of_loc shr_m]; lia. }
  pose proof (round_nearest_even_range (shr_m mrs) (loc_of_shr_record mrs))
    as Hr.
  change (2 ^ 52) with 4503599627370496 in *.
  destruct (round_aux_final
              (round_nearest_even (shr_m mrs) (loc_of_shr_record mrs))
              (e + 1))
    as (m & Hm & Hfinal);
    [change (2 ^ 52) with 4503599627370496;
     change (2 ^ 53) with 9007199254740992; lia | lia | lia |].
  exists m. split; [exact Hm |]. rewrite Hm. exact Hfinal.
Qed.

(** The comparison of a rounded float with 0.2, by exponent and then by
    mantissa. *)
Lemma SFltb_fifth_normal (m : positive) (e1 : Z) :
  2 ^ 52 <= Zpos m <= 2 ^ 53 ->
  SFltb (if Zpos m =? 2 ^ 53 then S754_finite false two52 (e1 + 1)
         else S754_finite false m e1)
        (S754_finite false fifth_mantissa (-55))
  = (e1 <? -55) || ((e1 =? -55) && (Zpos m <? Zpos fifth_mantissa)).
Proof.
  intros Hm.
  change (2 ^ 52) with 4503599627370496 in Hm.
  change (2 ^ 53) with 9007199254740992 in *.
  unfold SFltb, SFcompare.
  destruct (Z.eqb_spec (Zpos m) 9007199254740992) as [Hcarry | Hnocarry].
  - injection Hcarry as ->.
    destruct (Z.compare_spec (e1 + 1) (-55)) as [E | L | G];
      destruct (Z.ltb_spec e1 (-55)); destruct (Z.eqb_spec e1 (-55));
      try lia; reflexivity.
  - rewrite Pos.compare_cont_spec. cbn [Pos.switch_Eq].
    change (Zpos m <? Zpos fifth_mantissa) with
      (match (m ?= fifth_mantissa)%positive with Lt => true | _ => false end).
    destruct (Z.compare_spec e1 (-55)) as [E | L | G];
      destruct (Z.ltb_spec e1 (-55)); destruct (Z.eqb_spec e1 (-55));
      try lia; try reflexivity.
    cbn [orb andb]. now destruct (m ?= fifth_mantissa)%positive.
Qed.


(** *** Scaling an inequality by powers of two *)

Lemma scaled_lt (a b P R k : Z) :
  0 < P -> 0 < b -> P * k <= R -> 5 * a < k * b -> 5 * (a * P) < b * R.
Proof.
  intros HP Hb HR Hab.
  apply Z.lt_le_trans with (b * (P * k)).
  - replace (5 * (a * P)) with (5 * a * P) by ring.
    replace (b * (P * k)) with (k * b * P) by ring.
    now apply Z.mul_lt_mono_pos_r.
  - apply Z.mul_le_mono_nonneg_l; lia.
Qed.

Lemma scaled_ge (a b P R k : Z) :
  0 < P -> 0 < b -> R <= P * k -> k * b <= 5 * a -> b * R <= 5 * (a * P).
Proof.
  intros HP Hb HR Hab.
  apply Z.le_trans with (b * (P * k)).
  - apply Z.mul_le_mono_nonneg_l; lia.
  - replace (5 * (a * P)) with (5 * a * P) by ring.
    replace (b * (P * k)) with (k * b * P) by ring.
    apply Z.mul_le_mono_nonneg_r; lia.
Qed.

Lemma scaled_ltb (a b P k : Z) :
  0 < P -> 0 < b ->
  (5 * a <? k * b) = (5 * (a * P) <? b * (P * k)).
Proof.
  intros HP Hb.
  destruct (Z.ltb_spec (5 * a) (k * b)) as [Hlt | Hge];
    destruct (Z.ltb_spec (5 * (a * P)) (b * (P * k))) as [Hlt' | Hge'];
    try reflexivity; exfalso.
  - pose proof (scaled_lt a b P (P * k) k HP Hb (Z.le_refl _) Hlt). lia.
  - pose proof (scaled_ge a b P (P * k) k HP Hb (Z.le_refl _) Hge). lia.
Qed.

(** The size of a quotient tells which of the two operands is greater. *)
Lemma quotient_below (a b q r T : Z) :
  0 < b -> 0 <= r < b -> a * T = b * q + r -> 0 < T -> q < T -> a < b.
Proof.
  intros Hb Hr Heq HT Hq.
  assert (b * q + r < b * T) by nia.
  apply Z.mul_lt_mono_pos_r with T; lia.
Qed.

Lemma quotient_above (a b q r T : Z) :
  0 < b -> 0 <= r < b -> a * T = b * q + r -> 0 < T -> T <= q -> b <= a.
Proof.
  intros Hb Hr Heq HT Hq.
  assert (b * T <= b * q) by (apply Z.mul_le_mono_nonneg_l; lia).
  apply Z.mul_le_mono_pos_r with T; lia.
Qed.

(** The quotient of two floats of full mantissa against the float 0.2:
    rounding does not move the comparison of the exact quotient with one
    fifth. *)
Lemma SFdiv_lt_fifth (mc mn : positive) (ec en : Z) :
  Zpos (digits2_pos mc) = 53 -> Zpos (digits2_pos mn) = 53 ->
  -52 <= ec <= 0 -> -52 <= en <= 0 ->
  SFltb (SFdiv prec emax (S754_finite false mc ec) (S754_finite false mn en))
        (S754_finite false fifth_mantissa (-55))
  = (5 * (Zpos mc * 2 ^ (ec + 52)) <? Zpos mn * 2 ^ (en + 52)).
Proof.
  intros Hdc Hdn Hec Hen. unfold SFdiv, SFdiv_core_binary.
  simpl Zdigits2. rewrite Hdc, Hdn.
  replace (53 + ec - (53 + en)) with (ec - en) by lia.
  rewrite fexp_normal by lia.
  replace (Z.min (ec - en - 53) (ec - en)) with (ec - en - 53) by lia.
  replace (ec - en - (ec - en - 53)) with 53 by lia.
  cbv iota beta.
  pose proof (Z.div_eucl_eq (Z.shiftl (Zpos mc) 53) (Zpos mn)
                ltac:(discriminate)) as Heq.
  pose proof (Z.mod_pos_bound (Z.shiftl (Zpos mc) 53) (Zpos mn)
                ltac:(reflexivity)) as Hr.
  unfold Z.modulo in Hr.
  destruct (Z.div_eucl (Z.shiftl (Zpos mc) 53) (Zpos mn)) as [q r].
  rewrite Z.shiftl_mul_pow2 in Heq by lia.
  apply full_mantissa in Hdc, Hdn.
  pose proof (pow2_pos (ec + 52) ltac:(lia)) as HP.
  pose proof (new_location_spec (Zpos mn) r ltac:(lia) Hr) as Hloc.
  cbn [xorb].
  change (2 ^ 52) with 4503599627370496 in *.
  change (2 ^ 53) with 9007199254740992 in *.
  assert (Hq52 : 4503599627370496 <= q) by (clear - Heq Hr Hdc Hdn; nia).
  assert (Hq54 : q < 18014398509481984) by (clear - Heq Hr Hdc Hdn; nia).
  destruct q as [| qp | qp]; [lia | | lia].
  destruct (Z_lt_le_dec (Zpos qp) 9007199254740992) as [Hsmall | Hbig].
  - (* a quotient of 53 digits: the numerator is below the denominator *)
    assert (Hd : Zpos (digits2_pos qp) = 53).
    { apply digits_unique. change (2 ^ (53 - 1)) with 4503599627370496.
      change (2 ^ 53) with 9007199254740992. lia. }
    destruct (round_aux_53 qp (ec - en - 53) (new_location (Zpos mn) r) Hd)
      as (m & Hm & ->); [lia | lia |].
    pose proof (round_nearest_even_range (Zpos qp)
                  (new_location (Zpos mn) r)) as Hrange.
    rewrite SFltb_fifth_normal
      by (change (2 ^ 52) with 4503599627370496;
          change (2 ^ 53) with 9007199254740992; lia).
    rewrite Hm.
    rewrite (rne_vs_fifth (Zpos qp) (Zpos mn) r (Zpos mc));
      [| change (2 ^ 54) with 18014398509481984; lia | lia | lia
       | change (2 ^ 53) with 9007199254740992; lia | exact Hloc].
    assert (Hlt : Zpos mc < Zpos mn)
      by (apply (quotient_below _ _ (Zpos qp) r 9007199254740992); lia).
    destruct (Z.compare_spec (en - ec) 2) as [E | L | G].
    + (* the critical binade *)
      replace (ec - en - 53 <? -55) with false
        by (symmetry; apply Z.ltb_ge; lia).
      replace (ec - en - 53 =? -55) with true
        by (symmetry; apply Z.eqb_eq; lia).
      cbn [orb andb].
      replace (en + 52) with (ec + 52 + 2) by lia.
      rewrite (Z.pow_add_r 2 (ec + 52) 2) by lia. change (2 ^ 2) with 4.
      apply scaled_ltb; lia.
    + replace (ec - en - 53 <? -55) with false
        by (symmetry; apply Z.ltb_ge; lia).
      replace (ec - en - 53 =? -55) with false
        by (symmetry; apply Z.eqb_neq; lia).
      cbn [orb andb]. symmetry. apply Z.ltb_ge.
      apply scaled_ge with (k := 2); try lia.
      replace (2 ^ (ec + 52) * 2) with (2 ^ (ec + 52 + 1))
        by (rewrite (Z.pow_add_r 2 (ec + 52) 1) by lia; reflexivity).
      apply Z.pow_le_mono_r; lia.
    + replace (ec - en - 53 <? -55) with true
        by (symmetry; apply Z.ltb_lt; lia).
      cbn [orb]. symmetry. apply Z.ltb_lt.
      apply scaled_lt with (k := 8); try lia.
      replace (2 ^ (ec + 52) * 8) with (2 ^ (ec + 52 + 3))
        by (rewrite (Z.pow_add_r 2 (ec + 52) 3) by lia; reflexivity).
      apply Z.pow_le_mono_r; lia.
  - (* a quotient of 54 digits: the numerator is not below the denominator *)
    assert (Hd : Zpos (digits2_pos qp) = 54).
    { apply digits_unique. change (2 ^ (54 - 1)) with 9007199254740992.
      change (2 ^ 54) with 18014398509481984. lia. }
    destruct (round_aux_54 qp (ec - en - 53) (new_location (Zpos mn) r) Hd)
      as (m & Hm & ->); [lia | lia |].
    destruct (shr_1_location qp (new_location (Zpos mn) r) (Zpos mn) r
                ltac:(lia) Hr Hloc)
      as (r2 & HX2 & Hr2 & Hhalf & Hloc2).
    set (mrs := shr_1 (shr_record_of_loc (Zpos qp)
                         (new_location (Zpos mn) r))) in *.
    pose proof (round_nearest_even_range (shr_m mrs)
                  (loc_of_shr_record mrs)) as Hrange.
    rewrite SFltb_fifth_normal
      by (change (2 ^ 52) with 4503599627370496;
          change (2 ^ 53) with 9007199254740992; lia).
    rewrite Hm.
    rewrite (rne_vs_fifth (shr_m mrs) (2 * Zpos mn) r2 (Zpos mc));
      [| change (2 ^ 54) with 18014398509481984; lia | lia | lia
       | change (2 ^ 53) with 9007199254740992; lia | exact Hloc2].
    assert (Hge : Zpos mn <= Zpos mc)
      by (apply (quotient_above _ _ (Zpos qp) r 9007199254740992); lia).
    destruct (Z.compare_spec (en - ec) 3) as [E | L | G].
    + replace (ec - en - 53 + 1 <? -55) with false
        by (symmetry; apply Z.ltb_ge; lia).
      replace (ec - en - 53 + 1 =? -55) with true
        by (symmetry; apply Z.eqb_eq; lia).
      cbn [orb andb].
      replace (en + 52) with (ec + 52 + 3) by lia.
      rewrite (Z.pow_add_r 2 (ec + 52) 3) by lia. change (2 ^ 3) with 8.
      replace (4 * (2 * Zpos mn)) with (8 * Zpos mn) by ring.
      apply scaled_ltb; lia.
    + replace (ec - en - 53 + 1 <? -55) with false
        by (symmetry; apply Z.ltb_ge; lia).
      replace (ec - en - 53 + 1 =? -55) with false
        by (symmetry; apply Z.eqb_neq; lia).
      cbn [orb andb]. symmetry. apply Z.ltb_ge.
      apply scaled_ge with (k := 4); try lia.
      replace (2 ^ (ec + 52) * 4) with (2 ^ (ec + 52 + 2))
        by (rewrite (Z.pow_add_r 2 (ec + 52) 2) by lia; reflexivity).
      apply Z.pow_le_mono_r; lia.
    + replace (ec - en - 53 + 1 <? -55) with true
        by (symmetry; apply Z.ltb_lt; lia).
      cbn [orb]. symmetry. apply Z.ltb_lt.
      apply scaled_lt with (k := 16); try lia.
      replace (2 ^ (ec + 52) * 16) with (2 ^ (ec + 52 + 4))
        by (rewrite (Z.pow_add_r 2 (ec + 52) 4) by lia; reflexivity).
      apply Z.pow_le_mono_r; lia.
Qed.

(** The ratio of two counts against the literal. *)
Lemma ratio_below_threshold (c n : Z) :
  0 <= c <= n -> 0 < n < 2 ^ 53 ->
  PrimFloat.ltb (float_of_Z c / float_of_Z n) (float_of_decimal 0.2%Q)
  = (5 * c <? n).
Proof.
  intros Hc Hn. rewrite ltb_spec.
  replace (Prim2SF (float_of_decimal 0.2%Q))
    with (S754_finite false fifth_mantissa (-55))
    by (vm_compute; reflexivity).
  destruct (Prim2SF_float_of_Z n Hn) as (mn & en & Hfn & Hdn & Hen & Hvn).
  rewrite div_spec, Hfn.
  destruct (Z.eq_dec c 0) as [-> | Hc0].
  - replace (Prim2SF (float_of_Z 0)) with sf_zero
      by (vm_compute; reflexivity).
    symmetry. apply Z.ltb_lt. lia.
  - destruct (Prim2SF_float_of_Z c ltac:(lia))
      as (mc & ec & Hfc & Hdc & Hec & Hvc).
    rewrite Hfc, SFdiv_lt_fifth by assumption.
    rewrite Hvc, Hvn, <- !Z.mul_assoc, <- !Z.pow_add_r by lia.
    replace (- ec + (ec + 52)) with 52 by lia.
    replace (- en + (en + 52)) with 52 by lia.
    change (2 ^ 52) with 4503599627370496.
    destruct (Z.ltb_spec (5 * (c * 4503599627370496))
                         (n * 4503599627370496));
      destruct (Z.ltb_spec (5 * c) n); try reflexivity; lia.
Qed.

Open Scope string_scope.

(** X20.  The override test in whole numbers.  In binary64, with the
    default threshold and for an array of fewer than 2^53 pixels, the
    foreground ratio is below the threshold exactly when five times the
    number of pixels of non-zero alpha is less than the number of pixels:
    rounding does not move the test, and a foreground of exactly one fifth
    does not fire the override.  So [decide_best_method] returns the
    original exactly on that count, when the gate holds. *)
Theorem override_in_whole_numbers :
  forall (ext : externals float)
         (output_u2net output_rembg original_image : ndarray)
         (image_path : string) (alpha : list (list Z))
         (score_ssim score_foreground score_edge score_hist : float)
         (gate : bool),
    alpha_channel output_u2net = Ok alpha ->
    (array_size alpha < 2 ^ 53)%Z ->
    compare_images ext output_u2net output_rembg = Ok score_ssim ->
    foreground_pixel_analysis output_u2net = Ok score_foreground ->
    edge_similarity ext output_u2net output_rembg = Ok score_edge ->
    histogram_difference ext output_u2net output_rembg = Ok score_hist ->
    needs_background_removal ext image_path = Ok gate ->
    (score_foreground <? default_min_foreground_threshold)%num
    = (5 * count_nonzero alpha <? array_size alpha)%Z
    /\ decide_best_method ext output_u2net output_rembg original_image
         image_path default_min_foreground_threshold
       = if gate && (5 * count_nonzero alpha <? array_size alpha)%Z
         then Ok (original_image, "Original")
         else if (u2net_score score_ssim score_foreground score_edge
                    score_hist
                  >? rembg_score score_ssim score_foreground score_edge
                       score_hist)%num
              then Ok (output_u2net, "U-2-Net")
              else Ok (output_rembg, "rembg").
Proof.
  intros ext A B original path a s f e h g Ha Hsize Hs Hf He Hh Hg.
  assert (Htest : (f <? default_min_foreground_threshold)%num
                  = (5 * count_nonzero a <? array_size a)%Z).
  { pose proof Hf as Hf'. apply foreground_pixel_analysis_returns in Hf'.
    destruct Hf' as (a' & Ha' & Hn & ->).
    assert (a' = a) by congruence. subst a'.
    apply ratio_below_threshold; [apply count_nonzero_bounds | lia]. }
  split; [exact Htest |].
  rewrite (decide_best_method_returns ext A B original path _ s f e h g)
    by assumption.
  now rewrite Htest.
Qed.

(** One pixel in five is foreground: the ratio is the binary64 value of
    0.2 itself, not below it, and the override does not fire although the
    gate holds. *)
Lemma override_in_whole_numbers_witness :
  needs_background_removal one_fifth_scene "in/photo.JPG" = Ok true
  /\ foreground_pixel_analysis (rgba_row 1 4) = Ok 0.2%float
  /\ decide_best_method one_fifth_scene (rgba_row 1 4) (rgba_row 3 2)
       (rgb_row 5) "in/photo.JPG" default_min_foreground_threshold
     = Ok (rgba_row 1 4, "U-2-Net").
Proof.
  destruct (override_in_whole_numbers one_fifth_scene (rgba_row 1 4)
              (rgba_row 3 2) (rgb_row 5) "in/photo.JPG" [[255; 0; 0; 0; 0]]
              0.9%float 0.2%float 0.8%float 0.7%float true
              eq_refl eq_refl eq_refl)
    as [_ Hdecide]; try (vm_compute; reflexivity).
  split; [vm_compute; reflexivity |]. split; [vm_compute; reflexivity |].
  rewrite Hdecide. vm_compute. reflexivity.
Defined.

(* ================================================================== *)
(** ** The two composite scores in binary64 *)

(** The two scores are sums and quotients of rounded numbers.  The lemmas
    below follow a value through the rounding of the specification
    floats: a mantissa is shifted right digit by digit, what is shifted
    out is remembered as a location, and the last digit is adjusted to the
    nearest even.  Values are counted in units of 2^-1074, of which every
    finite binary64 number is a whole number; 1 is 2^1074 units, and an
    operation whose exact result is below 16 is off by at most 2^1024
    units, that is 2^-50. *)

Close Scope string_scope.

(** *** Locations and shifts *)

Lemma new_location_located (M r : Z) :
  0 < M -> 0 <= r < M -> located (new_location M r) M r.
Proof.
  intros HM Hr.
  destruct (new_location_spec M r HM Hr)
    as [[-> H] | [[-> H] | [[-> H] | [-> H]]]]; exact H.
Qed.

Lemma shr_1_located (mrs : shr_record) (M r : Z) :
  0 <= shr_m mrs -> 0 < M -> 0 <= r < M ->
  located (loc_of_shr_record mrs) M r ->
  exists r2 : Z,
    shr_m mrs * M + r = shr_m (shr_1 mrs) * (2 * M) + r2
    /\ 0 <= r2 < 2 * M
    /\ located (loc_of_shr_record (shr_1 mrs)) (2 * M) r2
    /\ 0 <= shr_m (shr_1 mrs).
Proof.
  intros Hm HM Hr Hloc.
  destruct mrs as [m rb sb].
  destruct m as [| [p | p |] | p];
    [exists r | exists (M + r) | exists r | exists (M + r) | simpl in Hm; lia];
    destruct rb, sb;
    cbn [shr_1 shr_m shr_r shr_s loc_of_shr_record orb located] in *;
    repeat split; lia.
Qed.

Lemma iter_shr_located (n : positive) :
  forall (mrs : shr_record) (M r : Z),
    0 <= shr_m mrs -> 0 < M -> 0 <= r < M ->
    located (loc_of_shr_record mrs) M r ->
    exists r2 : Z,
      shr_m mrs * M + r
      = shr_m (iter_pos shr_1 n mrs) * (M * 2 ^ Zpos n) + r2
      /\ 0 <= r2 < M * 2 ^ Zpos n
      /\ located (loc_of_shr_record (iter_pos shr_1 n mrs)) (M * 2 ^ Zpos n) r2
      /\ 0 <= shr_m (iter_pos shr_1 n mrs).
Proof.
  induction n as [n IH | n IH |]; intros mrs M r Hm HM Hr Hloc;
    simpl iter_pos.
  - pose proof (pow2_pos (Zpos n) ltac:(lia)) as Hp.
    destruct (shr_1_located mrs M r Hm HM Hr Hloc)
      as (r1 & E1 & Hr1 & L1 & Hm1).
    destruct (IH (shr_1 mrs) (2 * M) r1 Hm1 ltac:(lia) Hr1 L1)
      as (r2 & E2 & Hr2 & L2 & Hm2).
    destruct (IH (iter_pos shr_1 n (shr_1 mrs)) (2 * M * 2 ^ Zpos n) r2
                Hm2 ltac:(nia) Hr2 L2)
      as (r3 & E3 & Hr3 & L3 & Hm3).
    rewrite pow2_xI.
    replace (M * (2 * (2 ^ Zpos n * 2 ^ Zpos n)))
      with (2 * M * 2 ^ Zpos n * 2 ^ Zpos n) by ring.
    exists r3. repeat split; try assumption; lia.
  - pose proof (pow2_pos (Zpos n) ltac:(lia)) as Hp.
    destruct (IH mrs M r Hm HM Hr Hloc) as (r2 & E2 & Hr2 & L2 & Hm2).
    destruct (IH (iter_pos shr_1 n mrs) (M * 2 ^ Zpos n) r2
                Hm2 ltac:(nia) Hr2 L2)
      as (r3 & E3 & Hr3 & L3 & Hm3).
    rewrite pow2_xO.
    replace (M * (2 ^ Zpos n * 2 ^ Zpos n))
      with (M * 2 ^ Zpos n * 2 ^ Zpos n) by ring.
    exists r3. repeat split; try assumption; lia.
  - destruct (shr_1_located mrs M r Hm HM Hr Hloc)
      as (r1 & E1 & Hr1 & L1 & Hm1).
    change (2 ^ 1) with 2. replace (M * 2) with (2 * M) by ring.
    exists r1. repeat split; try assumption; lia.
Qed.

Lemma shr_nonpos (mrs : shr_record) (e k : Z) :
  k <= 0 -> shr mrs e k = (mrs, e).
Proof. intros Hk. destruct k; [reflexivity | lia | reflexivity]. Qed.

(** Shifting a located mantissa to the right by [Z.max 0 k] digits. *)
Lemma shr_located (mrs : shr_record) (e k M r : Z) :
  0 <= shr_m mrs -> 0 < M -> 0 <= r < M ->
  located (loc_of_shr_record mrs) M r ->
  exists (mrs' : shr_record) (r2 : Z),
    shr mrs e k = (mrs', e + Z.max 0 k)
    /\ shr_m mrs * M + r = shr_m mrs' * (M * 2 ^ Z.max 0 k) + r2
    /\ 0 <= r2 < M * 2 ^ Z.max 0 k
    /\ located (loc_of_shr_record mrs') (M * 2 ^ Z.max 0 k) r2
    /\ 0 <= shr_m mrs'.
Proof.
  intros Hm HM Hr Hloc.
  destruct k as [| p | p].
  - exists mrs, r. change (Z.max 0 0) with 0. change (2 ^ 0) with 1.
    rewrite Z.add_0_r, Z.mul_1_r. repeat split; try assumption; lia.
  - destruct (iter_shr_located p mrs M r Hm HM Hr Hloc)
      as (r2 & E & Hr2 & L & Hm2).
    exists (iter_pos shr_1 p mrs), r2.
    replace (Z.max 0 (Zpos p)) with (Zpos p) by lia.
    repeat split; try assumption; lia.
  - exists mrs, r. replace (Z.max 0 (Zneg p)) with 0 by lia.
    change (2 ^ 0) with 1.
    rewrite Z.add_0_r, Z.mul_1_r. repeat split; try assumption; lia.
Qed.

Lemma rne_located (Q : Z) (loc : location) (M r : Z) :
  0 < M -> 0 <= r < M -> located loc M r ->
  - M <= 2 * (round_nearest_even Q loc * M - (Q * M + r)) <= M.
Proof.
  intros HM Hr Hloc.
  destruct loc as [| []]; cbn [round_nearest_even located] in *.
  - lia.
  - change IntDef.Z.even with Z.even. destruct (Z.even Q); lia.
  - lia.
  - lia.
Qed.

(** *** Rounding *)

Lemma fexp_max (e : Z) :
  SpecFloat.fexp prec emax e = Z.max (e - 53) (-1074).
Proof. reflexivity. Qed.

Lemma Zdigits2_nonneg (q : Z) : 0 <= Zdigits2 q.
Proof. destruct q; simpl; lia. Qed.

(** A non-negative number of [d] digits is below 2^d. *)
Lemma Zdigits2_bounds (q : Z) :
  0 <= q -> q < 2 ^ Zdigits2 q /\ (0 < q -> 2 ^ (Zdigits2 q - 1) <= q).
Proof.
  intros Hq. destruct q as [| p | p]; [simpl; lia | | lia].
  pose proof (digits_bounds p). simpl Zdigits2. split; [lia | intros _; lia].
Qed.

Lemma Zdigits2_le (q j : Z) :
  0 <= q < 2 ^ j -> 0 <= j -> Zdigits2 q <= j.
Proof.
  intros [Hq Hj] Hj0. destruct q as [| p | p]; [simpl; lia | | lia].
  pose proof (digits_bounds p) as [Dlo _]. simpl Zdigits2.
  assert (Zpos (digits2_pos p) - 1 < j); [| lia].
  apply (Z.pow_lt_mono_r_iff 2); lia.
Qed.

(** The last step of rounding, for either sign: zero stays zero, a
    mantissa of at most 53 digits stays, 2^53 is renormalised. *)
Lemma round_final (sx : bool) (mr e : Z) :
  0 <= mr <= 2 ^ 53 -> -1074 <= e -> e + 1 <= 971 ->
  exists res : spec_float,
    (let '(mrs, e2) := shr_fexp prec emax mr e loc_Exact in
     match shr_m mrs with
     | 0 => S754_zero sx
     | Z.pos m0 =>
         if e2 <=? emax - prec then S754_finite sx m0 e2
         else S754_infinity sx
     | Z.neg _ => S754_nan
     end) = res
    /\ SFfinite res = true
    /\ SFunits res = cond_Zopp sx (mr * 2 ^ (e + 1074)).
Proof.
  intros Hmr Hlo Hhi.
  change (2 ^ 53) with 9007199254740992 in *.
  unfold shr_fexp. rewrite fexp_max.
  destruct mr as [| m | m]; [| | lia].
  - simpl Zdigits2. rewrite shr_nonpos by lia.
    eexists. split; [reflexivity |]. split; [reflexivity |].
    now destruct sx.
  - destruct (Z.eqb_spec (Zpos m) 9007199254740992) as [Hcarry | Hnocarry].
    + injection Hcarry as ->. simpl Zdigits2.
      change (Zpos (digits2_pos 9007199254740992)) with 54.
      replace (Z.max (54 + e - 53) (-1074) - e) with 1 by lia.
      cbn [shr iter_pos shr_1 shr_record_of_loc shr_m].
      replace (e + 1 <=? emax - prec) with true
        by (symmetry; apply Z.leb_le; unfold emax, prec; lia).
      eexists. split; [reflexivity |]. split; [reflexivity |].
      cbn [SFunits]. f_equal.
      replace (e + 1 + 1074) with (1 + (e + 1074)) by lia.
      rewrite Z.pow_add_r by lia. change (2 ^ 1) with 2. lia.
    + assert (Hd : Zpos (digits2_pos m) <= 53).
      { apply (Zdigits2_le (Zpos m) 53); [| lia].
        change (2 ^ 53) with 9007199254740992. lia. }
      simpl Zdigits2. rewrite shr_nonpos by lia.
      cbn [shr_record_of_loc shr_m].
      replace (e <=? emax - prec) with true
        by (symmetry; apply Z.leb_le; unfold emax, prec; lia).
      eexists. split; [reflexivity |]. split; reflexivity.
Qed.

(** Rounding a located mantissa: the float returned is finite and differs
    from the located value by at most half a unit of the digit that is
    kept last. *)
Lemma round_aux_located (sx : bool) (q e : Z) (loc : location) (M r : Z) :
  0 <= q -> 0 < M -> 0 <= r < M -> located loc M r ->
  -1074 <= e ->
  e + Z.max 0 (Zdigits2 q - 53) + 1 <= 971 ->
  exists mr : Z,
    0 <= mr
    /\ SFfinite (binary_round_aux prec emax sx q e loc) = true
    /\ SFunits (binary_round_aux prec emax sx q e loc)
       = cond_Zopp sx
           (mr * 2 ^ (e + Z.max 0 (Zdigits2 q - 53) + 1074))
    /\ - (M * 2 ^ Z.max 0 (Zdigits2 q - 53))
       <= 2 * (mr * (M * 2 ^ Z.max 0 (Zdigits2 q - 53)) - (q * M + r))
       <= M * 2 ^ Z.max 0 (Zdigits2 q - 53).
Proof.
  intros Hq HM Hr Hloc Hlo Hhi.
  pose proof (Zdigits2_nonneg q) as Hd0.
  pose proof (Zdigits2_bounds q Hq) as [Hqhi _].
  set (d := Zdigits2 q) in *.
  set (k := Z.max 0 (d - 53)) in *.
  destruct (loc_of_shr_record_of_loc q loc) as [Eloc Em].
  destruct (shr_located (shr_record_of_loc q loc) e
              (Z.max (d + e - 53) (-1074) - e) M r)
    as (mrs1 & r1 & Hshr & E1 & Hr1 & L1 & Hm1);
    [rewrite Em; assumption | assumption | assumption
     | rewrite Eloc; assumption |].
  replace (Z.max 0 (Z.max (d + e - 53) (-1074) - e)) with k in * by lia.
  rewrite Em in E1.
  pose proof (pow2_pos k ltac:(lia)) as Hpk.
  assert (HMk : 0 < M * 2 ^ k) by nia.
  assert (Hm1hi : shr_m mrs1 < 2 ^ 53).
  { assert (Hlt : shr_m mrs1 * 2 ^ k < 2 ^ d) by nia.
    destruct (Z_lt_le_dec (shr_m mrs1) (2 ^ 53)) as [| Hge]; [assumption |].
    exfalso.
    assert (2 ^ d <= 2 ^ (53 + k)) by (apply Z.pow_le_mono_r; lia).
    rewrite Z.pow_add_r in H by lia. nia. }
  pose proof (round_nearest_even_range (shr_m mrs1) (loc_of_shr_record mrs1))
    as Hrange.
  pose proof (rne_located (shr_m mrs1) (loc_of_shr_record mrs1) (M * 2 ^ k) r1
                HMk Hr1 L1) as Herr.
  set (mr := round_nearest_even (shr_m mrs1) (loc_of_shr_record mrs1)) in *.
  destruct (round_final sx mr (e + k)) as (res & Hres & Hfin & Hunits);
    [lia | lia | lia |].
  assert (Haux : binary_round_aux prec emax sx q e loc = res).
  { unfold binary_round_aux. unfold shr_fexp at 1. fold d.
    rewrite fexp_max, Hshr. exact Hres. }
  rewrite Haux.
  exists mr. split; [lia |]. split; [exact Hfin |]. split; [exact Hunits |].
  lia.
Qed.

(** *** Sums and differences *)

Lemma shl_align_spec (mx : positive) (ex ez : Z) :
  exists mz : positive,
    shl_align mx ex ez = (mz, Z.min ex ez)
    /\ Zpos mz = Zpos mx * 2 ^ (ex - Z.min ex ez).
Proof.
  unfold shl_align. destruct (ez - ex) as [| p | p] eqn:E.
  - exists mx. replace (Z.min ex ez) with ex by lia.
    rewrite Z.sub_diag. split; [reflexivity | simpl; lia].
  - exists mx. replace (Z.min ex ez) with ex by lia.
    rewrite Z.sub_diag. split; [reflexivity | simpl; lia].
  - exists (Pos.iter xO mx p). replace (Z.min ex ez) with ez by lia.
    split; [reflexivity |]. rewrite iter_xO_value. f_equal. f_equal. lia.
Qed.

Lemma digits_shifted (mx mz : positive) (j : Z) :
  0 <= j -> Zpos mz = Zpos mx * 2 ^ j ->
  Zpos (digits2_pos mz) = Zpos (digits2_pos mx) + j.
Proof.
  intros Hj E. apply digits_unique. rewrite E.
  pose proof (digits_bounds mx) as [Dlo Dhi].
  pose proof (pow2_pos j Hj) as Hp.
  replace (Zpos (digits2_pos mx) + j - 1)
    with (Zpos (digits2_pos mx) - 1 + j) by lia.
  rewrite !Z.pow_add_r by lia. split; nia.
Qed.

Lemma abs_cond_Zopp (s : bool) (a b : Z) :
  Z.abs (cond_Zopp s a - cond_Zopp s b) = Z.abs (a - b).
Proof. destruct s; simpl; lia. Qed.

Lemma scaled_error (D K P B : Z) :
  0 < P -> - K <= 2 * D <= K -> K * P <= 2 * B -> Z.abs (D * P) <= B.
Proof.
  intros HP HD HK.
  assert (- (K * P) <= 2 * (D * P) <= K * P) by nia. lia.
Qed.

(** The exponent of a positive number below 2^1078 units. *)
Lemma magnitude_below (m : positive) (e : Z) :
  -1074 <= e -> Zpos m * 2 ^ (e + 1074) < 2 ^ 1078 ->
  Zpos (digits2_pos m) + e <= 4.
Proof.
  intros He Hv. pose proof (digits_bounds m) as [Dlo _].
  pose proof (pow2_pos (e + 1074) ltac:(lia)) as Hp.
  assert (Hlt : 2 ^ (Zpos (digits2_pos m) - 1 + (e + 1074)) < 2 ^ 1078).
  { rewrite Z.pow_add_r by lia. nia. }
  apply Z.pow_lt_mono_r_iff in Hlt; lia.
Qed.

(** [binary_round] of a mantissa at an exponent of the format: the
    result is within 2^-50 of the value, for values below 16. *)
Lemma binary_round_units (sx : bool) (mx : positive) (ex : Z) :
  -1074 <= ex -> Zpos mx * 2 ^ (ex + 1074) < 2 ^ 1078 ->
  SFfinite (binary_round prec emax sx mx ex) = true
  /\ Z.abs (SFunits (binary_round prec emax sx mx ex)
            - cond_Zopp sx (Zpos mx * 2 ^ (ex + 1074))) <= 2 ^ 1024.
Proof.
  intros Hex Hv. pose proof (magnitude_below mx ex Hex Hv) as Hmag.
  unfold binary_round. rewrite fexp_max.
  set (d := Zpos (digits2_pos mx)) in *.
  destruct (shl_align_spec mx ex (Z.max (d + ex - 53) (-1074)))
    as (mz & -> & Emz).
  set (e' := Z.min ex (Z.max (d + ex - 53) (-1074))) in *.
  assert (He' : -1074 <= e' <= ex /\ d + ex - 53 <= Z.max e' (d + ex - 53))
    by (unfold e'; lia).
  assert (Hdz : Zdigits2 (Zpos mz) = d + (ex - e'))
    by (apply digits_shifted; [lia | exact Emz]).
  destruct (round_aux_located sx (Zpos mz) e' loc_Exact 1 0)
    as (mr & Hmr & Hfin & Hunits & Herr);
    [lia | lia | lia | reflexivity | lia | rewrite Hdz; lia |].
  rewrite Hdz in Hunits, Herr.
  set (k := Z.max 0 (d + (ex - e') - 53)) in *.
  assert (Hk : 0 <= k /\ (k = 0 \/ k + e' = d + ex - 53))
    by (unfold k, e'; lia).
  split; [exact Hfin |]. rewrite Hunits, abs_cond_Zopp.
  pose proof (pow2_pos k ltac:(lia)) as Hpk.
  pose proof (pow2_pos (e' + 1074) ltac:(lia)) as HP.
  replace (e' + k + 1074) with (k + (e' + 1074)) by lia.
  replace (ex + 1074) with (ex - e' + (e' + 1074)) by lia.
  rewrite (Z.pow_add_r 2 k (e' + 1074)),
    (Z.pow_add_r 2 (ex - e') (e' + 1074)) by lia.
  replace (mr * (2 ^ k * 2 ^ (e' + 1074))
           - Zpos mx * (2 ^ (ex - e') * 2 ^ (e' + 1074)))
    with ((mr * 2 ^ k - Zpos mz) * 2 ^ (e' + 1074))
    by (rewrite Emz; ring).
  destruct (Z.eq_dec k 0) as [Hk0 | Hk0].
  - rewrite Hk0 in *. change (2 ^ 0) with 1 in *.
    replace (mr * 1 - Zpos mz) with 0 by lia. simpl. lia.
  - apply (scaled_error _ (2 ^ k)); [exact HP | lia |].
    rewrite <- Z.pow_add_r by lia. change (2 * 2 ^ 1024) with (2 ^ 1025).
    apply Z.pow_le_mono_r; lia.
Qed.

Lemma binary_normalize_units (S e : Z) :
  -1074 <= e -> Z.abs S * 2 ^ (e + 1074) < 2 ^ 1078 ->
  SFfinite (binary_normalize prec emax S e false) = true
  /\ Z.abs (SFunits (binary_normalize prec emax S e false)
            - S * 2 ^ (e + 1074)) <= 2 ^ 1024.
Proof.
  intros He Hv. destruct S as [| p | p]; cbn [binary_normalize].
  - split; [reflexivity | simpl; lia].
  - apply (binary_round_units false p e He Hv).
  - destruct (binary_round_units true p e He Hv) as [Hfin Herr].
    split; [exact Hfin |]. cbn [cond_Zopp] in Herr.
    replace (Zneg p * 2 ^ (e + 1074)) with (- (Zpos p * 2 ^ (e + 1074)))
      by lia.
    exact Herr.
Qed.

(** What validity says of a finite float. *)
Lemma valid_finite (s : bool) (m : positive) (e : Z) :
  SpecFloat.valid_binary prec emax (S754_finite s m e) = true ->
  -1074 <= e <= 971
  /\ Zpos (digits2_pos m) <= 53
  /\ (Zpos (digits2_pos m) = 53 \/ e = -1074).
Proof.
  cbn [SpecFloat.valid_binary]. unfold bounded, canonical_mantissa.
  rewrite fexp_max. intros H. apply andb_true_iff in H as [Hc Hb].
  apply Z.eqb_eq in Hc. apply Z.leb_le in Hb. unfold emax, prec in Hb. lia.
Qed.

Lemma units_aligned (s : bool) (m : positive) (e ez : Z) :
  -1074 <= ez <= e ->
  cond_Zopp s (Zpos (fst (shl_align m e ez))) * 2 ^ (ez + 1074)
  = SFunits (S754_finite s m e).
Proof.
  intros He. rewrite shl_align_value by lia. cbn [SFunits].
  replace (e + 1074) with (e - ez + (ez + 1074)) by lia.
  rewrite (Z.pow_add_r 2 (e - ez) (ez + 1074)) by lia.
  destruct s; cbn [cond_Zopp]; ring.
Qed.

(** Addition, subtraction: within 2^-50 of the exact result, for results
    below 16. *)
Lemma SFadd_units (x y : spec_float) :
  SpecFloat.valid_binary prec emax x = true ->
  SpecFloat.valid_binary prec emax y = true ->
  SFfinite x = true -> SFfinite y = true ->
  Z.abs (SFunits x + SFunits y) < 2 ^ 1078 ->
  SFfinite (SFadd prec emax x y) = true
  /\ Z.abs (SFunits (SFadd prec emax x y) - (SFunits x + SFunits y))
     <= 2 ^ 1024.
Proof.
  intros Vx Vy Fx Fy Hv.
  destruct x as [sx | sx | | sx mx ex]; try discriminate;
    destruct y as [sy | sy | | sy my ey]; try discriminate.
  - split; [now destruct sx, sy | destruct sx, sy; simpl; lia].
  - split; [reflexivity |]. cbn [SFadd].
    replace (SFunits (S754_finite sy my ey)
             - (SFunits (S754_zero sx) + SFunits (S754_finite sy my ey)))
      with 0 by (cbn [SFunits]; lia).
    simpl. lia.
  - split; [reflexivity |]. cbn [SFadd].
    replace (SFunits (S754_finite sx mx ex)
             - (SFunits (S754_finite sx mx ex) + SFunits (S754_zero sy)))
      with 0 by (cbn [SFunits]; lia).
    simpl. lia.
  - destruct (valid_finite sx mx ex Vx) as (Hex & _).
    destruct (valid_finite sy my ey Vy) as (Hey & _).
    cbn [SFadd]. change IntDef.Z.min with Z.min.
    set (ez := Z.min ex ey).
    rewrite <- (units_aligned sx mx ex ez) in * by lia.
    rewrite <- (units_aligned sy my ey ez) in * by lia.
    rewrite <- Z.mul_add_distr_r in *.
    apply binary_normalize_units; [lia |].
    pose proof (pow2_pos (ez + 1074) ltac:(lia)) as HP.
    rewrite Z.abs_mul in Hv. rewrite (Z.abs_eq (2 ^ (ez + 1074))) in Hv by lia.
    exact Hv.
Qed.

Lemma SFsub_units (x y : spec_float) :
  SpecFloat.valid_binary prec emax x = true ->
  SpecFloat.valid_binary prec emax y = true ->
  SFfinite x = true -> SFfinite y = true ->
  Z.abs (SFunits x - SFunits y) < 2 ^ 1078 ->
  SFfinite (SFsub prec emax x y) = true
  /\ Z.abs (SFunits (SFsub prec emax x y) - (SFunits x - SFunits y))
     <= 2 ^ 1024.
Proof.
  intros Vx Vy Fx Fy Hv.
  destruct x as [sx | sx | | sx mx ex]; try discriminate;
    destruct y as [sy | sy | | sy my ey]; try discriminate.
  - split; [now destruct sx, sy | destruct sx, sy; simpl; lia].
  - split; [reflexivity |]. cbn [SFsub].
    replace (SFunits (S754_finite (negb sy) my ey)
             - (SFunits (S754_zero sx) - SFunits (S754_finite sy my ey)))
      with 0 by (cbn [SFunits]; destruct sy; simpl; lia).
    simpl. lia.
  - split; [reflexivity |]. cbn [SFsub].
    replace (SFunits (S754_finite sx mx ex)
             - (SFunits (S754_finite sx mx ex) - SFunits (S754_zero sy)))
      with 0 by (cbn [SFunits]; lia).
    simpl. lia.
  - destruct (valid_finite sx mx ex Vx) as (Hex & _).
    destruct (valid_finite sy my ey Vy) as (Hey & _).
    cbn [SFsub]. change IntDef.Z.min with Z.min.
    set (ez := Z.min ex ey).
    rewrite <- (units_aligned sx mx ex ez) in * by lia.
    rewrite <- (units_aligned sy my ey ez) in * by lia.
    rewrite <- Z.mul_sub_distr_r in *.
    apply binary_normalize_units; [lia |].
    pose proof (pow2_pos (ez + 1074) ltac:(lia)) as HP.
    rewrite Z.abs_mul in Hv. rewrite (Z.abs_eq (2 ^ (ez + 1074))) in Hv by lia.
    exact Hv.
Qed.

(** *** Comparisons *)

(** Floats of the format are ordered by exponent first. *)
Lemma canonical_lt (s1 s2 : bool) (m1 m2 : positive) (e1 e2 : Z) :
  SpecFloat.valid_binary prec emax (S754_finite s1 m1 e1) = true ->
  SpecFloat.valid_binary prec emax (S754_finite s2 m2 e2) = true ->
  e1 < e2 ->
  Zpos m1 * 2 ^ (e1 + 1074) < Zpos m2 * 2 ^ (e2 + 1074).
Proof.
  intros V1 V2 He.
  destruct (valid_finite s1 m1 e1 V1) as (He1 & Hd1 & _).
  destruct (valid_finite s2 m2 e2 V2) as (He2 & _ & Hd2).
  destruct Hd2 as [Hd2 | Hd2]; [| lia].
  pose proof (full_mantissa m2 Hd2) as [Hm2 _].
  pose proof (digits_bounds m1) as [_ Hm1].
  assert (Hm1' : Zpos m1 < 2 ^ 53).
  { apply Z.lt_le_trans with (2 ^ Zpos (digits2_pos m1)); [exact Hm1 |].
    apply Z.pow_le_mono_r; lia. }
  pose proof (pow2_pos (e1 + 1074) ltac:(lia)) as HP1.
  assert (HP2 : 2 * 2 ^ (e1 + 1074) <= 2 ^ (e2 + 1074)).
  { rewrite <- Z.pow_succ_r by lia. apply Z.pow_le_mono_r; lia. }
  change (2 ^ 53) with (2 * 4503599627370496) in Hm1'.
  change (2 ^ 52) with 4503599627370496 in Hm2.
  clear - Hm1' Hm2 HP1 HP2. nia.
Qed.

Lemma compare_scaled (a b P : Z) :
  0 < P -> (a * P ?= b * P) = (a ?= b).
Proof.
  intros HP. destruct (Z.compare_spec a b) as [E | L | G].
  - subst. apply Z.compare_refl.
  - apply Z.compare_lt_iff. nia.
  - apply Z.compare_gt_iff. nia.
Qed.

(** The comparison of two finite floats of the format is that of their
    values. *)
Lemma SFcompare_units (x y : spec_float) :
  SpecFloat.valid_binary prec emax x = true ->
  SpecFloat.valid_binary prec emax y = true ->
  SFfinite x = true -> SFfinite y = true ->
  SFcompare x y = Some (SFunits x ?= SFunits y).
Proof.
  intros Vx Vy Fx Fy.
  destruct x as [sx | sx | | sx mx ex]; try discriminate;
    destruct y as [sy | sy | | sy my ey]; try discriminate.
  - reflexivity.
  - destruct (valid_finite sy my ey Vy) as (Hey & _).
    pose proof (pow2_pos (ey + 1074) ltac:(lia)) as HP.
    cbn [SFcompare SFunits]. f_equal. symmetry.
    destruct sy; cbn [cond_Zopp];
      [apply Z.compare_gt_iff | apply Z.compare_lt_iff]; nia.
  - destruct (valid_finite sx mx ex Vx) as (Hex & _).
    pose proof (pow2_pos (ex + 1074) ltac:(lia)) as HP.
    cbn [SFcompare SFunits]. f_equal. symmetry.
    destruct sx; cbn [cond_Zopp];
      [apply Z.compare_lt_iff | apply Z.compare_gt_iff]; nia.
  - destruct (valid_finite sx mx ex Vx) as (Hex & _).
    destruct (valid_finite sy my ey Vy) as (Hey & _).
    pose proof (pow2_pos (ex + 1074) ltac:(lia)) as HPx.
    pose proof (pow2_pos (ey + 1074) ltac:(lia)) as HPy.
    cbn [SFcompare SFunits]. f_equal.
    rewrite Pos.compare_cont_spec.
    replace (Pos.switch_Eq Eq (mx ?= my)%positive)
      with (Zpos mx ?= Zpos my)
      by (cbn [Z.compare]; now destruct (mx ?= my)%positive).
    destruct sx, sy; cbn [cond_Zopp].
    + rewrite Z.compare_opp.
      destruct (Z.compare_spec ex ey) as [E | L | G].
      * subst ey. rewrite compare_scaled by assumption.
        symmetry. apply Z.compare_antisym.
      * symmetry. apply Z.compare_gt_iff.
        apply (canonical_lt true true mx my ex ey Vx Vy L).
      * symmetry. apply Z.compare_lt_iff.
        apply (canonical_lt true true my mx ey ex Vy Vx G).
    + symmetry. apply Z.compare_lt_iff. nia.
    + symmetry. apply Z.compare_gt_iff. nia.
    + destruct (Z.compare_spec ex ey) as [E | L | G].
      * subst ey. now rewrite compare_scaled by assumption.
      * symmetry. apply Z.compare_lt_iff.
        apply (canonical_lt false false mx my ex ey Vx Vy L).
      * symmetry. apply Z.compare_gt_iff.
        apply (canonical_lt false false my mx ey ex Vy Vx G).
Qed.

(** *** Division by 4 *)

Lemma quotient_digits (q m' j : Z) :
  0 <= q -> q * 2 ^ 52 <= m' -> m' < 2 ^ (j + 52) ->
  Zdigits2 q <= Z.max 0 j.
Proof.
  intros Hq Hle Hlt.
  apply Zdigits2_le; [| lia]. split; [exact Hq |].
  destruct (Z_lt_le_dec j 0) as [Hj | Hj].
  - replace (Z.max 0 j) with 0 by lia. change (2 ^ 0) with 1.
    assert (2 ^ (j + 52) <= 2 ^ 52) by (apply Z.pow_le_mono_r; lia).
    change (2 ^ 52) with 4503599627370496 in *. lia.
  - replace (Z.max 0 j) with j by lia.
    rewrite Z.pow_add_r in Hlt by lia.
    change (2 ^ 52) with 4503599627370496 in *.
    pose proof (pow2_pos j Hj). nia.
Qed.

Lemma quarter_error (mr K mx S P D : Z) :
  0 < P -> 0 < K ->
  - (4503599627370496 * K)
  <= 2 * (mr * (4503599627370496 * K) - mx * (S * 1125899906842624))
  <= 4503599627370496 * K ->
  4 * K * P <= 2 * D ->
  Z.abs (4 * (mr * (K * P)) - mx * (S * P)) <= D.
Proof.
  intros HP HK Herr HD.
  replace (4 * (mr * (K * P)) - mx * (S * P))
    with ((4 * (mr * K) - mx * S) * P) by ring.
  apply (scaled_error _ (4 * K)); [exact HP | lia | exact HD].
Qed.

(** Division by 4: within 2^-50 of the exact quotient, for values below
    16; the quotient of a value of the subnormal range is rounded. *)
Lemma SFdiv4_units (x : spec_float) :
  SpecFloat.valid_binary prec emax x = true ->
  SFfinite x = true ->
  Z.abs (SFunits x) < 2 ^ 1078 ->
  SFfinite (SFdiv prec emax x (S754_finite false two52 (-50))) = true
  /\ Z.abs (4 * SFunits (SFdiv prec emax x (S754_finite false two52 (-50)))
            - SFunits x) <= 2 ^ 1024.
Proof.
  intros Vx Fx Hv.
  destruct x as [sx | sx | | sx mx ex]; try discriminate.
  - split; [reflexivity | simpl; lia].
  - destruct (valid_finite sx mx ex Vx) as (Hex & Hd & _).
    assert (Hv' : Zpos mx * 2 ^ (ex + 1074) < 2 ^ 1078).
    { cbn [SFunits] in Hv. destruct sx; cbn [cond_Zopp] in Hv; lia. }
    pose proof (magnitude_below mx ex ltac:(lia) Hv') as Hmag.
    cbn [SFdiv]. unfold SFdiv_core_binary.
    simpl Zdigits2. change (Zpos (digits2_pos two52)) with 53.
    rewrite fexp_max. change IntDef.Z.min with Z.min.
    set (d := Zpos (digits2_pos mx)) in *.
    set (e' := Z.min (Z.max (d + ex - (53 + -50) - 53) (-1074)) (ex - -50)).
    assert (He' : e' = Z.max (d + ex - 56) (-1074)) by (unfold e'; lia).
    set (s := ex - -50 - e').
    assert (Hs : s = ex + 50 - e') by (unfold s; lia).
    assert (Hs50 : 50 <= s) by lia.
    destruct s as [| ps | ps] eqn:Es; [lia | | lia]. rewrite <- Es in *.
    change IntDef.Z.shiftl with Z.shiftl. rewrite Z.shiftl_mul_pow2 by lia.
    change IntDef.Z.div_eucl with Z.div_eucl.
    pose proof (Z.div_eucl_eq (Zpos mx * 2 ^ s) (Zpos two52)
                  ltac:(discriminate)) as Heq.
    pose proof (Z.mod_pos_bound (Zpos mx * 2 ^ s) (Zpos two52)
                  ltac:(reflexivity)) as Hr.
    unfold Z.modulo in Hr.
    destruct (Z.div_eucl (Zpos mx * 2 ^ s) (Zpos two52)) as [q r].
    cbv iota beta. rewrite xorb_false_r.
    pose proof (pow2_pos s ltac:(lia)) as Hps.
    assert (Hq : 0 <= q) by (unfold two52 in *; nia).
    pose proof (digits_bounds mx) as [_ Hmx]. fold d in Hmx.
    assert (Hdq : Zdigits2 q <= Z.max 0 (d + s - 52)).
    { apply (quotient_digits q (Zpos mx * 2 ^ s)); [exact Hq | |].
      - change (2 ^ 52) with 4503599627370496. unfold two52 in *. lia.
      - replace (d + s - 52 + 52) with (d + s) by lia.
        rewrite Z.pow_add_r by lia. nia. }
    destruct (round_aux_located sx q e' (new_location (Zpos two52) r)
                (Zpos two52) r)
      as (mr & Hmr & Hfin & Hunits & Herr);
      [exact Hq | reflexivity | exact Hr
       | apply new_location_located; [reflexivity | exact Hr]
       | lia | lia |].
    split; [exact Hfin |]. rewrite Hunits. cbn [SFunits].
    set (k := Z.max 0 (Zdigits2 q - 53)) in *.
    assert (Hk : 0 <= k /\ k + e' <= -51) by lia.
    replace (4 * cond_Zopp sx (mr * 2 ^ (e' + k + 1074)))
      with (cond_Zopp sx (4 * (mr * 2 ^ (e' + k + 1074))))
      by (destruct sx; cbn [cond_Zopp]; ring).
    rewrite abs_cond_Zopp.
    replace (e' + k + 1074) with (k + (e' + 1074)) by lia.
    replace (ex + 1074) with (s - 50 + (e' + 1074)) by lia.
    rewrite (Z.pow_add_r 2 k (e' + 1074)),
      (Z.pow_add_r 2 (s - 50) (e' + 1074)) by lia.
    pose proof (pow2_pos k ltac:(lia)) as Hpk.
    pose proof (pow2_pos (e' + 1074) ltac:(lia)) as HP.
    apply quarter_error; [exact HP | exact Hpk | |].
    + replace (2 ^ (s - 50) * 1125899906842624) with (2 ^ s).
      * unfold two52 in *. lia.
      * replace s with (s - 50 + 50) at 1 by lia.
        rewrite (Z.pow_add_r 2 (s - 50) 50) by lia. reflexivity.
    + replace (4 * 2 ^ k * 2 ^ (e' + 1074)) with (2 ^ (2 + k + (e' + 1074)))
        by (rewrite (Z.pow_add_r 2 (2 + k) (e' + 1074)),
              (Z.pow_add_r 2 2 k) by lia; reflexivity).
      change (2 * 2 ^ 1024) with (2 ^ 1025).
      apply Z.pow_le_mono_r; lia.
Qed.

(** *** The operations of the primitive floats *)

Lemma float_add_units (E : Z) (x y : float) :
  E = 2 ^ 1024 ->
  SFfinite (Prim2SF x) = true -> SFfinite (Prim2SF y) = true ->
  - (18014398509481984 * E)
  < SFunits (Prim2SF x) + SFunits (Prim2SF y) < 18014398509481984 * E ->
  SFfinite (Prim2SF (x + y)) = true
  /\ - E <= SFunits (Prim2SF (x + y))
            - (SFunits (Prim2SF x) + SFunits (Prim2SF y)) <= E.
Proof.
  intros -> Fx Fy Hv. rewrite add_spec. unfold SF64add.
  destruct (SFadd_units (Prim2SF x) (Prim2SF y) (Prim2SF_valid x)
              (Prim2SF_valid y) Fx Fy) as [Hfin Herr].
  - change (2 ^ 1078) with (18014398509481984 * 2 ^ 1024). lia.
  - split; [exact Hfin | lia].
Qed.

Lemma float_sub_units (E : Z) (x y : float) :
  E = 2 ^ 1024 ->
  SFfinite (Prim2SF x) = true -> SFfinite (Prim2SF y) = true ->
  - (18014398509481984 * E)
  < SFunits (Prim2SF x) - SFunits (Prim2SF y) < 18014398509481984 * E ->
  SFfinite (Prim2SF (x - y)) = true
  /\ - E <= SFunits (Prim2SF (x - y))
            - (SFunits (Prim2SF x) - SFunits (Prim2SF y)) <= E.
Proof.
  intros -> Fx Fy Hv. rewrite sub_spec. unfold SF64sub.
  destruct (SFsub_units (Prim2SF x) (Prim2SF y) (Prim2SF_valid x)
              (Prim2SF_valid y) Fx Fy) as [Hfin Herr].
  - change (2 ^ 1078) with (18014398509481984 * 2 ^ 1024). lia.
  - split; [exact Hfin | lia].
Qed.

Lemma float_div4_units (E : Z) (x : float) :
  E = 2 ^ 1024 ->
  SFfinite (Prim2SF x) = true ->
  - (18014398509481984 * E) < SFunits (Prim2SF x) < 18014398509481984 * E ->
  SFfinite (Prim2SF (x / 4)) = true
  /\ - E <= 4 * SFunits (Prim2SF (x / 4)) - SFunits (Prim2SF x) <= E.
Proof.
  intros -> Fx Hv. rewrite div_spec. unfold SF64div.
  replace (Prim2SF 4) with (S754_finite false two52 (-50))
    by (vm_compute; reflexivity).
  destruct (SFdiv4_units (Prim2SF x) (Prim2SF_valid x) Fx) as [Hfin Herr].
  - change (2 ^ 1078) with (18014398509481984 * 2 ^ 1024). lia.
  - split; [exact Hfin | lia].
Qed.

Lemma float_leb_units (x y : float) :
  SFfinite (Prim2SF x) = true -> SFfinite (Prim2SF y) = true ->
  PrimFloat.leb x y = (SFunits (Prim2SF x) <=? SFunits (Prim2SF y)).
Proof.
  intros Fx Fy. rewrite leb_spec. unfold SFleb.
  rewrite (SFcompare_units _ _ (Prim2SF_valid x) (Prim2SF_valid y) Fx Fy).
  unfold Z.leb. now destruct (SFunits (Prim2SF x) ?= SFunits (Prim2SF y)).
Qed.

Lemma float_ltb_units (x y : float) :
  SFfinite (Prim2SF x) = true -> SFfinite (Prim2SF y) = true ->
  PrimFloat.ltb x y = (SFunits (Prim2SF x) <? SFunits (Prim2SF y)).
Proof.
  intros Fx Fy. rewrite ltb_spec. unfold SFltb.
  rewrite (SFcompare_units _ _ (Prim2SF_valid x) (Prim2SF_valid y) Fx Fy).
  unfold Z.ltb. now destruct (SFunits (Prim2SF x) ?= SFunits (Prim2SF y)).
Qed.

(** A float between two finite floats is finite. *)
Lemma float_between (lo hi x : float) :
  SFfinite (Prim2SF lo) = true -> SFfinite (Prim2SF hi) = true ->
  PrimFloat.leb lo x = true -> PrimFloat.leb x hi = true ->
  SFfinite (Prim2SF x) = true
  /\ SFunits (Prim2SF lo) <= SFunits (Prim2SF x) <= SFunits (Prim2SF hi).
Proof.
  intros Flo Fhi Hlo Hhi.
  assert (Fx : SFfinite (Prim2SF x) = true).
  { rewrite leb_spec in Hlo, Hhi. unfold SFleb in Hlo, Hhi.
    destruct (Prim2SF x) as [sx | sx | | sx mx ex]; try reflexivity.
    - destruct (Prim2SF lo) as [s | s | | s m e]; try discriminate;
        destruct (Prim2SF hi) as [s' | s' | | s' m' e']; try discriminate;
        destruct sx; discriminate.
    - destruct (Prim2SF lo) as [s | s | | s m e]; discriminate. }
  split; [exact Fx |].
  rewrite float_leb_units in Hlo, Hhi by assumption.
  apply Z.leb_le in Hlo, Hhi. lia.
Qed.

(** *** The two scores *)

(** For metrics between -1 and 1 the two scores are finite, and their
    values add up to 1 within 3 * 2^-50. *)
Lemma scores_units (s f e h : float) :
  PrimFloat.leb (-1) s = true -> PrimFloat.leb s 1 = true ->
  PrimFloat.leb (-1) f = true -> PrimFloat.leb f 1 = true ->
  PrimFloat.leb (-1) e = true -> PrimFloat.leb e 1 = true ->
  PrimFloat.leb (-1) h = true -> PrimFloat.leb h 1 = true ->
  SFfinite (Prim2SF (u2net_score s f e h)) = true
  /\ SFfinite (Prim2SF (rembg_score s f e h)) = true
  /\ - (3 * 2 ^ 1024)
     <= SFunits (Prim2SF (u2net_score s f e h))
        + SFunits (Prim2SF (rembg_score s f e h)) - 2 ^ 1074
     <= 3 * 2 ^ 1024.
Proof.
  intros Hs0 Hs1 Hf0 Hf1 He0 He1 Hh0 Hh1.
  unfold u2net_score, rembg_score.
  cbn [nadd nsub ndiv of_int float_Number].
  replace (float_of_Z 1) with 1%float by (vm_compute; reflexivity).
  replace (float_of_Z 4) with 4%float by (vm_compute; reflexivity).
  assert (Fone : SFfinite (Prim2SF 1) = true) by reflexivity.
  assert (Fmone : SFfinite (Prim2SF (-1)) = true) by reflexivity.
  destruct (float_between _ _ s Fmone Fone Hs0 Hs1) as [Fs Bs].
  destruct (float_between _ _ f Fmone Fone Hf0 Hf1) as [Ff Bf].
  destruct (float_between _ _ e Fmone Fone He0 He1) as [Fe Be].
  destruct (float_between _ _ h Fmone Fone Hh0 Hh1) as [Fh Bh].
  set (E := 2 ^ 1024). assert (HE : E = 2 ^ 1024) by reflexivity.
  assert (HE0 : 0 < E) by (unfold E; apply pow2_pos; lia).
  replace (2 ^ 1074) with (1125899906842624 * E)
    by (unfold E; change 1125899906842624 with (2 ^ 50);
        rewrite <- (Z.pow_add_r 2 50 1024) by lia; reflexivity).
  assert (Uone : SFunits (Prim2SF 1) = 1125899906842624 * E).
  { unfold E. change (SFunits (Prim2SF 1)) with (4503599627370496 * 2 ^ (-52 + 1074)).
    change (-52 + 1074) with 1022.
    replace (2 ^ 1024) with (4 * 2 ^ 1022)
      by (change 4 with (2 ^ 2);
          rewrite <- (Z.pow_add_r 2 2 1022) by lia; reflexivity).
    lia. }
  assert (Umone : SFunits (Prim2SF (-1)) = - (1125899906842624 * E)).
  { unfold E. change (SFunits (Prim2SF (-1)))
      with (- (4503599627370496 * 2 ^ (-52 + 1074))).
    change (-52 + 1074) with 1022.
    replace (2 ^ 1024) with (4 * 2 ^ 1022)
      by (change 4 with (2 ^ 2);
          rewrite <- (Z.pow_add_r 2 2 1022) by lia; reflexivity).
    lia. }
  rewrite Uone, Umone in *. clearbody E.
  destruct (float_add_units E s f HE Fs Ff) as [Fa1 Ea1]; [lia |].
  destruct (float_add_units E (s + f) e HE Fa1 Fe) as [Fa2 Ea2]; [lia |].
  destruct (float_add_units E (s + f + e) h HE Fa2 Fh) as [Fa3 Ea3]; [lia |].
  destruct (float_div4_units E (s + f + e + h) HE Fa3) as [FA EA]; [lia |].
  destruct (float_sub_units E 1 s HE Fone Fs) as [Fbs Ebs];
    [rewrite Uone; lia |].
  destruct (float_sub_units E 1 f HE Fone Ff) as [Fbf Ebf];
    [rewrite Uone; lia |].
  destruct (float_sub_units E 1 e HE Fone Fe) as [Fbe Ebe];
    [rewrite Uone; lia |].
  destruct (float_sub_units E 1 h HE Fone Fh) as [Fbh Ebh];
    [rewrite Uone; lia |].
  rewrite Uone in Ebs, Ebf, Ebe, Ebh.
  destruct (float_add_units E (1 - s) (1 - f) HE Fbs Fbf) as [Fc1 Ec1];
    [lia |].
  destruct (float_add_units E (1 - s + (1 - f)) (1 - e) HE Fc1 Fbe)
    as [Fc2 Ec2]; [lia |].
  destruct (float_add_units E (1 - s + (1 - f) + (1 - e)) (1 - h) HE Fc2 Fbh)
    as [Fc3 Ec3]; [lia |].
  destruct (float_div4_units E (1 - s + (1 - f) + (1 - e) + (1 - h)) HE Fc3)
    as [FB EB]; [lia |].
  split; [exact FA |]. split; [exact FB |]. lia.
Qed.

(** *** Values *)

Lemma pos_pow_1074 : Zpos (2 ^ 1074) = 1125899906842624 * 2 ^ 1024.
Proof.
  rewrite Pos2Z.inj_pow. change 1125899906842624 with (2 ^ 50).
  rewrite <- (Z.pow_add_r 2 50 1024) by lia. reflexivity.
Qed.

Lemma sum_minus_one (a b : Z) (d : positive) :
  ((a # d) + (b # d) - 1 == (a + b - Zpos d) # d)%Q.
Proof.
  unfold Qeq, Qminus, Qplus, Qopp. cbn [Qnum Qden].
  rewrite !Pos2Z.inj_mul. ring.
Qed.

Lemma value_sum_bound (a b : Z) :
  - (3 * 2 ^ 1024) <= a + b - 2 ^ 1074 <= 3 * 2 ^ 1024 ->
  (Qabs ((a # 2 ^ 1074) + (b # 2 ^ 1074) - 1) <= 3 # 2 ^ 50)%Q.
Proof.
  intros H. rewrite sum_minus_one.
  unfold Qabs, Qle. cbn [Qnum Qden].
  rewrite pos_pow_1074.
  replace (2 ^ 1074) with (1125899906842624 * 2 ^ 1024) in H
    by (change 1125899906842624 with (2 ^ 50);
        rewrite <- (Z.pow_add_r 2 50 1024) by lia; reflexivity).
  change (Zpos (2 ^ 50)) with 1125899906842624.
  set (E := 2 ^ 1024) in *. clearbody E. lia.
Qed.

Lemma value_above_half (a : Z) :
  ((1 # 2) + (1 # 2 ^ 49) < a # 2 ^ 1074)%Q
  <-> 562949953421312 * 2 ^ 1024 + 2 * 2 ^ 1024 < a.
Proof.
  unfold Qlt, Qplus. cbn [Qnum Qden].
  rewrite pos_pow_1074. rewrite !Pos2Z.inj_mul.
  change (Zpos (2 ^ 49)) with 562949953421312.
  set (E := 2 ^ 1024) in *. clearbody E. lia.
Qed.

Lemma value_below_half (a : Z) :
  (a # 2 ^ 1074 < (1 # 2) - (1 # 2 ^ 49))%Q
  <-> a < 562949953421312 * 2 ^ 1024 - 2 * 2 ^ 1024.
Proof.
  unfold Qlt, Qminus, Qplus, Qopp. cbn [Qnum Qden].
  rewrite pos_pow_1074. rewrite !Pos2Z.inj_mul.
  change (Zpos (2 ^ 49)) with 562949953421312.
  set (E := 2 ^ 1024) in *. clearbody E. lia.
Qed.

Open Scope string_scope.

(** C9, as amended.  In binary64 the two composite scores of metrics
    between -1 and 1 are finite and their values add up to 1 within
    3 * 2^-50, not exactly.  When the override does not fire the network
    output is returned exactly when its score is above the score of the
    library output, and the library output otherwise; so the network
    output is returned when the value of its score is above
    1/2 + 2^-49, and the library output when it is below 1/2 - 2^-49. *)
Theorem composite_scores_binary64 :
  forall (ext : externals float)
         (output_u2net output_rembg original_image : ndarray)
         (image_path : string) (min_foreground_threshold : float)
         (alpha_values : list (list Z))
         (score_ssim score_foreground score_edge score_hist : float)
         (gate : bool),
    compare_images ext output_u2net output_rembg = Ok score_ssim ->
    foreground_pixel_analysis output_u2net = Ok score_foreground ->
    edge_similarity ext output_u2net output_rembg = Ok score_edge ->
    histogram_difference ext output_u2net output_rembg = Ok score_hist ->
    needs_background_removal ext image_path = Ok gate ->
    alpha_channel output_u2net = Ok alpha_values ->
    (0 < array_size alpha_values < 2 ^ 53)%Z ->
    PrimFloat.leb (-1) score_ssim = true ->
    PrimFloat.leb score_ssim 1 = true ->
    PrimFloat.leb (-1) score_edge = true ->
    PrimFloat.leb score_edge 1 = true ->
    PrimFloat.leb (-1) score_hist = true ->
    PrimFloat.leb score_hist 1 = true ->
    gate && (score_foreground <? min_foreground_threshold)%num = false ->
    let scoreA :=
      u2net_score score_ssim score_foreground score_edge score_hist in
    let scoreB :=
      rembg_score score_ssim score_foreground score_edge score_hist in
    let decision :=
      decide_best_method ext output_u2net output_rembg original_image
        image_path min_foreground_threshold in
    SFfinite (Prim2SF scoreA) = true
    /\ SFfinite (Prim2SF scoreB) = true
    /\ (Qabs (float_value scoreA + float_value scoreB - 1) <= 3 # 2 ^ 50)%Q
    /\ (decision = Ok (output_u2net, "U-2-Net")
        <-> PrimFloat.ltb scoreB scoreA = true)
    /\ (decision = Ok (output_rembg, "rembg")
        <-> PrimFloat.ltb scoreB scoreA = false)
    /\ ((1 # 2) + (1 # 2 ^ 49) < float_value scoreA ->
        decision = Ok (output_u2net, "U-2-Net"))%Q
    /\ (float_value scoreA < (1 # 2) - (1 # 2 ^ 49) ->
        decision = Ok (output_rembg, "rembg"))%Q.
Proof.
  intros ext A B original path threshold a s f e h g Hs Hf He Hh Hg Ha Hsize
    Hs0 Hs1 He0 He1 Hh0 Hh1 Hoff.
  cbv zeta.
  rewrite (decide_best_method_returns ext A B original path threshold
             s f e h g) by assumption.
  rewrite Hoff.
  destruct (foreground_ratio_bounds_binary64 A a f Ha (proj2 Hsize) Hf)
    as [Hf0 Hf1].
  assert (Hf0' : PrimFloat.leb (-1) f = true).
  { destruct (float_between 0 1 f eq_refl eq_refl Hf0 Hf1) as [Ff Bf].
    rewrite float_leb_units by (assumption || reflexivity).
    apply Z.leb_le. apply Z.le_trans with (SFunits (Prim2SF 0)); [| lia].
    vm_compute. discriminate. }
  destruct (scores_units s f e h Hs0 Hs1 Hf0' Hf1 He0 He1 Hh0 Hh1)
    as (FA & FB & Hsum).
  unfold ngtb. change (@nltb float float_Number) with PrimFloat.ltb.
  set (scoreA := u2net_score s f e h) in *.
  set (scoreB := rembg_score s f e h) in *.
  assert (Hlt : PrimFloat.ltb scoreB scoreA
                = (SFunits (Prim2SF scoreB) <? SFunits (Prim2SF scoreA))%Z)
    by (apply float_ltb_units; assumption).
  split; [exact FA |]. split; [exact FB |].
  split; [apply value_sum_bound; exact Hsum |].
  split; [| split; [| split]].
  - destruct (PrimFloat.ltb scoreB scoreA); split; congruence.
  - destruct (PrimFloat.ltb scoreB scoreA); split; congruence.
  - intros Habove. apply value_above_half in Habove.
    replace (PrimFloat.ltb scoreB scoreA) with true; [reflexivity |].
    symmetry. rewrite Hlt. apply Z.ltb_lt.
    replace (2 ^ 1074)%Z with (1125899906842624 * 2 ^ 1024)%Z in Hsum
      by (change 1125899906842624%Z with (2 ^ 50)%Z;
          rewrite <- (Z.pow_add_r 2 50 1024) by lia; reflexivity).
    set (E := (2 ^ 1024)%Z) in *. clearbody E. lia.
  - intros Hbelow. apply value_below_half in Hbelow.
    replace (PrimFloat.ltb scoreB scoreA) with false; [reflexivity |].
    symmetry. rewrite Hlt. apply Z.ltb_ge.
    replace (2 ^ 1074)%Z with (1125899906842624 * 2 ^ 1024)%Z in Hsum
      by (change 1125899906842624%Z with (2 ^ 50)%Z;
          rewrite <- (Z.pow_add_r 2 50 1024) by lia; reflexivity).
    set (E := (2 ^ 1024)%Z) in *. clearbody E. lia.
Qed.

(** Identical candidates of which half is foreground: the score of the
    network output is 0.875; and a scene in which the candidates differ:
    the score of the network output is 0.25. *)
Lemma composite_scores_binary64_witness :
  decide_best_method identical_scene (rgba_row 1 1) (rgba_row 1 1)
    (rgb_row 2) "in/photo.JPG" default_min_foreground_threshold
  = Ok (rgba_row 1 1, "U-2-Net")
  /\ decide_best_method dissimilar_scene (rgba_row 2 3) (rgba_row 3 2)
       (rgb_row 5) "in/photo.JPG" default_min_foreground_threshold
     = Ok (rgba_row 3 2, "rembg").
Proof.
  split.
  - apply (composite_scores_binary64 identical_scene (rgba_row 1 1)
             (rgba_row 1 1) (rgb_row 2) "in/photo.JPG"
             default_min_foreground_threshold [[255; 0]]%Z
             1%float 0.5%float 1%float 1%float true);
      first [vm_compute; reflexivity | split; reflexivity].
  - apply (composite_scores_binary64 dissimilar_scene (rgba_row 2 3)
             (rgba_row 3 2) (rgb_row 5) "in/photo.JPG"
             default_min_foreground_threshold [[255; 255; 0; 0; 0]]%Z
             0.1%float 0.4%float 0.2%float 0.3%float false);
      first [vm_compute; reflexivity | split; reflexivity].
Defined.
